(** * lttng-analyses: the stateful event-correlation engine

    A shallow embedding of the correlators of the repository:
    - [Irq]: the interrupt correlator, [src/LTTngAnalyzes/irq.py];
    - [Automaton]: the entity tables, the syscall correlator and the
      statedump reconciler, [src/linuxautomaton/linuxautomaton/common.py],
      [syscalls.py] and [statedump.py].

    Python objects that the code shares by reference (IRQ records, file
    descriptors, I/O requests, processes) live in explicit stores indexed by
    locations; dictionaries are finite maps; a Python exception is an
    explicit [Raise] outcome of a state-and-error monad. *)

From Stdlib Require Import ZArith String List Lia Bool.
From stdpp Require Import gmap strings list fin_maps pretty.

Local Open Scope string_scope.
Local Open Scope Z_scope.

(** ** Exceptions and the state-and-error monad *)

Inductive exn : Type :=
| KeyError
| AttributeError
| TypeError
| RuntimeError
| StopIteration
| IndexError
| StructError.

Inductive result (A : Type) : Type :=
| Ok (a : A)
| Raise (e : exn).
Arguments Ok {A} a.
Arguments Raise {A} e.

Definition M (S A : Type) : Type := S -> result (A * S).

Definition unit_M {S A} (a : A) : M S A := fun s => Ok (a, s).

Definition bind_M {S A B} (c : M S A) (k : A -> M S B) : M S B :=
  fun s => match c s with
           | Ok (a, s') => k a s'
           | Raise e => Raise e
           end.

Definition raise_M {S A} (e : exn) : M S A := fun _ => Raise e.
Definition get_M {S} : M S S := fun s => Ok (s, s).
Definition modify_M {S} (f : S -> S) : M S unit := fun s => Ok (tt, f s).

(** [d[k]] on an optional lookup: a missing key raises [KeyError]. *)
Definition item_M {S A} (o : option A) : M S A :=
  match o with
  | Some a => unit_M a
  | None => raise_M KeyError
  end.

Notation "'let*' x ':=' c 'in' k" := (bind_M c (fun x => k))
  (at level 10, x name, c at level 100, k at level 200).
Notation "'let*' ' p ':=' c 'in' k" := (bind_M c (fun x => match x with p => k end))
  (at level 10, p pattern, c at level 100, k at level 200).
Notation "c '>>' k" := (bind_M c (fun _ => k))
  (at level 199, k at level 200, right associativity).

(** Final state of a computation, when it completes. *)
Definition exec_M {S A} (c : M S A) (s : S) : result S :=
  match c s with
  | Ok (_, s') => Ok s'
  | Raise e => Raise e
  end.

(** [R] relates the state before and the state after every run of [c]
    that completes. *)
Definition preserves {S A} (R : S -> S -> Prop) (c : M S A) : Prop :=
  forall s a s', c s = Ok (a, s') -> R s s'.

(** ** Trace events

    The trace reader hands over events with a name, a timestamp and named
    fields.  [event[k]] looks a field up in the event payload first and in
    the stream context next; [ev_payload] is the scope [EVENT_FIELDS] and
    [ev_context] the scope [STREAM_EVENT_CONTEXT]. *)

Definition loc : Type := nat.

(** [class FDType] of src/old/LTTngAnalyzes/common.py *)
Inductive FDType : Type := unknown | disk | net | maybe_net.

Global Instance FDType_eq_dec : EqDecision FDType.
Proof. solve_decision. Defined.

(** The values the code stores in events and in the [current_syscall]
    dictionary: integers, strings, integer sequences (an IPv4 address), a
    descriptor type, and references to [FD] and [IORequest] objects. *)
Inductive Val : Type :=
| VInt (z : Z)
| VStr (s : string)
| VSeq (l : list Z)
| VType (t : FDType)
| VFd (a : loc)
| VRq (a : loc).

Global Instance Val_eq_dec : EqDecision Val.
Proof. solve_decision. Defined.

Record Event : Type := mkEvent {
  ev_name : string;
  ev_timestamp : Z;
  ev_payload : gmap string Val;
  ev_context : gmap string Val
}.

Definition ev_get (e : Event) (k : string) : option Val :=
  match ev_payload e !! k with
  | Some v => Some v
  | None => ev_context e !! k
  end.

(** ['k' in event.keys()] *)
Definition ev_has (e : Event) (k : string) : bool :=
  match ev_get e k with Some _ => true | None => false end.

(** [event[k]] *)
Definition ev_item {S} (e : Event) (k : string) : M S Val := item_M (ev_get e k).

(** [event[k]] for a field used as an integer. *)
Definition as_int {S} (v : Val) : M S Z :=
  match v with
  | VInt z => unit_M z
  | _ => raise_M TypeError
  end.

Definition ev_int {S} (e : Event) (k : string) : M S Z :=
  let* v := ev_item e k in as_int v.

Definition as_str {S} (v : Val) : M S string :=
  match v with
  | VStr s => unit_M s
  | _ => raise_M TypeError
  end.

Definition ev_str {S} (e : Event) (k : string) : M S string :=
  let* v := ev_item e k in as_str v.

(** [name in l] for a list of names. *)
Definition mem (name : string) (l : list string) : bool :=
  existsb (String.eqb name) l.

(** ** The interrupt correlator: src/LTTngAnalyzes/irq.py *)

Module Irq.

(** [class IRQ] of src/old/LTTngAnalyzes/common.py; [ret] is the attribute
    that [hard_exit] adds to the object. *)
Record IRQ : Type := mkIRQ {
  nr : Z;
  irqclass : Z;
  start_ts : Z;
  stop_ts : Z;
  raise_ts : Z;
  cpu_id : Z;
  ret : option Val
}.

Definition HARD_IRQ : Z := 1.
Definition SOFT_IRQ : Z := 2.

Definition IRQ_new : IRQ := mkIRQ (-1) 0 (-1) (-1) (-1) (-1) None.

(** The dictionary built by [init_irq]: one aggregate per irq or vector. *)
Record irq_entry : Type := mkEntry {
  e_list : list loc;
  e_max : Z;
  e_min : Z;
  e_count : Z;
  e_total : Z;
  e_raise_max : Z;
  e_raise_min : Z;
  e_raise_count : Z;
  e_raise_total : Z
}.

Definition init_irq : irq_entry := mkEntry [] 0 (-1) 0 0 0 (-1) 0 0.

(** The dictionary [self.irq], with the keys that [__init__] gives it, and
    the store of the [IRQ] objects it refers to. *)
Record table : Type := mkTable {
  hard_count : Z;
  soft_count : Z;
  hard_per_cpu : gmap Z (option loc);
  soft_per_cpu : gmap Z (option loc);
  raise_per_cpu : gmap Z (option (Z * Z));
  names : gmap Z Val;
  hard_irqs : gmap Z irq_entry;
  soft_irqs : gmap Z irq_entry;
  raise_latency : gmap Z Z;
  irq_list : list loc;
  heap : gmap loc IRQ;
  next : loc
}.

(** [Interrupt.__init__] *)
Definition init : table :=
  mkTable 0 0 ∅ ∅ ∅ ∅ ∅ ∅ ∅ [] ∅ O.

Definition set_hard_count (v : Z) (t : table) : table :=
  mkTable v (soft_count t) (hard_per_cpu t) (soft_per_cpu t) (raise_per_cpu t)
    (names t) (hard_irqs t) (soft_irqs t) (raise_latency t) (irq_list t) (heap t) (next t).
Definition set_soft_count (v : Z) (t : table) : table :=
  mkTable (hard_count t) v (hard_per_cpu t) (soft_per_cpu t) (raise_per_cpu t)
    (names t) (hard_irqs t) (soft_irqs t) (raise_latency t) (irq_list t) (heap t) (next t).
Definition set_hard_per_cpu (v : gmap Z (option loc)) (t : table) : table :=
  mkTable (hard_count t) (soft_count t) v (soft_per_cpu t) (raise_per_cpu t)
    (names t) (hard_irqs t) (soft_irqs t) (raise_latency t) (irq_list t) (heap t) (next t).
Definition set_soft_per_cpu (v : gmap Z (option loc)) (t : table) : table :=
  mkTable (hard_count t) (soft_count t) (hard_per_cpu t) v (raise_per_cpu t)
    (names t) (hard_irqs t) (soft_irqs t) (raise_latency t) (irq_list t) (heap t) (next t).
Definition set_raise_per_cpu (v : gmap Z (option (Z * Z))) (t : table) : table :=
  mkTable (hard_count t) (soft_count t) (hard_per_cpu t) (soft_per_cpu t) v
    (names t) (hard_irqs t) (soft_irqs t) (raise_latency t) (irq_list t) (heap t) (next t).
Definition set_names (v : gmap Z Val) (t : table) : table :=
  mkTable (hard_count t) (soft_count t) (hard_per_cpu t) (soft_per_cpu t) (raise_per_cpu t)
    v (hard_irqs t) (soft_irqs t) (raise_latency t) (irq_list t) (heap t) (next t).
Definition set_hard_irqs (v : gmap Z irq_entry) (t : table) : table :=
  mkTable (hard_count t) (soft_count t) (hard_per_cpu t) (soft_per_cpu t) (raise_per_cpu t)
    (names t) v (soft_irqs t) (raise_latency t) (irq_list t) (heap t) (next t).
Definition set_soft_irqs (v : gmap Z irq_entry) (t : table) : table :=
  mkTable (hard_count t) (soft_count t) (hard_per_cpu t) (soft_per_cpu t) (raise_per_cpu t)
    (names t) (hard_irqs t) v (raise_latency t) (irq_list t) (heap t) (next t).
Definition set_irq_list (v : list loc) (t : table) : table :=
  mkTable (hard_count t) (soft_count t) (hard_per_cpu t) (soft_per_cpu t) (raise_per_cpu t)
    (names t) (hard_irqs t) (soft_irqs t) (raise_latency t) v (heap t) (next t).
Definition set_heap (v : gmap loc IRQ) (t : table) : table :=
  mkTable (hard_count t) (soft_count t) (hard_per_cpu t) (soft_per_cpu t) (raise_per_cpu t)
    (names t) (hard_irqs t) (soft_irqs t) (raise_latency t) (irq_list t) v (next t).
Definition set_next (v : loc) (t : table) : table :=
  mkTable (hard_count t) (soft_count t) (hard_per_cpu t) (soft_per_cpu t) (raise_per_cpu t)
    (names t) (hard_irqs t) (soft_irqs t) (raise_latency t) (irq_list t) (heap t) v.

(** The two keys [exit] is called with for [per_cpu_key], and the two for
    [irq_type]. *)
Inductive per_cpu_key : Type := hard_per_cpu_key | soft_per_cpu_key.
Inductive irq_type : Type := hard_irqs_key | soft_irqs_key.

Global Instance per_cpu_key_eq_dec : EqDecision per_cpu_key.
Proof. solve_decision. Defined.
Global Instance irq_type_eq_dec : EqDecision irq_type.
Proof. solve_decision. Defined.

Definition per_cpu (k : per_cpu_key) (t : table) : gmap Z (option loc) :=
  match k with
  | hard_per_cpu_key => hard_per_cpu t
  | soft_per_cpu_key => soft_per_cpu t
  end.

Definition set_per_cpu (k : per_cpu_key) (v : gmap Z (option loc)) (t : table) : table :=
  match k with
  | hard_per_cpu_key => set_hard_per_cpu v t
  | soft_per_cpu_key => set_soft_per_cpu v t
  end.

Definition irqs (k : irq_type) (t : table) : gmap Z irq_entry :=
  match k with
  | hard_irqs_key => hard_irqs t
  | soft_irqs_key => soft_irqs t
  end.

Definition set_irqs (k : irq_type) (v : gmap Z irq_entry) (t : table) : table :=
  match k with
  | hard_irqs_key => set_hard_irqs v t
  | soft_irqs_key => set_soft_irqs v t
  end.

(** The caller-supplied duration filter, in microseconds; [None] is an
    option the caller did not give. *)
Record Args : Type := mkArgs {
  args_max : option Z;
  args_min : option Z
}.

(** Truth value of an optional number: [None] and [0] are false. *)
Definition truthy (o : option Z) : bool :=
  match o with
  | Some z => negb (z =? 0)
  | None => false
  end.

Definition deref (l : loc) : M table IRQ :=
  let* t := get_M in item_M (heap t !! l).

Definition update (l : loc) (f : IRQ -> IRQ) : M table unit :=
  modify_M (fun t => set_heap (alter f l (heap t)) t).

(** [i = IRQ()]: a fresh object in the store. *)
Definition alloc (i : IRQ) : M table loc :=
  let* t := get_M in
  modify_M (fun t => set_next (S (next t)) (set_heap (<[next t := i]> (heap t)) t)) >>
  unit_M (next t).

Definition entry (event : Event) (cls : Z) (idfield : string) : M table loc :=
  let* cpu := ev_int event "cpu_id" in
  let* i := alloc IRQ_new in
  update i (fun r => mkIRQ (nr r) cls (start_ts r) (stop_ts r) (raise_ts r) (cpu_id r) (ret r)) >>
  update i (fun r => mkIRQ (nr r) (irqclass r) (ev_timestamp event) (stop_ts r) (raise_ts r) (cpu_id r) (ret r)) >>
  update i (fun r => mkIRQ (nr r) (irqclass r) (start_ts r) (stop_ts r) (raise_ts r) cpu (ret r)) >>
  let* n := ev_int event idfield in
  update i (fun r => mkIRQ n (irqclass r) (start_ts r) (stop_ts r) (raise_ts r) (cpu_id r) (ret r)) >>
  unit_M i.

Definition hard_entry (event : Event) : M table unit :=
  let* cpu := ev_int event "cpu_id" in
  let* name := ev_item event "name" in
  let* irq := ev_int event "irq" in
  modify_M (fun t => set_names (<[irq := name]> (names t)) t) >>
  modify_M (fun t => set_hard_count (hard_count t + 1) t) >>
  let* i := entry event HARD_IRQ "irq" in
  modify_M (fun t => set_hard_per_cpu (<[cpu := Some i]> (hard_per_cpu t)) t).

Definition soft_entry (event : Event) : M table unit :=
  let* cpu := ev_int event "cpu_id" in
  modify_M (fun t => set_soft_count (soft_count t + 1) t) >>
  let* i := entry event SOFT_IRQ "vec" in
  modify_M (fun t => set_soft_per_cpu (<[cpu := Some i]> (soft_per_cpu t)) t) >>
  let* t := get_M in
  match raise_per_cpu t !! cpu with
  | Some (Some (rts, rvec)) =>
      let* vec := ev_int event "vec" in
      if rvec =? vec then
        update i (fun r => mkIRQ (nr r) (irqclass r) (start_ts r) (stop_ts r) rts (cpu_id r) (ret r)) >>
        modify_M (fun t => set_raise_per_cpu (<[cpu := None]> (raise_per_cpu t)) t)
      else unit_M tt
  | _ => unit_M tt
  end.

(** The statements of [compute_stats], one function each. *)
Definition upd_max (duration : Z) (ie : irq_entry) : irq_entry :=
  if e_max ie <? duration
  then mkEntry (e_list ie) duration (e_min ie) (e_count ie) (e_total ie)
         (e_raise_max ie) (e_raise_min ie) (e_raise_count ie) (e_raise_total ie)
  else ie.

Definition upd_min (duration : Z) (ie : irq_entry) : irq_entry :=
  if (e_min ie =? -1) || (duration <? e_min ie)
  then mkEntry (e_list ie) (e_max ie) duration (e_count ie) (e_total ie)
         (e_raise_max ie) (e_raise_min ie) (e_raise_count ie) (e_raise_total ie)
  else ie.

Definition add_duration (duration : Z) (ie : irq_entry) : irq_entry :=
  mkEntry (e_list ie) (e_max ie) (e_min ie) (e_count ie + 1) (e_total ie + duration)
    (e_raise_max ie) (e_raise_min ie) (e_raise_count ie) (e_raise_total ie).

Definition upd_raise_max (latency : Z) (ie : irq_entry) : irq_entry :=
  if e_raise_max ie <? latency
  then mkEntry (e_list ie) (e_max ie) (e_min ie) (e_count ie) (e_total ie)
         latency (e_raise_min ie) (e_raise_count ie) (e_raise_total ie)
  else ie.

Definition upd_raise_min (latency : Z) (ie : irq_entry) : irq_entry :=
  if (e_raise_min ie =? -1) || (latency <? e_raise_min ie)
  then mkEntry (e_list ie) (e_max ie) (e_min ie) (e_count ie) (e_total ie)
         (e_raise_max ie) latency (e_raise_count ie) (e_raise_total ie)
  else ie.

Definition add_latency (latency : Z) (ie : irq_entry) : irq_entry :=
  mkEntry (e_list ie) (e_max ie) (e_min ie) (e_count ie) (e_total ie)
    (e_raise_max ie) (e_raise_min ie) (e_raise_count ie + 1) (e_raise_total ie + latency).

Definition compute_stats (ie : irq_entry) (i : IRQ) : irq_entry :=
  let duration := stop_ts i - start_ts i in
  let ie := add_duration duration (upd_min duration (upd_max duration ie)) in
  (* compute raise latency if applicable *)
  if raise_ts i =? -1 then ie
  else
    let latency := start_ts i - raise_ts i in
    add_latency latency (upd_raise_min latency (upd_raise_max latency ie)).

(** What [exit] returns: nothing, [False], or the completed record. *)
Inductive exit_ret : Type :=
| RetNone
| RetFalse
| RetIrq (i : loc).

Definition exit (event : Event) (idfield : string) (pck : per_cpu_key)
    (ity : irq_type) (args : Args) : M table exit_ret :=
  let* cpu := ev_int event "cpu_id" in
  let* t := get_M in
  match per_cpu pck t !! cpu with
  | None | Some None => unit_M RetNone
  | Some (Some i) =>
      let* r := deref i in
      let* id := ev_int event idfield in
      if negb (nr r =? id) then
        modify_M (fun t => set_per_cpu pck (<[cpu := None]> (per_cpu pck t)) t) >>
        unit_M RetNone
      else
        update i (fun r => mkIRQ (nr r) (irqclass r) (start_ts r) (ev_timestamp event)
                             (raise_ts r) (cpu_id r) (ret r)) >>
        let* r := deref i in
        let* t := get_M in
        (match irqs ity t !! nr r with
         | None => modify_M (fun t => set_irqs ity (<[nr r := init_irq]> (irqs ity t)) t)
         | Some _ => unit_M tt
         end) >>
        let duration := stop_ts r - start_ts r in
        if truthy (args_max args) && (default 0 (args_max args) * 1000 <? duration) then
          unit_M RetFalse
        else if truthy (args_min args) && (duration <? default 0 (args_min args) * 1000) then
          unit_M RetFalse
        else
          let* t := get_M in
          let* ie := item_M (irqs ity t !! nr r) in
          let ie := mkEntry (e_list ie ++ [i]) (e_max ie) (e_min ie) (e_count ie) (e_total ie)
                      (e_raise_max ie) (e_raise_min ie) (e_raise_count ie) (e_raise_total ie) in
          let ie := compute_stats ie r in
          modify_M (fun t => set_irqs ity (<[nr r := ie]> (irqs ity t)) t) >>
          modify_M (fun t => set_irq_list (irq_list t ++ [i]) t) >>
          unit_M (RetIrq i)
  end.

Definition hard_exit (event : Event) (args : Args) : M table unit :=
  let* i := exit event "irq" hard_per_cpu_key hard_irqs_key args in
  match i with
  | RetIrq i =>
      let* v := ev_item event "ret" in
      update i (fun r => mkIRQ (nr r) (irqclass r) (start_ts r) (stop_ts r) (raise_ts r)
                           (cpu_id r) (Some v))
  | _ => unit_M tt
  end.

Definition soft_exit (event : Event) (args : Args) : M table unit :=
  exit event "vec" soft_per_cpu_key soft_irqs_key args >> unit_M tt.

Definition soft_raise (event : Event) : M table unit :=
  let* cpu := ev_int event "cpu_id" in
  let* vec := ev_int event "vec" in
  modify_M (fun t => set_raise_per_cpu (<[cpu := Some (ev_timestamp event, vec)]> (raise_per_cpu t)) t).

(** *** Running the correlator over a trace

    The caller of [Interrupt] is not among the sources: it routes each
    event to one of the five handlers.  A trace is a list of such routed
    events. *)

Inductive handler : Type :=
| HardEntry
| HardExit
| SoftEntry
| SoftExit
| SoftRaise.

Global Instance handler_eq_dec : EqDecision handler.
Proof. solve_decision. Defined.

Definition process (args : Args) (x : handler * Event) : M table unit :=
  match fst x with
  | HardEntry => hard_entry (snd x)
  | HardExit => hard_exit (snd x) args
  | SoftEntry => soft_entry (snd x)
  | SoftExit => soft_exit (snd x) args
  | SoftRaise => soft_raise (snd x)
  end.

Fixpoint run (args : Args) (l : list (handler * Event)) : M table unit :=
  match l with
  | [] => unit_M tt
  | x :: l' => process args x >> run args l'
  end.

(** No duration filter configured. *)
Definition no_filter : Args := mkArgs None None.

(** The two tests of [exit] on the duration: the interval is outside the
    requested range. *)
Definition filtered (args : Args) (duration : Z) : bool :=
  (truthy (args_max args) && (default 0 (args_max args) * 1000 <? duration))
  || (truthy (args_min args) && (duration <? default 0 (args_min args) * 1000)).

(** An event of a soft-IRQ tracepoint: CPU, vector and timestamp. *)
Definition soft_event (name : string) (cpu vec ts : Z) : Event :=
  mkEvent name ts {[ "cpu_id" := VInt cpu; "vec" := VInt vec ]} ∅.

Definition raise_ev (cpu vec ts : Z) : handler * Event :=
  (SoftRaise, soft_event "softirq_raise" cpu vec ts).
Definition entry_ev (cpu vec ts : Z) : handler * Event :=
  (SoftEntry, soft_event "softirq_entry" cpu vec ts).
Definition exit_ev (cpu vec ts : Z) : handler * Event :=
  (SoftExit, soft_event "softirq_exit" cpu vec ts).

(** An event of a hard-IRQ tracepoint. *)
Definition irq_entry_ev (cpu irq ts : Z) (name : string) : handler * Event :=
  (HardEntry, mkEvent "irq_handler_entry" ts
                {[ "cpu_id" := VInt cpu; "irq" := VInt irq; "name" := VStr name ]} ∅).
Definition irq_exit_ev (cpu irq ts ret : Z) : handler * Event :=
  (HardExit, mkEvent "irq_handler_exit" ts
               {[ "cpu_id" := VInt cpu; "irq" := VInt irq; "ret" := VInt ret ]} ∅).

(** [x] is a raise on CPU [cpu]; [x] is a soft-IRQ entry of vector [vec]
    on CPU [cpu]. *)
Definition is_raise_on (cpu : Z) (x : handler * Event) : Prop :=
  fst x = SoftRaise ∧ ev_get (snd x) "cpu_id" = Some (VInt cpu).

Definition is_entry_of (cpu vec : Z) (x : handler * Event) : Prop :=
  fst x = SoftEntry ∧ ev_get (snd x) "cpu_id" = Some (VInt cpu)
  ∧ ev_get (snd x) "vec" = Some (VInt vec).

Definition is_raise_of (cpu vec ts : Z) (x : handler * Event) : Prop :=
  is_raise_on cpu x ∧ ev_get (snd x) "vec" = Some (VInt vec) ∧ ev_timestamp (snd x) = ts.

(** The condition of the specification: in the history [h], a raise of
    vector [vec] on CPU [cpu], at [ts], with no entry of that vector on
    that CPU after it. *)
Definition raise_preceded (cpu vec ts : Z) (h : list (handler * Event)) : Prop :=
  ∃ pre x post, h = (pre ++ x :: post)%list ∧ is_raise_of cpu vec ts x
    ∧ ∀ y, y ∈ post → ¬ is_entry_of cpu vec y.

(** The condition the code implements: the raise is moreover the last
    raise on that CPU, whatever its vector. *)
Definition raise_pending (cpu vec ts : Z) (h : list (handler * Event)) : Prop :=
  ∃ pre x post, h = (pre ++ x :: post)%list ∧ is_raise_of cpu vec ts x
    ∧ ∀ y, y ∈ post → ¬ is_entry_of cpu vec y ∧ ¬ is_raise_on cpu y.

(** What [soft_entry] does with the pending raise of its CPU: the slot is
    cleared when it holds the vector of the entry, and the raise timestamp
    goes to the new record, whose [raise_ts] is [-1] otherwise. *)
Definition consume (cpu vec : Z) (m : gmap Z (option (Z * Z))) : gmap Z (option (Z * Z)) :=
  match m !! cpu with
  | Some (Some (rts, rvec)) => if rvec =? vec then <[cpu := None]> m else m
  | _ => m
  end.

Definition raised_at (cpu vec : Z) (m : gmap Z (option (Z * Z))) : Z :=
  match m !! cpu with
  | Some (Some (rts, rvec)) => if rvec =? vec then rts else -1
  | _ => -1
  end.

(** The record of a matched exit: the in-flight record with its stop
    time; and the aggregate after [exit] has appended the record [i] to its
    list and run [compute_stats] on it. *)
Definition stopped (r : IRQ) (ts : Z) : IRQ :=
  mkIRQ (nr r) (irqclass r) (start_ts r) ts (raise_ts r) (cpu_id r) (ret r).

Definition with_sample (ie : irq_entry) (i : loc) (r : IRQ) : irq_entry :=
  compute_stats
    (mkEntry (e_list ie ++ [i]) (e_max ie) (e_min ie) (e_count ie) (e_total ie)
       (e_raise_max ie) (e_raise_min ie) (e_raise_count ie) (e_raise_total ie)) r.

(** The pending raises are touched by [soft_raise] and [soft_entry] only:
    the other handlers leave them as they are. *)
Definition same_raise (t t' : table) : Prop := raise_per_cpu t' = raise_per_cpu t.

(** The aggregate of a vector, zero when the vector has none yet. *)
Definition soft_stats (t : table) (vec : Z) : irq_entry :=
  default init_irq (soft_irqs t !! vec).

(** *** What the correlator keeps *)

(** What an aggregate keeps through every sample: its count is the number
    of intervals in its list, the raise-latency samples are at most as many,
    and the minima are not above the maxima. *)
Definition consistent (ie : irq_entry) : Prop :=
  e_count ie = Z.of_nat (length (e_list ie)) /\
  0 <= e_raise_count ie <= e_count ie /\
  e_min ie <= e_max ie /\
  e_raise_min ie <= e_raise_max ie.

Definition aggregates_consistent (t : table) : Prop :=
  forall ity n ie, irqs ity t !! n = Some ie -> consistent ie.

(** The aggregates stay as they are. *)
Definition same_irqs (t t' : table) : Prop :=
  hard_irqs t' = hard_irqs t /\ soft_irqs t' = soft_irqs t /\ irq_list t' = irq_list t.

(** The entry counters stay as they are. *)
Definition same_counts (t t' : table) : Prop :=
  hard_count t' = hard_count t /\ soft_count t' = soft_count t.

(** The number of events of a trace routed to the handler [o]. *)
Definition routed (o : handler) (h : list (handler * Event)) : Z :=
  Z.of_nat (length (filter (fun x => fst x = o) h)).

(** *** The record in flight on a CPU *)

(** [x] is a soft-IRQ entry on CPU [cpu], whatever its vector; [x] is a
    soft-IRQ exit on CPU [cpu] for the vector [vec]; [x] is a soft-IRQ exit
    on CPU [cpu] that does not carry the vector [vec]. *)
Definition is_entry_on (cpu : Z) (x : handler * Event) : Prop :=
  fst x = SoftEntry ∧ ev_get (snd x) "cpu_id" = Some (VInt cpu).

Definition is_exit_of (cpu vec : Z) (x : handler * Event) : Prop :=
  fst x = SoftExit ∧ ev_get (snd x) "cpu_id" = Some (VInt cpu)
  ∧ ev_get (snd x) "vec" = Some (VInt vec).

Definition is_exit_of_other (cpu vec : Z) (x : handler * Event) : Prop :=
  fst x = SoftExit ∧ ev_get (snd x) "cpu_id" = Some (VInt cpu)
  ∧ ev_get (snd x) "vec" ≠ Some (VInt vec).

(** In the history [h], the event [en] is the last soft-IRQ entry on CPU
    [cpu]; it is for the vector [vec] and comes after the events [pre]; no
    exit on that CPU for another vector has come after it.  This is when
    the slot of the CPU holds the record of [en]: [soft_entry] fills the
    slot, and [exit] clears it on an exit for another id only. *)
Definition entry_in_flight (cpu vec : Z) (pre : list (handler * Event))
    (en : handler * Event) (h : list (handler * Event)) : Prop :=
  ∃ post, h = (pre ++ en :: post)%list ∧ is_entry_of cpu vec en
    ∧ ∀ y, y ∈ post → ¬ is_entry_on cpu y ∧ ¬ is_exit_of_other cpu vec y.

(** The records of the store keep their id, their entry timestamp and
    their raise timestamp, and nothing is allocated. *)
Definition same_records (t t' : table) : Prop :=
  next t' = next t ∧
  ∀ i r, heap t !! i = Some r →
    ∃ r', heap t' !! i = Some r' ∧ nr r' = nr r ∧ start_ts r' = start_ts r
      ∧ raise_ts r' = raise_ts r.

(** The soft-IRQ slots and aggregates stay as they are. *)
Definition same_soft (t t' : table) : Prop :=
  soft_per_cpu t' = soft_per_cpu t ∧ soft_irqs t' = soft_irqs t.

End Irq.

(** ** The entity tables: linuxautomaton

    The module [sv] that declares the entity classes and the syscall
    catalog is not among the sources.  The classes are taken from the same
    classes of src/old/LTTngAnalyzes/common.py, with the attributes that
    common.py, syscalls.py and statedump.py read and write. *)

Module Automaton.

(** [socket.AF_*] on Linux *)
Definition AF_UNSPEC : Z := 0.
Definition AF_UNIX : Z := 1.
Definition AF_INET : Z := 2.
Definition AF_INET6 : Z := 10.

(** [common.O_CLOEXEC = 0o2000000] *)
Definition O_CLOEXEC : Z := 524288.

(** [class IORequest]: the constants *)
Definition IO_SYSCALL : Z := 1.
Definition IO_BLOCK : Z := 2.
Definition IO_NET : Z := 3.
Definition OP_OPEN : Z := 1.
Definition OP_READ : Z := 2.
Definition OP_WRITE : Z := 3.
Definition OP_CLOSE : Z := 4.
Definition OP_SYNC : Z := 5.

(** The syscall catalog [sv.SyscallConsts].  The functions below take it as
    a parameter; [catalog] further down is the instance used to run them. *)
Record SyscallConsts : Type := mkConsts {
  INET_FAMILIES : list Z;
  DISK_FAMILIES : list Z;
  DISK_OPEN_SYSCALLS : list string;
  NET_OPEN_SYSCALLS : list string;
  DUP_OPEN_SYSCALLS : list string;
  SYNC_SYSCALLS : list string;
  OPEN_SYSCALLS : list string;
  CLOSE_SYSCALLS : list string;
  READ_SYSCALLS : list string;
  WRITE_SYSCALLS : list string;
  IO_SYSCALLS : list string;
  GENERIC_NAMES : list string
}.

(** One timed call of a syscall by a thread: [sv.SyscallEvent] *)
Record SyscallEvent : Type := mkSyscallEvent {
  se_ret : Z;
  se_entry_ts : Z;
  se_exit_ts : Z;
  se_duration : Z
}.

(** [class Syscall]: per-name count and duration statistics *)
Record Syscall : Type := mkSyscall {
  sc_name : string;
  sc_count : Z;
  sc_min : option Z;
  sc_max : Z;
  sc_total_duration : Z;
  sc_rq : list SyscallEvent
}.

Definition set_sc_name (v : string) (x : Syscall) : Syscall :=
  mkSyscall v (sc_count x) (sc_min x) (sc_max x) (sc_total_duration x) (sc_rq x).
Definition set_sc_count (v : Z) (x : Syscall) : Syscall :=
  mkSyscall (sc_name x) v (sc_min x) (sc_max x) (sc_total_duration x) (sc_rq x).
Definition set_sc_min (v : option Z) (x : Syscall) : Syscall :=
  mkSyscall (sc_name x) (sc_count x) v (sc_max x) (sc_total_duration x) (sc_rq x).
Definition set_sc_max (v : Z) (x : Syscall) : Syscall :=
  mkSyscall (sc_name x) (sc_count x) (sc_min x) v (sc_total_duration x) (sc_rq x).
Definition set_sc_total_duration (v : Z) (x : Syscall) : Syscall :=
  mkSyscall (sc_name x) (sc_count x) (sc_min x) (sc_max x) v (sc_rq x).
Definition set_sc_rq (v : list SyscallEvent) (x : Syscall) : Syscall :=
  mkSyscall (sc_name x) (sc_count x) (sc_min x) (sc_max x) (sc_total_duration x) v.

Definition Syscall_new : Syscall := mkSyscall "" 0 None 0 0 [].

(** [class FD].  [fd_name] is the attribute [name], which the class does
    not declare: it is absent ([None]) until some statement assigns it. *)
Record FD : Type := mkFD {
  fd_filename : string;
  fd_fd : Z;
  fd_family : Val;
  fd_fdtype : FDType;
  fd_parent : Z;
  fd_name : option string;
  fd_net_read : Z;
  fd_net_write : Z;
  fd_disk_read : Z;
  fd_disk_write : Z;
  fd_unk_read : Z;
  fd_unk_write : Z;
  fd_read : Z;
  fd_write : Z;
  fd_open : Z;
  fd_close : Z;
  fd_cloexec : Z;
  fd_iorequests : list loc
}.

Definition set_fd_filename (v : string) (x : FD) : FD :=
  mkFD v (fd_fd x) (fd_family x) (fd_fdtype x) (fd_parent x) (fd_name x) (fd_net_read x)
    (fd_net_write x) (fd_disk_read x) (fd_disk_write x) (fd_unk_read x) (fd_unk_write x)
    (fd_read x) (fd_write x) (fd_open x) (fd_close x) (fd_cloexec x) (fd_iorequests x).
Definition set_fd_fd (v : Z) (x : FD) : FD :=
  mkFD (fd_filename x) v (fd_family x) (fd_fdtype x) (fd_parent x) (fd_name x) (fd_net_read
    x) (fd_net_write x) (fd_disk_read x) (fd_disk_write x) (fd_unk_read x) (fd_unk_write x)
    (fd_read x) (fd_write x) (fd_open x) (fd_close x) (fd_cloexec x) (fd_iorequests x).
Definition set_fd_family (v : Val) (x : FD) : FD :=
  mkFD (fd_filename x) (fd_fd x) v (fd_fdtype x) (fd_parent x) (fd_name x) (fd_net_read x)
    (fd_net_write x) (fd_disk_read x) (fd_disk_write x) (fd_unk_read x) (fd_unk_write x)
    (fd_read x) (fd_write x) (fd_open x) (fd_close x) (fd_cloexec x) (fd_iorequests x).
Definition set_fd_fdtype (v : FDType) (x : FD) : FD :=
  mkFD (fd_filename x) (fd_fd x) (fd_family x) v (fd_parent x) (fd_name x) (fd_net_read x)
    (fd_net_write x) (fd_disk_read x) (fd_disk_write x) (fd_unk_read x) (fd_unk_write x)
    (fd_read x) (fd_write x) (fd_open x) (fd_close x) (fd_cloexec x) (fd_iorequests x).
Definition set_fd_parent (v : Z) (x : FD) : FD :=
  mkFD (fd_filename x) (fd_fd x) (fd_family x) (fd_fdtype x) v (fd_name x) (fd_net_read x)
    (fd_net_write x) (fd_disk_read x) (fd_disk_write x) (fd_unk_read x) (fd_unk_write x)
    (fd_read x) (fd_write x) (fd_open x) (fd_close x) (fd_cloexec x) (fd_iorequests x).
Definition set_fd_name (v : option string) (x : FD) : FD :=
  mkFD (fd_filename x) (fd_fd x) (fd_family x) (fd_fdtype x) (fd_parent x) v (fd_net_read
    x) (fd_net_write x) (fd_disk_read x) (fd_disk_write x) (fd_unk_read x) (fd_unk_write x)
    (fd_read x) (fd_write x) (fd_open x) (fd_close x) (fd_cloexec x) (fd_iorequests x).
Definition set_fd_net_read (v : Z) (x : FD) : FD :=
  mkFD (fd_filename x) (fd_fd x) (fd_family x) (fd_fdtype x) (fd_parent x) (fd_name x) v
    (fd_net_write x) (fd_disk_read x) (fd_disk_write x) (fd_unk_read x) (fd_unk_write x)
    (fd_read x) (fd_write x) (fd_open x) (fd_close x) (fd_cloexec x) (fd_iorequests x).
Definition set_fd_net_write (v : Z) (x : FD) : FD :=
  mkFD (fd_filename x) (fd_fd x) (fd_family x) (fd_fdtype x) (fd_parent x) (fd_name x)
    (fd_net_read x) v (fd_disk_read x) (fd_disk_write x) (fd_unk_read x) (fd_unk_write x)
    (fd_read x) (fd_write x) (fd_open x) (fd_close x) (fd_cloexec x) (fd_iorequests x).
Definition set_fd_disk_read (v : Z) (x : FD) : FD :=
  mkFD (fd_filename x) (fd_fd x) (fd_family x) (fd_fdtype x) (fd_parent x) (fd_name x)
    (fd_net_read x) (fd_net_write x) v (fd_disk_write x) (fd_unk_read x) (fd_unk_write x)
    (fd_read x) (fd_write x) (fd_open x) (fd_close x) (fd_cloexec x) (fd_iorequests x).
Definition set_fd_disk_write (v : Z) (x : FD) : FD :=
  mkFD (fd_filename x) (fd_fd x) (fd_family x) (fd_fdtype x) (fd_parent x) (fd_name x)
    (fd_net_read x) (fd_net_write x) (fd_disk_read x) v (fd_unk_read x) (fd_unk_write x)
    (fd_read x) (fd_write x) (fd_open x) (fd_close x) (fd_cloexec x) (fd_iorequests x).
Definition set_fd_unk_read (v : Z) (x : FD) : FD :=
  mkFD (fd_filename x) (fd_fd x) (fd_family x) (fd_fdtype x) (fd_parent x) (fd_name x)
    (fd_net_read x) (fd_net_write x) (fd_disk_read x) (fd_disk_write x) v (fd_unk_write x)
    (fd_read x) (fd_write x) (fd_open x) (fd_close x) (fd_cloexec x) (fd_iorequests x).
Definition set_fd_unk_write (v : Z) (x : FD) : FD :=
  mkFD (fd_filename x) (fd_fd x) (fd_family x) (fd_fdtype x) (fd_parent x) (fd_name x)
    (fd_net_read x) (fd_net_write x) (fd_disk_read x) (fd_disk_write x) (fd_unk_read x) v
    (fd_read x) (fd_write x) (fd_open x) (fd_close x) (fd_cloexec x) (fd_iorequests x).
Definition set_fd_read (v : Z) (x : FD) : FD :=
  mkFD (fd_filename x) (fd_fd x) (fd_family x) (fd_fdtype x) (fd_parent x) (fd_name x)
    (fd_net_read x) (fd_net_write x) (fd_disk_read x) (fd_disk_write x) (fd_unk_read x)
    (fd_unk_write x) v (fd_write x) (fd_open x) (fd_close x) (fd_cloexec x) (fd_iorequests
    x).
Definition set_fd_write (v : Z) (x : FD) : FD :=
  mkFD (fd_filename x) (fd_fd x) (fd_family x) (fd_fdtype x) (fd_parent x) (fd_name x)
    (fd_net_read x) (fd_net_write x) (fd_disk_read x) (fd_disk_write x) (fd_unk_read x)
    (fd_unk_write x) (fd_read x) v (fd_open x) (fd_close x) (fd_cloexec x) (fd_iorequests
    x).
Definition set_fd_open (v : Z) (x : FD) : FD :=
  mkFD (fd_filename x) (fd_fd x) (fd_family x) (fd_fdtype x) (fd_parent x) (fd_name x)
    (fd_net_read x) (fd_net_write x) (fd_disk_read x) (fd_disk_write x) (fd_unk_read x)
    (fd_unk_write x) (fd_read x) (fd_write x) v (fd_close x) (fd_cloexec x) (fd_iorequests
    x).
Definition set_fd_close (v : Z) (x : FD) : FD :=
  mkFD (fd_filename x) (fd_fd x) (fd_family x) (fd_fdtype x) (fd_parent x) (fd_name x)
    (fd_net_read x) (fd_net_write x) (fd_disk_read x) (fd_disk_write x) (fd_unk_read x)
    (fd_unk_write x) (fd_read x) (fd_write x) (fd_open x) v (fd_cloexec x) (fd_iorequests
    x).
Definition set_fd_cloexec (v : Z) (x : FD) : FD :=
  mkFD (fd_filename x) (fd_fd x) (fd_family x) (fd_fdtype x) (fd_parent x) (fd_name x)
    (fd_net_read x) (fd_net_write x) (fd_disk_read x) (fd_disk_write x) (fd_unk_read x)
    (fd_unk_write x) (fd_read x) (fd_write x) (fd_open x) (fd_close x) v (fd_iorequests x).
Definition set_fd_iorequests (v : list loc) (x : FD) : FD :=
  mkFD (fd_filename x) (fd_fd x) (fd_family x) (fd_fdtype x) (fd_parent x) (fd_name x)
    (fd_net_read x) (fd_net_write x) (fd_disk_read x) (fd_disk_write x) (fd_unk_read x)
    (fd_unk_write x) (fd_read x) (fd_write x) (fd_open x) (fd_close x) (fd_cloexec x) v.

Definition FD_new : FD :=
  mkFD "" (-1) (VInt AF_UNSPEC) unknown (-1) None 0 0 0 0 0 0 0 0 0 0 0 [].

(** [class IORequest] *)
Record IORequest : Type := mkIORequest {
  rq_iotype : option Z;
  rq_size : option Z;
  rq_duration : option Z;
  rq_operation : option Z;
  rq_name : option string;
  rq_begin : option Z;
  rq_end : option Z;
  rq_proc : option loc;
  rq_fd : option loc;
  rq_dirty : Val;
  rq_page_alloc : Val;
  rq_page_free : Val;
  rq_page_written : Val;
  rq_woke_kswapd : bool;
  rq_page_cleared : Z
}.

Definition set_rq_iotype (v : option Z) (x : IORequest) : IORequest :=
  mkIORequest v (rq_size x) (rq_duration x) (rq_operation x) (rq_name x) (rq_begin x)
    (rq_end x) (rq_proc x) (rq_fd x) (rq_dirty x) (rq_page_alloc x) (rq_page_free x)
    (rq_page_written x) (rq_woke_kswapd x) (rq_page_cleared x).
Definition set_rq_size (v : option Z) (x : IORequest) : IORequest :=
  mkIORequest (rq_iotype x) v (rq_duration x) (rq_operation x) (rq_name x) (rq_begin x)
    (rq_end x) (rq_proc x) (rq_fd x) (rq_dirty x) (rq_page_alloc x) (rq_page_free x)
    (rq_page_written x) (rq_woke_kswapd x) (rq_page_cleared x).
Definition set_rq_duration (v : option Z) (x : IORequest) : IORequest :=
  mkIORequest (rq_iotype x) (rq_size x) v (rq_operation x) (rq_name x) (rq_begin x) (rq_end
    x) (rq_proc x) (rq_fd x) (rq_dirty x) (rq_page_alloc x) (rq_page_free x)
    (rq_page_written x) (rq_woke_kswapd x) (rq_page_cleared x).
Definition set_rq_operation (v : option Z) (x : IORequest) : IORequest :=
  mkIORequest (rq_iotype x) (rq_size x) (rq_duration x) v (rq_name x) (rq_begin x) (rq_end
    x) (rq_proc x) (rq_fd x) (rq_dirty x) (rq_page_alloc x) (rq_page_free x)
    (rq_page_written x) (rq_woke_kswapd x) (rq_page_cleared x).
Definition set_rq_name (v : option string) (x : IORequest) : IORequest :=
  mkIORequest (rq_iotype x) (rq_size x) (rq_duration x) (rq_operation x) v (rq_begin x)
    (rq_end x) (rq_proc x) (rq_fd x) (rq_dirty x) (rq_page_alloc x) (rq_page_free x)
    (rq_page_written x) (rq_woke_kswapd x) (rq_page_cleared x).
Definition set_rq_begin (v : option Z) (x : IORequest) : IORequest :=
  mkIORequest (rq_iotype x) (rq_size x) (rq_duration x) (rq_operation x) (rq_name x) v
    (rq_end x) (rq_proc x) (rq_fd x) (rq_dirty x) (rq_page_alloc x) (rq_page_free x)
    (rq_page_written x) (rq_woke_kswapd x) (rq_page_cleared x).
Definition set_rq_end (v : option Z) (x : IORequest) : IORequest :=
  mkIORequest (rq_iotype x) (rq_size x) (rq_duration x) (rq_operation x) (rq_name x)
    (rq_begin x) v (rq_proc x) (rq_fd x) (rq_dirty x) (rq_page_alloc x) (rq_page_free x)
    (rq_page_written x) (rq_woke_kswapd x) (rq_page_cleared x).
Definition set_rq_proc (v : option loc) (x : IORequest) : IORequest :=
  mkIORequest (rq_iotype x) (rq_size x) (rq_duration x) (rq_operation x) (rq_name x)
    (rq_begin x) (rq_end x) v (rq_fd x) (rq_dirty x) (rq_page_alloc x) (rq_page_free x)
    (rq_page_written x) (rq_woke_kswapd x) (rq_page_cleared x).
Definition set_rq_fd (v : option loc) (x : IORequest) : IORequest :=
  mkIORequest (rq_iotype x) (rq_size x) (rq_duration x) (rq_operation x) (rq_name x)
    (rq_begin x) (rq_end x) (rq_proc x) v (rq_dirty x) (rq_page_alloc x) (rq_page_free x)
    (rq_page_written x) (rq_woke_kswapd x) (rq_page_cleared x).
Definition set_rq_dirty (v : Val) (x : IORequest) : IORequest :=
  mkIORequest (rq_iotype x) (rq_size x) (rq_duration x) (rq_operation x) (rq_name x)
    (rq_begin x) (rq_end x) (rq_proc x) (rq_fd x) v (rq_page_alloc x) (rq_page_free x)
    (rq_page_written x) (rq_woke_kswapd x) (rq_page_cleared x).
Definition set_rq_page_alloc (v : Val) (x : IORequest) : IORequest :=
  mkIORequest (rq_iotype x) (rq_size x) (rq_duration x) (rq_operation x) (rq_name x)
    (rq_begin x) (rq_end x) (rq_proc x) (rq_fd x) (rq_dirty x) v (rq_page_free x)
    (rq_page_written x) (rq_woke_kswapd x) (rq_page_cleared x).
Definition set_rq_page_free (v : Val) (x : IORequest) : IORequest :=
  mkIORequest (rq_iotype x) (rq_size x) (rq_duration x) (rq_operation x) (rq_name x)
    (rq_begin x) (rq_end x) (rq_proc x) (rq_fd x) (rq_dirty x) (rq_page_alloc x) v
    (rq_page_written x) (rq_woke_kswapd x) (rq_page_cleared x).
Definition set_rq_page_written (v : Val) (x : IORequest) : IORequest :=
  mkIORequest (rq_iotype x) (rq_size x) (rq_duration x) (rq_operation x) (rq_name x)
    (rq_begin x) (rq_end x) (rq_proc x) (rq_fd x) (rq_dirty x) (rq_page_alloc x)
    (rq_page_free x) v (rq_woke_kswapd x) (rq_page_cleared x).
Definition set_rq_woke_kswapd (v : bool) (x : IORequest) : IORequest :=
  mkIORequest (rq_iotype x) (rq_size x) (rq_duration x) (rq_operation x) (rq_name x)
    (rq_begin x) (rq_end x) (rq_proc x) (rq_fd x) (rq_dirty x) (rq_page_alloc x)
    (rq_page_free x) (rq_page_written x) v (rq_page_cleared x).
Definition set_rq_page_cleared (v : Z) (x : IORequest) : IORequest :=
  mkIORequest (rq_iotype x) (rq_size x) (rq_duration x) (rq_operation x) (rq_name x)
    (rq_begin x) (rq_end x) (rq_proc x) (rq_fd x) (rq_dirty x) (rq_page_alloc x)
    (rq_page_free x) (rq_page_written x) (rq_woke_kswapd x) v.

Definition IORequest_new : IORequest :=
  mkIORequest None None None None None None None None None
    (VInt 0) (VInt 0) (VInt 0) (VInt 0) false 0.

(** One entry of the chronological history of a descriptor number: the
    dictionary with the keys [filename] and [fdtype]. *)
Record chrono_metadata : Type := mkChrono {
  cm_filename : string;
  cm_fdtype : FDType
}.

(** [class Process].  [tid] and [pid] are [None] until known: the code
    tests [t.pid is None].  [chrono_fds] maps a descriptor number to an
    ordered dictionary from timestamps to metadata, kept as an association
    list in insertion order. *)
Record Process : Type := mkProcess {
  p_tid : option Z;
  p_pid : option Z;
  p_comm : string;
  p_fds : gmap Z loc;
  p_closed_fds : gmap string loc;
  p_chrono_fds : gmap Z (list (Z * chrono_metadata));
  p_current_syscall : gmap string Val;
  p_net_read : Z;
  p_net_write : Z;
  p_disk_read : Z;
  p_disk_write : Z;
  p_unk_read : Z;
  p_unk_write : Z;
  p_read : Z;
  p_write : Z;
  p_prev_tid : Z;
  p_syscalls : gmap string Syscall;
  p_total_syscalls : Z;
  p_iorequests : list loc
}.

Definition set_p_tid (v : option Z) (x : Process) : Process :=
  mkProcess v (p_pid x) (p_comm x) (p_fds x) (p_closed_fds x) (p_chrono_fds x)
    (p_current_syscall x) (p_net_read x) (p_net_write x) (p_disk_read x) (p_disk_write x)
    (p_unk_read x) (p_unk_write x) (p_read x) (p_write x) (p_prev_tid x) (p_syscalls x)
    (p_total_syscalls x) (p_iorequests x).
Definition set_p_pid (v : option Z) (x : Process) : Process :=
  mkProcess (p_tid x) v (p_comm x) (p_fds x) (p_closed_fds x) (p_chrono_fds x)
    (p_current_syscall x) (p_net_read x) (p_net_write x) (p_disk_read x) (p_disk_write x)
    (p_unk_read x) (p_unk_write x) (p_read x) (p_write x) (p_prev_tid x) (p_syscalls x)
    (p_total_syscalls x) (p_iorequests x).
Definition set_p_comm (v : string) (x : Process) : Process :=
  mkProcess (p_tid x) (p_pid x) v (p_fds x) (p_closed_fds x) (p_chrono_fds x)
    (p_current_syscall x) (p_net_read x) (p_net_write x) (p_disk_read x) (p_disk_write x)
    (p_unk_read x) (p_unk_write x) (p_read x) (p_write x) (p_prev_tid x) (p_syscalls x)
    (p_total_syscalls x) (p_iorequests x).
Definition set_p_fds (v : gmap Z loc) (x : Process) : Process :=
  mkProcess (p_tid x) (p_pid x) (p_comm x) v (p_closed_fds x) (p_chrono_fds x)
    (p_current_syscall x) (p_net_read x) (p_net_write x) (p_disk_read x) (p_disk_write x)
    (p_unk_read x) (p_unk_write x) (p_read x) (p_write x) (p_prev_tid x) (p_syscalls x)
    (p_total_syscalls x) (p_iorequests x).
Definition set_p_closed_fds (v : gmap string loc) (x : Process) : Process :=
  mkProcess (p_tid x) (p_pid x) (p_comm x) (p_fds x) v (p_chrono_fds x) (p_current_syscall
    x) (p_net_read x) (p_net_write x) (p_disk_read x) (p_disk_write x) (p_unk_read x)
    (p_unk_write x) (p_read x) (p_write x) (p_prev_tid x) (p_syscalls x) (p_total_syscalls
    x) (p_iorequests x).
Definition set_p_chrono_fds (v : gmap Z (list (Z * chrono_metadata))) (x : Process) : Process :=
  mkProcess (p_tid x) (p_pid x) (p_comm x) (p_fds x) (p_closed_fds x) v (p_current_syscall
    x) (p_net_read x) (p_net_write x) (p_disk_read x) (p_disk_write x) (p_unk_read x)
    (p_unk_write x) (p_read x) (p_write x) (p_prev_tid x) (p_syscalls x) (p_total_syscalls
    x) (p_iorequests x).
Definition set_p_current_syscall (v : gmap string Val) (x : Process) : Process :=
  mkProcess (p_tid x) (p_pid x) (p_comm x) (p_fds x) (p_closed_fds x) (p_chrono_fds x) v
    (p_net_read x) (p_net_write x) (p_disk_read x) (p_disk_write x) (p_unk_read x)
    (p_unk_write x) (p_read x) (p_write x) (p_prev_tid x) (p_syscalls x) (p_total_syscalls
    x) (p_iorequests x).
Definition set_p_net_read (v : Z) (x : Process) : Process :=
  mkProcess (p_tid x) (p_pid x) (p_comm x) (p_fds x) (p_closed_fds x) (p_chrono_fds x)
    (p_current_syscall x) v (p_net_write x) (p_disk_read x) (p_disk_write x) (p_unk_read x)
    (p_unk_write x) (p_read x) (p_write x) (p_prev_tid x) (p_syscalls x) (p_total_syscalls
    x) (p_iorequests x).
Definition set_p_net_write (v : Z) (x : Process) : Process :=
  mkProcess (p_tid x) (p_pid x) (p_comm x) (p_fds x) (p_closed_fds x) (p_chrono_fds x)
    (p_current_syscall x) (p_net_read x) v (p_disk_read x) (p_disk_write x) (p_unk_read x)
    (p_unk_write x) (p_read x) (p_write x) (p_prev_tid x) (p_syscalls x) (p_total_syscalls
    x) (p_iorequests x).
Definition set_p_disk_read (v : Z) (x : Process) : Process :=
  mkProcess (p_tid x) (p_pid x) (p_comm x) (p_fds x) (p_closed_fds x) (p_chrono_fds x)
    (p_current_syscall x) (p_net_read x) (p_net_write x) v (p_disk_write x) (p_unk_read x)
    (p_unk_write x) (p_read x) (p_write x) (p_prev_tid x) (p_syscalls x) (p_total_syscalls
    x) (p_iorequests x).
Definition set_p_disk_write (v : Z) (x : Process) : Process :=
  mkProcess (p_tid x) (p_pid x) (p_comm x) (p_fds x) (p_closed_fds x) (p_chrono_fds x)
    (p_current_syscall x) (p_net_read x) (p_net_write x) (p_disk_read x) v (p_unk_read x)
    (p_unk_write x) (p_read x) (p_write x) (p_prev_tid x) (p_syscalls x) (p_total_syscalls
    x) (p_iorequests x).
Definition set_p_unk_read (v : Z) (x : Process) : Process :=
  mkProcess (p_tid x) (p_pid x) (p_comm x) (p_fds x) (p_closed_fds x) (p_chrono_fds x)
    (p_current_syscall x) (p_net_read x) (p_net_write x) (p_disk_read x) (p_disk_write x) v
    (p_unk_write x) (p_read x) (p_write x) (p_prev_tid x) (p_syscalls x) (p_total_syscalls
    x) (p_iorequests x).
Definition set_p_unk_write (v : Z) (x : Process) : Process :=
  mkProcess (p_tid x) (p_pid x) (p_comm x) (p_fds x) (p_closed_fds x) (p_chrono_fds x)
    (p_current_syscall x) (p_net_read x) (p_net_write x) (p_disk_read x) (p_disk_write x)
    (p_unk_read x) v (p_read x) (p_write x) (p_prev_tid x) (p_syscalls x) (p_total_syscalls
    x) (p_iorequests x).
Definition set_p_read (v : Z) (x : Process) : Process :=
  mkProcess (p_tid x) (p_pid x) (p_comm x) (p_fds x) (p_closed_fds x) (p_chrono_fds x)
    (p_current_syscall x) (p_net_read x) (p_net_write x) (p_disk_read x) (p_disk_write x)
    (p_unk_read x) (p_unk_write x) v (p_write x) (p_prev_tid x) (p_syscalls x)
    (p_total_syscalls x) (p_iorequests x).
Definition set_p_write (v : Z) (x : Process) : Process :=
  mkProcess (p_tid x) (p_pid x) (p_comm x) (p_fds x) (p_closed_fds x) (p_chrono_fds x)
    (p_current_syscall x) (p_net_read x) (p_net_write x) (p_disk_read x) (p_disk_write x)
    (p_unk_read x) (p_unk_write x) (p_read x) v (p_prev_tid x) (p_syscalls x)
    (p_total_syscalls x) (p_iorequests x).
Definition set_p_prev_tid (v : Z) (x : Process) : Process :=
  mkProcess (p_tid x) (p_pid x) (p_comm x) (p_fds x) (p_closed_fds x) (p_chrono_fds x)
    (p_current_syscall x) (p_net_read x) (p_net_write x) (p_disk_read x) (p_disk_write x)
    (p_unk_read x) (p_unk_write x) (p_read x) (p_write x) v (p_syscalls x)
    (p_total_syscalls x) (p_iorequests x).
Definition set_p_syscalls (v : gmap string Syscall) (x : Process) : Process :=
  mkProcess (p_tid x) (p_pid x) (p_comm x) (p_fds x) (p_closed_fds x) (p_chrono_fds x)
    (p_current_syscall x) (p_net_read x) (p_net_write x) (p_disk_read x) (p_disk_write x)
    (p_unk_read x) (p_unk_write x) (p_read x) (p_write x) (p_prev_tid x) v
    (p_total_syscalls x) (p_iorequests x).
Definition set_p_total_syscalls (v : Z) (x : Process) : Process :=
  mkProcess (p_tid x) (p_pid x) (p_comm x) (p_fds x) (p_closed_fds x) (p_chrono_fds x)
    (p_current_syscall x) (p_net_read x) (p_net_write x) (p_disk_read x) (p_disk_write x)
    (p_unk_read x) (p_unk_write x) (p_read x) (p_write x) (p_prev_tid x) (p_syscalls x) v
    (p_iorequests x).
Definition set_p_iorequests (v : list loc) (x : Process) : Process :=
  mkProcess (p_tid x) (p_pid x) (p_comm x) (p_fds x) (p_closed_fds x) (p_chrono_fds x)
    (p_current_syscall x) (p_net_read x) (p_net_write x) (p_disk_read x) (p_disk_write x)
    (p_unk_read x) (p_unk_write x) (p_read x) (p_write x) (p_prev_tid x) (p_syscalls x)
    (p_total_syscalls x) v.

Definition Process_new : Process :=
  mkProcess None None "" ∅ ∅ ∅ ∅ 0 0 0 0 0 0 0 0 (-1) ∅ 0 [].

(** [class CPU]: the thread the scheduler provider last saw on the CPU *)
Record CPU : Type := mkCPU {
  current_tid : option Z
}.

(** [class Disk] *)
Record Disk : Type := mkDisk {
  d_name : string;
  d_prettyname : string
}.

Definition Disk_new : Disk := mkDisk "" "".

(** What a key of the [disks] dictionary can hold: a [Disk] object, or the
    dictionary itself, which is what [get_disk] stores. *)
Inductive disk_slot : Type :=
| SlotDisk (d : loc)
| SlotTable.

(** The state shared by the providers: the dictionaries of [state], and
    the stores of the objects they refer to.  [syscalls_total] is the key
    ['total'] of [state.syscalls]. *)
Record State : Type := mkState {
  cpus : gmap Z CPU;
  tids : gmap Z loc;
  disks : gmap Z disk_slot;
  syscalls : gmap string Syscall;
  syscalls_total : Z;
  pending_syscalls : list loc;
  procs : gmap loc Process;
  fdheap : gmap loc FD;
  rqheap : gmap loc IORequest;
  diskheap : gmap loc Disk;
  next : loc
}.

Definition set_cpus (v : gmap Z CPU) (x : State) : State :=
  mkState v (tids x) (disks x) (syscalls x) (syscalls_total x) (pending_syscalls x) (procs
    x) (fdheap x) (rqheap x) (diskheap x) (next x).
Definition set_tids (v : gmap Z loc) (x : State) : State :=
  mkState (cpus x) v (disks x) (syscalls x) (syscalls_total x) (pending_syscalls x) (procs
    x) (fdheap x) (rqheap x) (diskheap x) (next x).
Definition set_disks (v : gmap Z disk_slot) (x : State) : State :=
  mkState (cpus x) (tids x) v (syscalls x) (syscalls_total x) (pending_syscalls x) (procs
    x) (fdheap x) (rqheap x) (diskheap x) (next x).
Definition set_syscalls (v : gmap string Syscall) (x : State) : State :=
  mkState (cpus x) (tids x) (disks x) v (syscalls_total x) (pending_syscalls x) (procs x)
    (fdheap x) (rqheap x) (diskheap x) (next x).
Definition set_syscalls_total (v : Z) (x : State) : State :=
  mkState (cpus x) (tids x) (disks x) (syscalls x) v (pending_syscalls x) (procs x) (fdheap
    x) (rqheap x) (diskheap x) (next x).
Definition set_pending_syscalls (v : list loc) (x : State) : State :=
  mkState (cpus x) (tids x) (disks x) (syscalls x) (syscalls_total x) v (procs x) (fdheap
    x) (rqheap x) (diskheap x) (next x).
Definition set_procs (v : gmap loc Process) (x : State) : State :=
  mkState (cpus x) (tids x) (disks x) (syscalls x) (syscalls_total x) (pending_syscalls x)
    v (fdheap x) (rqheap x) (diskheap x) (next x).
Definition set_fdheap (v : gmap loc FD) (x : State) : State :=
  mkState (cpus x) (tids x) (disks x) (syscalls x) (syscalls_total x) (pending_syscalls x)
    (procs x) v (rqheap x) (diskheap x) (next x).
Definition set_rqheap (v : gmap loc IORequest) (x : State) : State :=
  mkState (cpus x) (tids x) (disks x) (syscalls x) (syscalls_total x) (pending_syscalls x)
    (procs x) (fdheap x) v (diskheap x) (next x).
Definition set_diskheap (v : gmap loc Disk) (x : State) : State :=
  mkState (cpus x) (tids x) (disks x) (syscalls x) (syscalls_total x) (pending_syscalls x)
    (procs x) (fdheap x) (rqheap x) v (next x).
Definition set_next (v : loc) (x : State) : State :=
  mkState (cpus x) (tids x) (disks x) (syscalls x) (syscalls_total x) (pending_syscalls x)
    (procs x) (fdheap x) (rqheap x) (diskheap x) v.

Definition State_new : State :=
  mkState ∅ ∅ ∅ ∅ 0 [] ∅ ∅ ∅ ∅ O.

(** *** Access to the stores *)

Definition fresh (s : State) : State := set_next (S (next s)) s.

Definition alloc_proc (p : Process) : M State loc :=
  let* s := get_M in
  modify_M (fun s => fresh (set_procs (<[next s := p]> (procs s)) s)) >>
  unit_M (next s).

Definition alloc_fd (f : FD) : M State loc :=
  let* s := get_M in
  modify_M (fun s => fresh (set_fdheap (<[next s := f]> (fdheap s)) s)) >>
  unit_M (next s).

Definition alloc_rq (r : IORequest) : M State loc :=
  let* s := get_M in
  modify_M (fun s => fresh (set_rqheap (<[next s := r]> (rqheap s)) s)) >>
  unit_M (next s).

Definition alloc_disk (d : Disk) : M State loc :=
  let* s := get_M in
  modify_M (fun s => fresh (set_diskheap (<[next s := d]> (diskheap s)) s)) >>
  unit_M (next s).

Definition proc (a : loc) : M State Process :=
  let* s := get_M in item_M (procs s !! a).
Definition upd_proc (a : loc) (f : Process -> Process) : M State unit :=
  modify_M (fun s => set_procs (alter f a (procs s)) s).

Definition the_fd (a : loc) : M State FD :=
  let* s := get_M in item_M (fdheap s !! a).
Definition upd_fd (a : loc) (f : FD -> FD) : M State unit :=
  modify_M (fun s => set_fdheap (alter f a (fdheap s)) s).

Definition the_rq (a : loc) : M State IORequest :=
  let* s := get_M in item_M (rqheap s !! a).
Definition upd_rq (a : loc) (f : IORequest -> IORequest) : M State unit :=
  modify_M (fun s => set_rqheap (alter f a (rqheap s)) s).

Definition upd_disk (a : loc) (f : Disk -> Disk) : M State unit :=
  modify_M (fun s => set_diskheap (alter f a (diskheap s)) s).

(** [self.tids[k]]; the key [None] is in no table. *)
Definition tids_item (k : option Z) : M State loc :=
  match k with
  | Some t => let* s := get_M in item_M (tids s !! t)
  | None => raise_M KeyError
  end.

(** [proc.fds[fd]] and [proc.closed_fds[name]] *)
Definition fds_item (a : loc) (fd : Z) : M State loc :=
  let* p := proc a in item_M (p_fds p !! fd).
Definition closed_fds_item (a : loc) (name : string) : M State loc :=
  let* p := proc a in item_M (p_closed_fds p !! name).

(** The [current_syscall] dictionary of the process at [a]. *)
Definition cs (a : loc) : M State (gmap string Val) :=
  let* p := proc a in unit_M (p_current_syscall p).
Definition cs_item (a : loc) (k : string) : M State Val :=
  let* d := cs a in item_M (d !! k).
Definition cs_has (a : loc) (k : string) : M State bool :=
  let* d := cs a in unit_M (bool_decide (is_Some (d !! k))).
Definition cs_set (a : loc) (k : string) (v : Val) : M State unit :=
  upd_proc a (fun p => set_p_current_syscall (<[k := v]> (p_current_syscall p)) p).
Definition cs_clear (a : loc) : M State unit :=
  upd_proc a (set_p_current_syscall ∅).

(** Truth value of a dictionary: empty is false. *)
Definition nonempty (d : gmap string Val) : bool := negb (bool_decide (d = ∅)).

Definition as_fd {S} (v : Val) : M S loc :=
  match v with
  | VFd a => unit_M a
  | _ => raise_M AttributeError
  end.

Definition as_rq {S} (v : Val) : M S loc :=
  match v with
  | VRq a => unit_M a
  | _ => raise_M AttributeError
  end.

Definition as_type {S} (v : Val) : M S FDType :=
  match v with
  | VType t => unit_M t
  | _ => raise_M TypeError
  end.

(** [v in l] for a list of integers *)
Definition val_in (v : Val) (l : list Z) : bool :=
  match v with
  | VInt z => existsb (Z.eqb z) l
  | _ => false
  end.

(** *** src/linuxautomaton/linuxautomaton/common.py *)

(** ['%d' % z] *)
Definition fmt_d (z : Z) : string := pretty z.

Definition kdev_major_minor (dev : Z) : string :=
  let MINORBITS := 20 in
  let MINORMASK := Z.shiftl 1 MINORBITS - 1 in
  let major := Z.shiftr dev MINORBITS in
  let minor := Z.land dev MINORMASK in
  "(" ++ fmt_d major ++ "," ++ fmt_d minor ++ ")".

(** An assignment [dev.attr = v] where [dev] is an integer: integers take
    no attributes, the statement raises [AttributeError]. *)
Definition setattr_int (dev : Z) (attr : string) (v : Val) : M State unit :=
  raise_M AttributeError.

Definition get_disk (dev : Z) : M State disk_slot :=
  let* s := get_M in
  match disks s !! dev with
  | None =>
      let* disk := alloc_disk Disk_new in
      upd_disk disk (fun d => mkDisk (fmt_d dev) (d_prettyname d)) >>
      setattr_int dev "prettyname" (VStr (kdev_major_minor dev)) >>
      modify_M (fun s => set_disks (<[dev := SlotTable]> (disks s)) s) >>
      unit_M (SlotDisk disk)
  | Some d => unit_M d
  end.

(** ['{}.{}.{}.{}'.format(ip[0], ip[1], ip[2], ip[3])] *)
Definition seq_to_ipv4 (ip : list string) : string :=
  match ip with
  | a :: b :: c :: d :: _ => a ++ "." ++ b ++ "." ++ c ++ "." ++ d
  | _ => ""
  end.

(** [socket.inet_ntoa(struct.pack('!I', ip))] *)
Definition int_to_ipv4 {S} (ip : Z) : M S string :=
  if (0 <=? ip) && (ip <? 4294967296) then
    unit_M (fmt_d (Z.land (Z.shiftr ip 24) 255) ++ "." ++
            fmt_d (Z.land (Z.shiftr ip 16) 255) ++ "." ++
            fmt_d (Z.land (Z.shiftr ip 8) 255) ++ "." ++
            fmt_d (Z.land ip 255))
  else raise_M StructError.

(** [get_v4_addr_str]: indexing a sequence or a string works, indexing
    an integer raises the [TypeError] that the function catches. *)
Definition get_v4_addr_str {S} (ip : Val) : M S string :=
  match ip with
  | VSeq l =>
      if (4 <=? length l)%nat then unit_M (seq_to_ipv4 (map fmt_d l))
      else raise_M IndexError
  | VStr s =>
      if (4 <=? String.length s)%nat
      then unit_M (seq_to_ipv4 (map (fun c => String c EmptyString) (list_ascii_of_string s)))
      else raise_M IndexError
  | VInt z => int_to_ipv4 z
  | _ => raise_M TypeError
  end.

(** *** The chronological descriptor history *)

(** [d[k] = v] on an ordered dictionary: a known key keeps its place. *)
Fixpoint od_set {A} (k : Z) (v : A) (d : list (Z * A)) : list (Z * A) :=
  match d with
  | [] => [(k, v)]
  | (k', v') :: d' => if k' =? k then (k, v) :: d' else (k', v') :: od_set k v d'
  end.

(** Modelled from the spec: [Process.track_chrono_fd] belongs to the
    module [sv], which is missing from the sources.  Section 4.5: "enrich
    chronological FD history with a timestamped entry"; the entry holds the
    file name and the descriptor type, the two keys statedump.py reads. *)
Definition track_chrono_fd (fd : Z) (filename : string) (fdtype : FDType)
    (timestamp : Z) (p : Process) : Process :=
  let chrono_fd := default [] (p_chrono_fds p !! fd) in
  set_p_chrono_fds
    (<[fd := od_set timestamp (mkChrono filename fdtype) chrono_fd]> (p_chrono_fds p)) p.

(** *** src/linuxautomaton/linuxautomaton/syscalls.py *)

Section Syscalls.

Variable K : SyscallConsts.

(** [for x in l: body x] *)
Fixpoint for_M {A} (l : list A) (body : A -> M State unit) : M State unit :=
  match l with
  | [] => unit_M tt
  | x :: l' => body x >> for_M l' body
  end.

(** The prologue shared by the handlers: nothing is done for a CPU that is
    not in [self.cpus] or whose [current_tid] is [None]. *)
Definition with_cpu (cpu_id : Z) (k : CPU -> M State unit) : M State unit :=
  let* s := get_M in
  match cpus s !! cpu_id with
  | None => unit_M tt
  | Some c =>
      match current_tid c with
      | None => unit_M tt
      | Some _ => k c
      end
  end.

(** "if it's a thread, we want the parent":
    [if t.pid is not None and t.tid != t.pid: t = self.tids[t.pid]] *)
Definition parent_of (t : loc) : M State loc :=
  let* p := proc t in
  match p_pid p with
  | Some pid => if bool_decide (p_tid p ≠ Some pid) then tids_item (Some pid) else unit_M t
  | None => unit_M t
  end.

Definition get_fd_type (name : string) (family : Val) : FDType :=
  if mem name (NET_OPEN_SYSCALLS K) && val_in family (INET_FAMILIES K) then net
  else if mem name (NET_OPEN_SYSCALLS K) && val_in family (DISK_FAMILIES K) then disk
  else if mem name (DISK_OPEN_SYSCALLS K) then disk
  else unknown.

(** The key ['total'] of [self.syscalls] holds a number, not a [Syscall]. *)
Definition global_syscall_entry (name : string) : M State unit :=
  if String.eqb name "total" then raise_M AttributeError
  else
    modify_M (fun s =>
      let sc := default (set_sc_count 0 (set_sc_name name Syscall_new)) (syscalls s !! name) in
      set_syscalls (<[name := set_sc_count (sc_count sc + 1) sc]> (syscalls s)) s) >>
    modify_M (fun s => set_syscalls_total (syscalls_total s + 1) s).

Definition override_name (name : string) (event : Event) : M State string :=
  if mem name ["syscall_entry_epoll_ctl"] then
    let* op := ev_item event "op" in
    if bool_decide (op = VInt 1) then unit_M (name ++ "-ADD")
    else if bool_decide (op = VInt 2) then unit_M (name ++ "-DEL")
    else if bool_decide (op = VInt 3) then unit_M (name ++ "-MODE")
    else unit_M name
  else unit_M name.

Definition per_tid_syscall_entry (name : string) (cpu_id : Z) (event : Event)
    : M State unit :=
  with_cpu cpu_id (fun c =>
    let* t := tids_item (current_tid c) in
    upd_proc t (fun p => set_p_total_syscalls (p_total_syscalls p + 1) p) >>
    let* name := override_name name event in
    upd_proc t (fun p =>
      let sc := default (set_sc_name name Syscall_new) (p_syscalls p !! name) in
      set_p_syscalls (<[name := set_sc_count (sc_count sc + 1) sc]> (p_syscalls p)) p) >>
    cs_set t "name" (VStr name) >>
    cs_set t "start" (VInt (ev_timestamp event)) >>
    global_syscall_entry name).

Definition close_fd (proc_ : loc) (fd : Z) : M State unit :=
  let* a := fds_item proc_ fd in
  let* f0 := the_fd a in
  let filename := fd_filename f0 in
  let* p := proc proc_ in
  (if negb (mem filename (GENERIC_NAMES K))
      && bool_decide (is_Some (p_closed_fds p !! filename)) then
     let* f := closed_fds_item proc_ filename in
     upd_fd f (fun x => set_fd_close (fd_close x + 1) x) >>
     (let* src := the_fd a in
      upd_fd f (fun x => set_fd_net_read (fd_net_read x + fd_net_read src) x)) >>
     (let* src := the_fd a in
      upd_fd f (fun x => set_fd_disk_read (fd_disk_read x + fd_disk_read src) x)) >>
     (let* src := the_fd a in
      upd_fd f (fun x => set_fd_net_write (fd_net_write x + fd_net_write src) x)) >>
     (let* src := the_fd a in
      upd_fd f (fun x => set_fd_disk_write (fd_disk_write x + fd_disk_write src) x))
   else
     upd_proc proc_ (fun p => set_p_closed_fds (<[filename := a]> (p_closed_fds p)) p) >>
     upd_fd a (set_fd_close 1)) >>
  upd_proc proc_ (fun p => set_p_fds (delete fd (p_fds p)) p).

(** The statements of [track_open] after the chain of cases. *)
Definition track_open_tail (name : string) (cur : loc) (event : Event) : M State unit :=
  let* family :=
    (if mem name (NET_OPEN_SYSCALLS K) && ev_has event "family" then
       let* family := ev_item event "family" in
       cs_set cur "family" family >> unit_M family
     else
       cs_set cur "family" (VInt AF_UNSPEC) >> unit_M (VInt AF_UNSPEC)) in
  cs_set cur "name" (VStr name) >>
  cs_set cur "start" (VInt (ev_timestamp event)) >>
  cs_set cur "fdtype" (VType (get_fd_type name family)).

(** The two duplicating cases of [track_open] copy the file name and the
    type of the descriptor [oldfd]. *)
Definition copy_oldfd (cur proc_ : loc) (oldfd : Z) : M State unit :=
  let* p := proc proc_ in
  match p_fds p !! oldfd with
  | Some a =>
      let* f := the_fd a in
      cs_set cur "filename" (VStr (fd_filename f)) >>
      cs_set cur "fdtype" (VType (fd_fdtype f))
  | None => cs_set cur "filename" (VStr "")
  end.

Definition track_open (name : string) (proc_ : loc) (event : Event) (cpu : CPU)
    : M State unit :=
  let* cur := tids_item (current_tid cpu) in
  cs_clear cur >>
  if mem name (DISK_OPEN_SYSCALLS K) then
    (let* filename := ev_item event "filename" in cs_set cur "filename" filename) >>
    (let* flags := ev_int event "flags" in
     if Z.land flags O_CLOEXEC =? O_CLOEXEC then cs_set cur "cloexec" (VInt 1)
     else unit_M tt) >>
    track_open_tail name cur event
  else if mem name ["sys_accept"; "syscall_entry_accept";
                    "sys_accept4"; "syscall_entry_accept4"] then
    (if bool_decide (ev_get event "family" = Some (VInt AF_INET)) then
       let* v4addr := ev_item event "v4addr" in
       let* addr := get_v4_addr_str v4addr in
       let* sport := ev_int event "sport" in
       cs_set cur "filename" (VStr (addr ++ ":" ++ fmt_d sport))
     else cs_set cur "filename" (VStr "socket")) >>
    track_open_tail name cur event
  else if mem name (NET_OPEN_SYSCALLS K) then
    cs_set cur "filename" (VStr "socket") >>
    track_open_tail name cur event
  else if mem name ["sys_dup2"; "syscall_entry_dup2"] then
    let* newfd := ev_int event "newfd" in
    let* oldfd := ev_int event "oldfd" in
    (let* p := proc proc_ in
     if bool_decide (is_Some (p_fds p !! newfd)) then close_fd proc_ newfd
     else unit_M tt) >>
    copy_oldfd cur proc_ oldfd >>
    track_open_tail name cur event
  else if mem name ["sys_fcntl"; "syscall_entry_fcntl"] then
    let* cmd := ev_item event "cmd" in
    if bool_decide (cmd ≠ VInt 0) then unit_M tt
    else
      let* oldfd := ev_int event "fd" in
      copy_oldfd cur proc_ oldfd >>
      track_open_tail name cur event
  else track_open_tail name cur event.

Definition track_close (name : string) (proc_ : loc) (event : Event) (cpu : CPU)
    : M State unit :=
  let* fd := ev_int event "fd" in
  let* p := proc proc_ in
  match p_fds p !! fd with
  | None => unit_M tt
  | Some a =>
      let* tid := tids_item (current_tid cpu) in
      cs_clear tid >>
      (let* f := the_fd a in cs_set tid "filename" (VStr (fd_filename f))) >>
      cs_set tid "name" (VStr name) >>
      cs_set tid "start" (VInt (ev_timestamp event)) >>
      close_fd proc_ fd
  end.

(** The two loops over the field lists look for a field [pid] that is in
    the stream context and not in the payload. *)
Definition _fix_context_pid (event : Event) (t : loc) : M State unit :=
  if bool_decide (is_Some (ev_context event !! "pid"))
     && negb (bool_decide (is_Some (ev_payload event !! "pid"))) then
    let* p := proc t in
    match p_pid p with
    | Some _ => unit_M tt
    | None =>
        let* pid := ev_int event "pid" in
        if bool_decide (Some pid ≠ p_tid p) then
          upd_proc t (set_p_pid (Some pid)) >>
          let* p := alloc_proc Process_new in
          (let* th := proc t in upd_proc p (set_p_tid (p_pid th))) >>
          (let* th := proc t in upd_proc p (set_p_pid (p_pid th))) >>
          (let* th := proc t in upd_proc p (set_p_comm (p_comm th))) >>
          modify_M (fun s => set_tids (<[pid := p]> (tids s)) s)
        else unit_M tt
    end
  else unit_M tt.

Definition get_fd (proc_ : loc) (fd : Z) (event : Event) : M State loc :=
  let* p := proc proc_ in
  let* f :=
    match p_fds p !! fd with
    | None =>
        let* f := alloc_fd FD_new in
        upd_fd f (set_fd_fd fd) >>
        upd_fd f (set_fd_filename "unknown (origin not found)") >>
        upd_proc proc_ (fun p => set_p_fds (<[fd := f]> (p_fds p)) p) >>
        unit_M f
    | Some f => unit_M f
    end in
  let* x := the_fd f in
  upd_proc proc_ (track_chrono_fd fd (fd_filename x) (fd_fdtype x) (ev_timestamp event)) >>
  unit_M f.

Definition track_fds (name : string) (event : Event) (cpu_id : Z) : M State unit :=
  with_cpu cpu_id (fun c =>
    let* t := tids_item (current_tid c) in
    _fix_context_pid event t >>
    let* t := parent_of t in
    if mem name (OPEN_SYSCALLS K) then track_open name t event c
    else if mem name (CLOSE_SYSCALLS K) then track_close name t event c
    else if mem name ["sys_connect"; "syscall_entry_connect"] && ev_has event "family" then
      let* family := ev_item event "family" in
      if bool_decide (family = VInt AF_INET) then
        let* n := ev_int event "fd" in
        let* fd := get_fd t n event in
        let* v4addr := ev_item event "v4addr" in
        let* addr := get_v4_addr_str v4addr in
        let* dport := ev_int event "dport" in
        upd_fd fd (set_fd_filename (addr ++ ":" ++ fmt_d dport))
      else unit_M tt
    else unit_M tt).

Definition track_sync (name : string) (event : Event) (cpu_id : Z) : M State unit :=
  with_cpu cpu_id (fun c =>
    let* t := tids_item (current_tid c) in
    modify_M (fun s => set_pending_syscalls (pending_syscalls s ++ [t]) s) >>
    let* t := parent_of t in
    let* cur := tids_item (current_tid c) in
    cs_set cur "name" (VStr name) >>
    cs_set cur "start" (VInt (ev_timestamp event)) >>
    if negb (mem name ["sys_sync"; "syscall_entry_sync"]) then
      let* fd := ev_int event "fd" in
      let* f := get_fd t fd event in
      cs_set cur "fd" (VFd f) >>
      let* x := the_fd f in
      cs_set cur "filename" (VStr (fd_filename x))
    else unit_M tt).

(** The two-descriptor syscalls of [track_read_write]: [splice] and
    [sendfile64], which differ in the names of their fields. *)
Definition track_two_fds (t cur : loc) (event : Event) (f_in f_out f_count : string)
    : M State unit :=
  (let* n := ev_int event f_in in
   let* f := get_fd t n event in cs_set cur "fd_in" (VFd f)) >>
  (let* n := ev_int event f_out in
   let* f := get_fd t n event in cs_set cur "fd_out" (VFd f)) >>
  (let* v := ev_item event f_count in cs_set cur "count" v) >>
  let* v := cs_item cur "fd_in" in
  let* f := as_fd v in
  let* x := the_fd f in
  cs_set cur "filename" (VStr (fd_filename x)).

Definition track_read_write (name : string) (event : Event) (cpu_id : Z)
    : M State unit :=
  with_cpu cpu_id (fun c =>
    let* t := tids_item (current_tid c) in
    modify_M (fun s => set_pending_syscalls (pending_syscalls s ++ [t]) s) >>
    let* t := parent_of t in
    let* cur := tids_item (current_tid c) in
    cs_set cur "name" (VStr name) >>
    cs_set cur "start" (VInt (ev_timestamp event)) >>
    if mem name ["sys_splice"; "syscall_entry_splice"] then
      track_two_fds t cur event "fd_in" "fd_out" "len"
    else if mem name ["sys_sendfile64"; "syscall_entry_sendfile64"] then
      track_two_fds t cur event "in_fd" "out_fd" "count"
    else
      let* fd := ev_int event "fd" in
      let* f := get_fd t fd event in
      cs_set cur "fd" (VFd f) >>
      (if mem name ["sys_writev"; "syscall_entry_writev";
                    "sys_readv"; "syscall_entry_readv"] then
         let* v := ev_item event "vlen" in cs_set cur "count" v
       else if mem name ["sys_recvfrom"; "syscall_entry_recvfrom"] then
         let* v := ev_item event "size" in cs_set cur "count" v
       else if mem name ["sys_recvmsg"; "syscall_entry_recvmsg";
                         "sys_sendmsg"; "syscall_entry_sendmsg"] then
         cs_set cur "count" (VStr "")
       else if mem name ["sys_sendto"; "syscall_entry_sendto"] then
         let* v := ev_item event "len" in cs_set cur "count" v
       else
         (* try: ... except: the missing argument counts as 0 *)
         cs_set cur "count" (default (VInt 0) (ev_get event "count"))) >>
      let* x := the_fd f in
      cs_set cur "filename" (VStr (fd_filename x))).

Definition add_tid_fd (event : Event) (cpu : CPU) : M State unit :=
  let* ret := ev_int event "ret" in
  let* t := tids_item (current_tid cpu) in
  let* t := parent_of t in
  let* cur := tids_item (current_tid cpu) in
  let* namev := cs_item cur "filename" in
  let* name := as_str namev in
  let* p := proc t in
  let* fd :=
    (if negb (mem name (GENERIC_NAMES K))
        && bool_decide (is_Some (p_closed_fds p !! name)) then
       let* fd := closed_fds_item t name in
       upd_fd fd (fun x => set_fd_open (fd_open x + 1) x) >>
       unit_M fd
     else
       let* fd := alloc_fd FD_new in
       upd_fd fd (set_fd_filename name) >>
       (let* scv := cs_item cur "name" in
        let* sc := as_str scv in
        if mem sc (NET_OPEN_SYSCALLS K) then
          let* family := cs_item cur "family" in
          upd_fd fd (set_fd_family family) >>
          if val_in family (INET_FAMILIES K) then upd_fd fd (set_fd_fdtype net)
          else unit_M tt
        else unit_M tt) >>
       upd_fd fd (set_fd_open 1) >>
       unit_M fd) in
  if 0 <=? ret then
    upd_fd fd (set_fd_fd ret) >>
    (let* has := cs_has cur "cloexec" in
     if has then upd_fd fd (set_fd_cloexec 1) else unit_M tt) >>
    let* x := the_fd fd in
    upd_proc t (fun p => set_p_fds (<[fd_fd x := fd]> (p_fds p)) p) >>
    let* x := the_fd fd in
    upd_proc t (track_chrono_fd (fd_fd x) (fd_filename x) (fd_fdtype x) (ev_timestamp event))
  else unit_M tt.

Definition is_net (t : FDType) : bool :=
  match t with
  | net | maybe_net => true
  | _ => false
  end.

Definition read_append (fd proc_ : loc) (count : Z) (rq : loc) : M State unit :=
  upd_rq rq (set_rq_operation (Some OP_READ)) >>
  upd_rq rq (set_rq_size (Some count)) >>
  let* x := the_fd fd in
  (if is_net (fd_fdtype x) then
     upd_fd fd (fun x => set_fd_net_read (fd_net_read x + count) x) >>
     upd_proc proc_ (fun p => set_p_net_read (p_net_read p + count) p)
   else if bool_decide (fd_fdtype x = disk) then
     upd_fd fd (fun x => set_fd_disk_read (fd_disk_read x + count) x) >>
     upd_proc proc_ (fun p => set_p_disk_read (p_disk_read p + count) p)
   else
     upd_fd fd (fun x => set_fd_unk_read (fd_unk_read x + count) x) >>
     upd_proc proc_ (fun p => set_p_unk_read (p_unk_read p + count) p)) >>
  upd_fd fd (fun x => set_fd_read (fd_read x + count) x) >>
  upd_proc proc_ (fun p => set_p_read (p_read p + count) p).

Definition write_append (fd proc_ : loc) (count : Z) (rq : loc) : M State unit :=
  upd_rq rq (set_rq_operation (Some OP_WRITE)) >>
  upd_rq rq (set_rq_size (Some count)) >>
  let* x := the_fd fd in
  (if is_net (fd_fdtype x) then
     upd_fd fd (fun x => set_fd_net_write (fd_net_write x + count) x) >>
     upd_proc proc_ (fun p => set_p_net_write (p_net_write p + count) p)
   else if bool_decide (fd_fdtype x = disk) then
     upd_fd fd (fun x => set_fd_disk_write (fd_disk_write x + count) x) >>
     upd_proc proc_ (fun p => set_p_disk_write (p_disk_write p + count) p)
   else
     upd_fd fd (fun x => set_fd_unk_write (fd_unk_write x + count) x) >>
     upd_proc proc_ (fun p => set_p_unk_write (p_unk_write p + count) p)) >>
  upd_fd fd (fun x => set_fd_write (fd_write x + count) x) >>
  upd_proc proc_ (fun p => set_p_write (p_write p + count) p).

(** [current_syscall[k]] as a descriptor, [current_syscall['iorequest']]
    as a request *)
Definition cs_fd (cur : loc) (k : string) : M State loc :=
  let* v := cs_item cur k in as_fd v.
Definition cs_rq (cur : loc) : M State loc :=
  let* v := cs_item cur "iorequest" in as_rq v.

Definition track_read_write_return (name : string) (ret : Z) (cpu : CPU)
    : M State unit :=
  if ret <? 0 then unit_M tt
  else
    let* t := tids_item (current_tid cpu) in
    let* proc_ := parent_of t in
    let* cur := tids_item (current_tid cpu) in
    if mem name ["sys_splice"; "syscall_entry_splice";
                 "sys_sendfile64"; "syscall_entry_sendfile64"] then
      (let* fd := cs_fd cur "fd_in" in
       let* rq := cs_rq cur in read_append fd proc_ ret rq) >>
      (let* fd := cs_fd cur "fd_out" in
       let* rq := cs_rq cur in write_append fd proc_ ret rq)
    else if mem name (READ_SYSCALLS K) then
      if 0 <? ret then
        let* fd := cs_fd cur "fd" in
        let* rq := cs_rq cur in read_append fd proc_ ret rq
      else unit_M tt
    else if mem name (WRITE_SYSCALLS K) then
      if 0 <? ret then
        let* fd := cs_fd cur "fd" in
        let* rq := cs_rq cur in write_append fd proc_ ret rq
      else unit_M tt
    else unit_M tt.

(** [len(v)] *)
Definition len_M (v : Val) : M State Z :=
  match v with
  | VSeq l => unit_M (Z.of_nat (length l))
  | VStr s => unit_M (Z.of_nat (String.length s))
  | _ => raise_M TypeError
  end.

(** [if k in current_syscall.keys(): body current_syscall[k]] *)
Definition when_key (cur : loc) (k : string) (body : Val -> M State unit) : M State unit :=
  let* d := cs cur in
  match d !! k with
  | Some v => body v
  | None => unit_M tt
  end.

Definition track_rw_latency (name : string) (ret : Z) (c : CPU) (ts : Z) (event : Event)
    : M State unit :=
  let* cur := tids_item (current_tid c) in
  let* rq := cs_rq cur in
  (let* v := cs_item cur "start" in
   let* start := as_int v in
   upd_rq rq (set_rq_duration (Some (ev_timestamp event - start)))) >>
  (let* v := cs_item cur "start" in
   let* start := as_int v in
   upd_rq rq (set_rq_begin (Some start))) >>
  upd_rq rq (set_rq_end (Some (ev_timestamp event))) >>
  (let* t := tids_item (current_tid c) in upd_rq rq (set_rq_proc (Some t))) >>
  (let* d := cs cur in
   match d !! "fd" with
   | Some v =>
       let* f := as_fd v in
       upd_rq rq (set_rq_fd (Some f)) >>
       let* r := cs_rq cur in
       upd_fd f (fun x => set_fd_iorequests (fd_iorequests x ++ [r]) x)
   | None =>
       match d !! "fd_in" with
       | Some v => let* f := as_fd v in upd_rq rq (set_rq_fd (Some f))
       | None => unit_M tt
       end
   end) >>
  when_key cur "pages_written" (fun v => upd_rq rq (set_rq_page_written v)) >>
  when_key cur "dirty" (fun v => upd_rq rq (set_rq_dirty v)) >>
  when_key cur "pages_allocated" (fun v => upd_rq rq (set_rq_page_alloc v)) >>
  when_key cur "page_free" (fun v => upd_rq rq (set_rq_page_free v)) >>
  when_key cur "wakeup_kswapd" (fun _ => upd_rq rq (set_rq_woke_kswapd true)) >>
  if mem name (SYNC_SYSCALLS K) then
    when_key cur "pages_cleared" (fun v =>
      let* n := len_M v in upd_rq rq (set_rq_page_cleared n))
  else unit_M tt.

Definition _per_tid_syscall_exit (name : string) (ret : Z) (event : Event) (c : CPU)
    : M State unit :=
  let* t := tids_item (current_tid c) in
  let* p := proc t in
  match p_syscalls p !! name with
  | None => unit_M tt
  | Some _ =>
      let* v := cs_item t "start" in
      let* entry_ts := as_int v in
      let exit_ts := ev_timestamp event in
      let s := mkSyscallEvent ret entry_ts exit_ts (exit_ts - entry_ts) in
      upd_proc t (fun p =>
        match p_syscalls p !! name with
        | None => p
        | Some t_syscall =>
            let t_syscall :=
              match sc_min t_syscall with
              | None => set_sc_min (Some (se_duration s)) t_syscall
              | Some m => if se_duration s <? m
                          then set_sc_min (Some (se_duration s)) t_syscall
                          else t_syscall
              end in
            let t_syscall :=
              if sc_max t_syscall <? se_duration s
              then set_sc_max (se_duration s) t_syscall else t_syscall in
            let t_syscall :=
              set_sc_total_duration (sc_total_duration t_syscall + se_duration s) t_syscall in
            let t_syscall := set_sc_rq (sc_rq t_syscall ++ [s]) t_syscall in
            set_p_syscalls (<[name := t_syscall]> (p_syscalls p)) p
        end)
  end.

Definition _process_syscall_entry (event : Event) : M State unit :=
  let name := ev_name event in
  let* cpu_id := ev_int event "cpu_id" in
  per_tid_syscall_entry name cpu_id event >>
  track_fds name event cpu_id >>
  (if mem name (READ_SYSCALLS K) || mem name (WRITE_SYSCALLS K)
   then track_read_write name event cpu_id else unit_M tt) >>
  (if mem name (SYNC_SYSCALLS K)
   then track_sync name event cpu_id else unit_M tt).

(** [l.remove(x)]: the first occurrence *)
Fixpoint remove_first (x : loc) (l : list loc) : list loc :=
  match l with
  | [] => []
  | y :: l' => if Nat.eqb x y then l' else y :: remove_first x l'
  end.

(** The last statements of [_process_syscall_exit]: back to idle. *)
Definition exit_finish (c : CPU) : M State unit :=
  (let* t := tids_item (current_tid c) in cs_clear t) >>
  let* t := tids_item (current_tid c) in
  modify_M (fun s =>
    if existsb (Nat.eqb t) (pending_syscalls s)
    then set_pending_syscalls (remove_first t (pending_syscalls s)) s
    else s).

Definition _process_syscall_exit (event : Event) : M State unit :=
  let* cpu_id := ev_int event "cpu_id" in
  with_cpu cpu_id (fun c =>
    let* cur := tids_item (current_tid c) in
    let* current_syscall := cs cur in
    if negb (nonempty current_syscall) then unit_M tt
    else
      let* namev := cs_item cur "name" in
      let* name := as_str namev in
      let* ret := ev_int event "ret" in
      _per_tid_syscall_exit name ret event c >>
      if negb (mem name (IO_SYSCALLS K)) then unit_M tt
      else
        (let* rq := alloc_rq IORequest_new in cs_set cur "iorequest" (VRq rq)) >>
        (let* rq := cs_rq cur in upd_rq rq (set_rq_iotype (Some IO_SYSCALL))) >>
        (let* rq := cs_rq cur in upd_rq rq (set_rq_name (Some name))) >>
        if mem name (OPEN_SYSCALLS K) then
          add_tid_fd event c >>
          if ret <? 0 then unit_M tt
          else
            let* t := tids_item (current_tid c) in
            (let* f := get_fd t ret event in cs_set cur "fd" (VFd f)) >>
            cs_set cur "count" (VInt 0) >>
            (let* v := cs_item cur "fdtype" in
             let* ty := as_type v in
             let* f := cs_fd cur "fd" in
             upd_fd f (set_fd_fdtype ty)) >>
            (let* rq := cs_rq cur in upd_rq rq (set_rq_operation (Some OP_OPEN))) >>
            track_rw_latency name ret c (ev_timestamp event) event >>
            exit_finish c
        else if mem name (READ_SYSCALLS K) || mem name (WRITE_SYSCALLS K) then
          track_read_write_return name ret c >>
          track_rw_latency name ret c (ev_timestamp event) event >>
          exit_finish c
        else if mem name (SYNC_SYSCALLS K) then
          (let* rq := cs_rq cur in upd_rq rq (set_rq_operation (Some OP_SYNC))) >>
          track_rw_latency name ret c (ev_timestamp event) event >>
          (if mem name ["sys_sync"; "syscall_entry_sync"] then
             let* t := tids_item (current_tid c) in
             let* rq := cs_rq cur in
             upd_proc t (fun p => set_p_iorequests (p_iorequests p ++ [rq]) p)
           else unit_M tt) >>
          exit_finish c
        else exit_finish c).

Definition _process_writeback_pages_written (event : Event) : M State unit :=
  let* s := get_M in
  for_M (map snd (map_to_list (cpus s))) (fun c =>
    match current_tid c with
    | None => unit_M tt
    | Some _ =>
        let* cur := tids_item (current_tid c) in
        let* current_syscall := cs cur in
        if negb (nonempty current_syscall) then unit_M tt
        else
          let* pages := ev_item event "pages" in
          cs_set cur "pages_written" pages
    end).

Definition _process_mm_vmscan_wakeup_kswapd (event : Event) : M State unit :=
  let* cpu_id := ev_int event "cpu_id" in
  with_cpu cpu_id (fun c =>
    let* cur := tids_item (current_tid c) in
    let* current_syscall := cs cur in
    if nonempty current_syscall then unit_M tt
    else cs_set cur "wakeup_kswapd" (VInt 1)).

Definition _process_mm_page_free (event : Event) : M State unit :=
  let* s := get_M in
  for_M (map snd (map_to_list (cpus s))) (fun c =>
    match current_tid c with
    | None => unit_M tt
    | Some _ =>
        let* p := tids_item (current_tid c) in
        let* x := proc p in
        let* p :=
          (if String.eqb (p_comm x) "kswapd0" && (0 <? p_prev_tid x)
           then tids_item (Some (p_prev_tid x)) else unit_M p) in
        let* current_syscall := cs p in
        if nonempty current_syscall then unit_M tt
        else
          match current_syscall !! "wakeup_kswapd" with
          | None => unit_M tt
          | Some _ =>
              match current_syscall !! "page_free" with
              | Some v =>
                  let* n := as_int v in cs_set p "page_free" (VInt (n + 1))
              | None => cs_set p "page_free" (VInt 1)
              end
          end
    end).

End Syscalls.

(** *** src/linuxautomaton/linuxautomaton/statedump.py *)

(** [del d[k]] raises [KeyError] for a missing key. *)
Definition del_fds (p : loc) (fd : Z) : M State unit :=
  let* x := proc p in
  match p_fds x !! fd with
  | Some _ => upd_proc p (fun x => set_p_fds (delete fd (p_fds x)) x)
  | None => raise_M KeyError
  end.

Definition del_chrono_fds (p : loc) (fd : Z) : M State unit :=
  let* x := proc p in
  match p_chrono_fds x !! fd with
  | Some _ => upd_proc p (fun x => set_p_chrono_fds (delete fd (p_chrono_fds x)) x)
  | None => raise_M KeyError
  end.

Definition del_closed_fds (p : loc) (fd : string) : M State unit :=
  let* x := proc p in
  match p_closed_fds x !! fd with
  | Some _ => upd_proc p (fun x => set_p_closed_fds (delete fd (p_closed_fds x)) x)
  | None => raise_M KeyError
  end.

(** [next(reversed(chrono_fd))]: the last key of an ordered dictionary *)
Definition last_ts (chrono_fd : list (Z * chrono_metadata)) : M State Z :=
  match last chrono_fd with
  | Some (ts, _) => unit_M ts
  | None => raise_M StopIteration
  end.

(** [chrono_fd[ts]['filename'] = filename] *)
Definition set_chrono_filename (ts : Z) (filename : string)
    (chrono_fd : list (Z * chrono_metadata)) : list (Z * chrono_metadata) :=
  map (fun e => if fst e =? ts then (fst e, mkChrono filename (cm_fdtype (snd e))) else e)
      chrono_fd.

(** [f.name], an attribute that may be absent *)
Definition getattr_name (f : loc) : M State string :=
  let* x := the_fd f in
  match fd_name x with
  | Some n => unit_M n
  | None => raise_M AttributeError
  end.

(** The body of the first loop of [merge_fd_dict], for one key [fd]. *)
Definition merge_fd (p parent : loc) (fd : Z) : M State unit :=
  let* par := proc parent in
  match p_fds par !! fd with
  | None =>
      (let* a := fds_item p fd in
       upd_proc parent (fun x => set_p_fds (<[fd := a]> (p_fds x)) x)) >>
      (let* x := proc p in
       let* chrono_fd := item_M (p_chrono_fds x !! fd) in
       upd_proc parent (fun x => set_p_chrono_fds (<[fd := chrono_fd]> (p_chrono_fds x)) x))
  | Some _ =>
      (let* pa := fds_item parent fd in
       let* pf := the_fd pa in
       if String.eqb (fd_filename pf) "" then
         (* best effort to fix the filename *)
         (let* a := fds_item p fd in
          let* src := the_fd a in
          upd_fd pa (set_fd_filename (fd_filename src))) >>
         let* par := proc parent in
         let* chrono_fd := item_M (p_chrono_fds par !! fd) in
         let* ts := last_ts chrono_fd in
         let* a := fds_item p fd in
         let* src := the_fd a in
         upd_proc parent (fun x =>
           set_p_chrono_fds
             (<[fd := set_chrono_filename ts (fd_filename src) chrono_fd]> (p_chrono_fds x)) x)
       else unit_M tt) >>
      (* merge the values as they are for the same sv.FD *)
      (let* pa := fds_item parent fd in
       let* a := fds_item p fd in
       let* src := the_fd a in
       upd_fd pa (fun x => set_fd_net_read (fd_net_read x + fd_net_read src) x)) >>
      (let* pa := fds_item parent fd in
       let* a := fds_item p fd in
       let* src := the_fd a in
       upd_fd pa (fun x => set_fd_net_write (fd_net_write x + fd_net_write src) x)) >>
      (let* pa := fds_item parent fd in
       let* a := fds_item p fd in
       let* src := the_fd a in
       upd_fd pa (fun x => set_fd_disk_read (fd_disk_read x + fd_disk_read src) x)) >>
      (let* pa := fds_item parent fd in
       let* a := fds_item p fd in
       let* src := the_fd a in
       upd_fd pa (fun x => set_fd_disk_write (fd_disk_write x + fd_disk_write src) x))
  end.

(** The body of the second loop of [merge_fd_dict], before its [del]. *)
Definition merge_closed_fd (p parent : loc) (fd : string) : M State unit :=
  let* par := proc parent in
  match p_closed_fds par !! fd with
  | None =>
      let* a := closed_fds_item p fd in
      upd_proc parent (fun x => set_p_closed_fds (<[fd := a]> (p_closed_fds x)) x)
  | Some _ =>
      (let* pa := closed_fds_item parent fd in
       let* n := getattr_name pa in
       if String.eqb n "" then
         let* a := closed_fds_item p fd in
         let* n' := getattr_name a in
         upd_fd pa (set_fd_name (Some n'))
       else unit_M tt) >>
      (let* pa := closed_fds_item parent fd in
       let* a := closed_fds_item p fd in
       let* src := the_fd a in
       upd_fd pa (fun x => set_fd_read (fd_read x + fd_read src) x)) >>
      (let* pa := closed_fds_item parent fd in
       let* a := closed_fds_item p fd in
       let* src := the_fd a in
       upd_fd pa (fun x => set_fd_write (fd_write x + fd_write src) x))
  end.

(** The first loop collects the keys in [toremove] and deletes them after
    the iteration.  The second loop deletes the key inside the iteration
    over [p.closed_fds.keys()]: when the iterator is asked for the next key
    the dictionary has changed size, and the iteration raises
    [RuntimeError]. *)
Definition merge_fd_dict (p parent : loc) : M State unit :=
  (let* x := proc p in
   if negb (bool_decide (p_fds x = ∅)) then
     let toremove := map fst (map_to_list (p_fds x)) in
     for_M toremove (merge_fd p parent) >>
     for_M toremove (fun fd => del_fds p fd >> del_chrono_fds p fd)
   else unit_M tt) >>
  let* x := proc p in
  match map fst (map_to_list (p_closed_fds x)) with
  | [] => unit_M tt
  | fd :: _ =>
      merge_closed_fd p parent fd >>
      del_closed_fds p fd >>
      raise_M RuntimeError
  end.

Definition _process_lttng_statedump_process_state (event : Event) : M State unit :=
  let* tid := ev_int event "tid" in
  let* pid := ev_int event "pid" in
  let* name := ev_str event "name" in
  let* s := get_M in
  let* p :=
    match tids s !! tid with
    | None =>
        let* p := alloc_proc Process_new in
        upd_proc p (set_p_tid (Some tid)) >>
        modify_M (fun s => set_tids (<[tid := p]> (tids s)) s) >>
        unit_M p
    | Some p => unit_M p
    end in
  upd_proc p (set_p_pid (Some pid)) >>
  upd_proc p (set_p_comm name) >>
  if negb (pid =? tid) then
    let* s := get_M in
    let* parent :=
      match tids s !! pid with
      | None =>
          let* parent := alloc_proc Process_new in
          upd_proc parent (set_p_tid (Some pid)) >>
          upd_proc parent (set_p_pid (Some pid)) >>
          upd_proc parent (set_p_comm name) >>
          modify_M (fun s => set_tids (<[pid := parent]> (tids s)) s) >>
          unit_M parent
      | Some parent => unit_M parent
      end in
    merge_fd_dict p parent
  else unit_M tt.

Definition _process_lttng_statedump_file_descriptor (event : Event) : M State unit :=
  let* pid := ev_int event "pid" in
  let* fd := ev_int event "fd" in
  let* filename := ev_str event "filename" in
  let* flags := ev_int event "flags" in
  let cloexec := Z.land flags O_CLOEXEC =? O_CLOEXEC in
  let* s := get_M in
  let* proc_ :=
    match tids s !! pid with
    | None =>
        let* proc_ := alloc_proc Process_new in
        upd_proc proc_ (set_p_pid (Some pid)) >>
        upd_proc proc_ (set_p_tid (Some pid)) >>
        modify_M (fun s => set_tids (<[pid := proc_]> (tids s)) s) >>
        unit_M proc_
    | Some proc_ => unit_M proc_
    end in
  (let* x := proc proc_ in
   match p_fds x !! fd with
   | None =>
       let* newfile := alloc_fd FD_new in
       upd_fd newfile (set_fd_filename filename) >>
       upd_fd newfile (set_fd_fd fd) >>
       upd_fd newfile (set_fd_cloexec (if cloexec then 1 else 0)) >>
       upd_proc proc_ (fun x => set_p_fds (<[fd := newfile]> (p_fds x)) x)
   | Some f =>
       (* just fix the filename *)
       upd_fd f (set_fd_filename filename)
   end) >>
  let* f := fds_item proc_ fd in
  let* x := the_fd f in
  let fdtype := fd_fdtype x in
  upd_proc proc_ (track_chrono_fd fd filename fdtype (ev_timestamp event)).

Definition _process_lttng_statedump_block_device (event : Event) : M State unit :=
  let* dev := ev_int event "dev" in
  let* d := get_disk dev in
  let* diskname := ev_str event "diskname" in
  match d with
  | SlotDisk l => upd_disk l (fun d => mkDisk (d_name d) diskname)
  | SlotTable => raise_M AttributeError
  end.

(** *** The syscall catalog used to run the handlers

    The lists are those of [class SyscallConsts] in
    src/old/LTTngAnalyzes/common.py. *)

Definition DISK_OPEN : list string :=
  ["sys_open"; "syscall_entry_open"; "sys_openat"; "syscall_entry_openat"].
Definition NET_OPEN : list string :=
  ["sys_accept"; "syscall_entry_accept"; "sys_socket"; "syscall_entry_socket"].
Definition DUP_OPEN : list string :=
  ["sys_fcntl"; "syscall_entry_fcntl"; "sys_dup2"; "syscall_entry_dup2"].
Definition SYNC : list string :=
  ["sys_sync"; "syscall_entry_sync"; "sys_sync_file_range";
   "syscall_entry_sync_file_range"; "sys_fsync"; "syscall_entry_fsync";
   "sys_fdatasync"; "syscall_entry_fdatasync"].
Definition CLOSE : list string := ["sys_close"; "syscall_entry_close"].
Definition READ : list string :=
  ["sys_read"; "syscall_entry_read"; "sys_recvmsg"; "syscall_entry_recvmsg";
   "sys_recvfrom"; "syscall_entry_recvfrom"; "sys_splice"; "syscall_entry_splice";
   "sys_readv"; "syscall_entry_readv"; "sys_sendfile64"; "syscall_entry_sendfile64"].
Definition WRITE : list string :=
  ["sys_write"; "syscall_entry_write"; "sys_sendmsg"; "syscall_entry_sendmsg";
   "sys_sendto"; "syscall_entry_sendto"; "sys_writev"; "syscall_entry_writev"].

(** Modelled from the spec: the list [IO_SYSCALLS] belongs to the module
    [sv], which is missing from the sources, and the older catalog has no
    such list.  Section 4.3 classifies a completed syscall "into {open,
    read, write, sync, other} by name membership in a fixed syscall name
    catalog" and gives the same correlator the close family: the I/O names
    are the names of these families. *)
Definition IO : list string :=
  (DISK_OPEN ++ NET_OPEN ++ DUP_OPEN) ++ CLOSE ++ READ ++ WRITE ++ SYNC.

Definition catalog : SyscallConsts :=
  mkConsts [AF_INET; AF_INET6] [AF_UNIX]
    DISK_OPEN NET_OPEN DUP_OPEN SYNC (DISK_OPEN ++ NET_OPEN ++ DUP_OPEN)
    CLOSE READ WRITE IO ["unknown"; "socket"].

(** *** Running the providers over a trace

    The dispatch of an event to its callback ([sp.StateProvider]) is not
    among the sources: a trace is a list of events, each with the callback
    it is routed to. *)

Inductive handler : Type :=
| SyscallEntry
| SyscallExit
| WritebackPagesWritten
| MmVmscanWakeupKswapd
| MmPageFree
| StatedumpProcessState
| StatedumpFileDescriptor
| StatedumpBlockDevice.

Definition process (K : SyscallConsts) (x : handler * Event) : M State unit :=
  match fst x with
  | SyscallEntry => _process_syscall_entry K (snd x)
  | SyscallExit => _process_syscall_exit K (snd x)
  | WritebackPagesWritten => _process_writeback_pages_written (snd x)
  | MmVmscanWakeupKswapd => _process_mm_vmscan_wakeup_kswapd (snd x)
  | MmPageFree => _process_mm_page_free (snd x)
  | StatedumpProcessState => _process_lttng_statedump_process_state (snd x)
  | StatedumpFileDescriptor => _process_lttng_statedump_file_descriptor (snd x)
  | StatedumpBlockDevice => _process_lttng_statedump_block_device (snd x)
  end.

Definition run (K : SyscallConsts) (l : list (handler * Event)) : M State unit :=
  for_M l (process K).

(** An event with the given payload fields. *)
Definition event (name : string) (ts : Z) (fields : list (string * Val)) : Event :=
  mkEvent name ts (list_to_map fields) ∅.

(** Views of the state: the process of a thread id, its in-flight
    syscall record, a descriptor of its open table, an entry of its closed
    table, and the requests a list of references stands for. *)
Definition process_of (s : State) (tid : Z) : option Process :=
  a ← tids s !! tid; procs s !! a.

Definition in_flight (s : State) (tid : Z) : option (gmap string Val) :=
  p_current_syscall <$> process_of s tid.

Definition descriptor (s : State) (tid fd : Z) : option FD :=
  p ← process_of s tid; a ← p_fds p !! fd; fdheap s !! a.

Definition closed_descriptor (s : State) (tid : Z) (name : string) : option FD :=
  p ← process_of s tid; a ← p_closed_fds p !! name; fdheap s !! a.

Definition requests (s : State) (l : list loc) : list IORequest :=
  omap (fun r => rqheap s !! r) l.

Definition is_read (r : IORequest) : bool :=
  bool_decide (rq_operation r = Some OP_READ).

(** The state the scheduler provider leaves when thread [tid] runs on
    CPU 0: one CPU, one process, nothing else. *)
Definition one_thread (tid : Z) (pid : option Z) : State :=
  mkState {[ 0 := mkCPU (Some tid) ]} {[ tid := O ]} ∅ ∅ 0 []
    {[ O := set_p_pid pid (set_p_tid (Some tid) Process_new) ]} ∅ ∅ ∅ 1%nat.

(** *** Frames

    What the handlers leave in place, as relations between the state
    before and the state after. *)

(** The threads table and the processes it refers to stay in place. *)
Definition same_threads (s s' : State) : Prop :=
  tids s' = tids s /\ cpus s' = cpus s /\
  forall a, is_Some (procs s !! a) -> is_Some (procs s' !! a).

(** The in-flight records stay as they are. *)
Definition same_in_flight (s s' : State) : Prop :=
  tids s' = tids s /\ next s' = next s /\
  forall a p, procs s !! a = Some p ->
    exists p', procs s' !! a = Some p' /\ p_current_syscall p' = p_current_syscall p.

(** The timing of the request [r] stays. *)
Definition same_timing (r : loc) (s s' : State) : Prop :=
  forall x, rqheap s !! r = Some x ->
    exists x', rqheap s' !! r = Some x' /\
      rq_duration x' = rq_duration x /\ rq_begin x' = rq_begin x /\ rq_end x' = rq_end x.


(** The entry timestamp and the request of every in-flight record stay,
    and so do the threads and the allocated requests. *)
Definition same_record (s s' : State) : Prop :=
  tids s' = tids s /\
  (forall a p, procs s !! a = Some p ->
     exists p', procs s' !! a = Some p' /\
       p_current_syscall p' !! "start" = p_current_syscall p !! "start" /\
       p_current_syscall p' !! "iorequest" = p_current_syscall p !! "iorequest") /\
  (forall r, is_Some (rqheap s !! r) -> is_Some (rqheap s' !! r)).

(** The closed tables stay as they are. *)
Definition same_closed (s s' : State) : Prop :=
  forall a p, procs s !! a = Some p ->
    exists p', procs s' !! a = Some p' /\ p_closed_fds p' = p_closed_fds p.

(** The descriptor [g] of the closed table after [close_fd] has merged
    the counters of [f] into it. *)
Definition merged (g f : FD) : FD :=
  set_fd_disk_write (fd_disk_write g + fd_disk_write f)
    (set_fd_net_write (fd_net_write g + fd_net_write f)
       (set_fd_disk_read (fd_disk_read g + fd_disk_read f)
          (set_fd_net_read (fd_net_read g + fd_net_read f)
             (set_fd_close (fd_close g + 1) g)))).

(** *** Scenarios *)

Definition final_state (r : result (unit * State)) : option State :=
  match r with
  | Ok (_, s) => Some s
  | Raise _ => None
  end.

(** The in-flight record of thread [tid] after the events [l]. *)
Definition in_flight_after (l : list (handler * Event)) (s : State) (tid : Z)
    : option (gmap string Val) :=
  s' ← final_state (run catalog l s); in_flight s' tid.

(** The open descriptor [fd] and the closed descriptor [name] of thread
    [tid] after the events [l]. *)
Definition descriptor_after (l : list (handler * Event)) (s : State) (tid fd : Z)
    : option FD :=
  s' ← final_state (run catalog l s); descriptor s' tid fd.

Definition closed_after (l : list (handler * Event)) (s : State) (tid : Z)
    (name : string) : option FD :=
  s' ← final_state (run catalog l s); closed_descriptor s' tid name.

(** One event of each kind, on CPU 0. *)
Definition open_entry (filename : string) (ts : Z) : handler * Event :=
  (SyscallEntry, event "sys_open" ts
     [("cpu_id", VInt 0); ("filename", VStr filename); ("flags", VInt 0); ("mode", VInt 0)]).
Definition socket_entry (ts : Z) : handler * Event :=
  (SyscallEntry, event "sys_socket" ts [("cpu_id", VInt 0); ("family", VInt AF_INET)]).
Definition read_entry (fd ts : Z) : handler * Event :=
  (SyscallEntry, event "sys_read" ts
     [("cpu_id", VInt 0); ("fd", VInt fd); ("count", VInt 4096)]).
Definition write_entry (fd count ts : Z) : handler * Event :=
  (SyscallEntry, event "sys_write" ts
     [("cpu_id", VInt 0); ("fd", VInt fd); ("count", VInt count)]).
Definition close_entry (fd ts : Z) : handler * Event :=
  (SyscallEntry, event "sys_close" ts [("cpu_id", VInt 0); ("fd", VInt fd)]).
Definition getpid_entry (ts : Z) : handler * Event :=
  (SyscallEntry, event "sys_getpid" ts [("cpu_id", VInt 0)]).
Definition syscall_exit (cpu ret ts : Z) : handler * Event :=
  (SyscallExit, event "exit_syscall" ts [("cpu_id", VInt cpu); ("ret", VInt ret)]).
Definition wakeup_kswapd (ts : Z) : handler * Event :=
  (MmVmscanWakeupKswapd,
   event "mm_vmscan_wakeup_kswapd" ts [("cpu_id", VInt 0); ("nid", VInt 0)]).
Definition pages_written (pages ts : Z) : handler * Event :=
  (WritebackPagesWritten, event "writeback_pages_written" ts [("pages", VInt pages)]).
Definition page_free (ts : Z) : handler * Event :=
  (MmPageFree, event "mm_page_free" ts [("cpu_id", VInt 0); ("order", VInt 0)]).
Definition process_state (tid pid : Z) (name : string) (ts : Z) : handler * Event :=
  (StatedumpProcessState, event "lttng_statedump_process_state" ts
     [("tid", VInt tid); ("pid", VInt pid); ("name", VStr name)]).
Definition file_descriptor (pid fd : Z) (filename : string) (flags ts : Z)
    : handler * Event :=
  (StatedumpFileDescriptor, event "lttng_statedump_file_descriptor" ts
     [("pid", VInt pid); ("fd", VInt fd); ("filename", VStr filename);
      ("flags", VInt flags)]).
Definition block_device (dev : Z) (diskname : string) (ts : Z) : handler * Event :=
  (StatedumpBlockDevice, event "lttng_statedump_block_device" ts
     [("dev", VInt dev); ("diskname", VStr diskname)]).

(** The open-then-read scenario: thread 42 opens "/tmp/a", which returns
    descriptor 5 at [t_open], then reads 1000 bytes from it.  The outcome
    is the read counter of the descriptor stored under 5, the size and
    duration of the read requests in its list, and the read counter of the
    process. *)
Definition open_read_trace (t_open : Z) : list (handler * Event) :=
  [ open_entry "/tmp/a" 100; syscall_exit 0 5 t_open;
    read_entry 5 110; syscall_exit 0 1000 115 ].

Definition open_read_outcome (t_open : Z) (pid : option Z)
    : option (Z * list (option Z * option Z) * Z) :=
  s ← final_state (run catalog (open_read_trace t_open) (one_thread 42 pid));
  p ← process_of s 42;
  x ← descriptor s 42 5;
  Some (fd_read x,
        map (fun r => (rq_size r, rq_duration r))
            (filter is_read (requests s (fd_iorequests x))),
        p_read p).

(** A thread opens and closes a file; the statedump then reports the
    thread as a thread of process 42. *)
Definition open_close_trace : list (handler * Event) :=
  [ open_entry "/tmp/a" 100; syscall_exit 0 5 105;
    close_entry 5 110; syscall_exit 0 0 115 ].

(** Two sockets, written to and closed one after the other. *)
Definition two_sockets_trace : list (handler * Event) :=
  [ socket_entry 100; syscall_exit 0 3 101;
    write_entry 3 10 102; syscall_exit 0 10 103;
    close_entry 3 104; syscall_exit 0 0 105;
    socket_entry 106; syscall_exit 0 4 107;
    write_entry 4 5 108; syscall_exit 0 5 109;
    close_entry 4 110; syscall_exit 0 0 111 ].


(** The reclaim worker runs on CPU 0, after thread 42, whose read is in
    flight and carries the mark of a reclaim wakeup. *)
Definition kswapd_running : State :=
  mkState {[ 0 := mkCPU (Some 7) ]} {[ 7 := 0%nat; 42 := 1%nat ]} ∅ ∅ 0 []
    {[ 0%nat := set_p_prev_tid 42 (set_p_comm "kswapd0" (set_p_tid (Some 7) Process_new));
       1%nat := set_p_current_syscall
                  {[ "name" := VStr "sys_read"; "start" := VInt 10;
                     "wakeup_kswapd" := VInt 1 ]}
                  (set_p_tid (Some 42) Process_new) ]}
    ∅ ∅ ∅ 2%nat.

(** Process 42 holds descriptor 3 on "/tmp/a" with 10 bytes read from the
    network, and its closed table has an entry for "/tmp/a" with 5. *)
Definition open_and_closed : State :=
  mkState {[ 0 := mkCPU (Some 42) ]} {[ 42 := 0%nat ]} ∅ ∅ 0 []
    {[ 0%nat := set_p_closed_fds {[ "/tmp/a" := 2%nat ]}
                  (set_p_fds {[ 3 := 1%nat ]} (set_p_tid (Some 42) Process_new)) ]}
    {[ 1%nat := set_fd_net_read 10 (set_fd_fd 3 (set_fd_filename "/tmp/a" FD_new));
       2%nat := set_fd_close 1 (set_fd_net_read 5 (set_fd_filename "/tmp/a" FD_new)) ]}
    ∅ ∅ 3%nat.

(** *** More frames and scenarios *)

(** The byte counters of a descriptor and of a process: by class for
    reads, by class for writes, and the two totals. *)
Definition fd_reads (x : FD) : Z := fd_net_read x + fd_disk_read x + fd_unk_read x.
Definition fd_writes (x : FD) : Z := fd_net_write x + fd_disk_write x + fd_unk_write x.
Definition p_reads (p : Process) : Z := p_net_read p + p_disk_read p + p_unk_read p.
Definition p_writes (p : Process) : Z := p_net_write p + p_disk_write p + p_unk_write p.

(** The locations from [next] on are free in the store of processes. *)
Definition allocated (s : State) : Prop :=
  forall a, (next s <= a)%nat -> procs s !! a = None.

(** The syscall totals stay as they are (in a store whose free locations
    are free, which every allocation keeps). *)
Definition same_totals (s s' : State) : Prop :=
  allocated s ->
  allocated s' /\ syscalls_total s' = syscalls_total s /\
  forall a p, procs s !! a = Some p ->
    exists p', procs s' !! a = Some p' /\ p_total_syscalls p' = p_total_syscalls p.

(** The eight byte counters of a descriptor and of a process. *)
Definition fd_bytes (x : FD) : Z * Z * Z * Z * Z * Z * Z * Z :=
  (fd_net_read x, fd_net_write x, fd_disk_read x, fd_disk_write x,
   fd_unk_read x, fd_unk_write x, fd_read x, fd_write x).
Definition p_bytes (p : Process) : Z * Z * Z * Z * Z * Z * Z * Z :=
  (p_net_read p, p_net_write p, p_disk_read p, p_disk_write p,
   p_unk_read p, p_unk_write p, p_read p, p_write p).

(** The byte counters of every descriptor and of every process stay as
    they are. *)
Definition same_bytes (s s' : State) : Prop :=
  (forall a x, fdheap s !! a = Some x ->
     exists x', fdheap s' !! a = Some x' /\ fd_bytes x' = fd_bytes x) /\
  (forall a p, procs s !! a = Some p ->
     exists p', procs s' !! a = Some p' /\ p_bytes p' = p_bytes p).

(** Process 42 is known and holds descriptor 3; its thread 43, current on
    CPU 0, is known without its pid. *)
Definition thread_of_known_process : State :=
  mkState {[ 0 := mkCPU (Some 43) ]} {[ 42 := 0%nat; 43 := 1%nat ]} ∅ ∅ 0 []
    {[ 0%nat := set_p_fds {[ 3 := 0%nat ]}
                  (set_p_pid (Some 42) (set_p_tid (Some 42) Process_new));
       1%nat := set_p_tid (Some 43) Process_new ]}
    {[ 0%nat := set_fd_fd 3 (set_fd_filename "/tmp/a" FD_new) ]} ∅ ∅ 2%nat.

(** A syscall entry with the pid of the process in the stream context. *)
Definition getpid_entry_of (pid ts : Z) : handler * Event :=
  (SyscallEntry, mkEvent "sys_getpid" ts {[ "cpu_id" := VInt 0 ]} {[ "pid" := VInt pid ]}).

(** *** The order of arrival *)

(** No in-flight record of the state carries an entry timestamp later
    than [T]. *)
Definition starts_before (T : Z) (s : State) : Prop :=
  forall a p st, procs s !! a = Some p ->
    p_current_syscall p !! "start" = Some (VInt st) -> st <= T.



(** The bound [T] on the entry timestamps is kept. *)
Definition keeps_starts (T : Z) (s s' : State) : Prop :=
  starts_before T s -> starts_before T s'.






End Automaton.

(** * Properties *)

#[local] Set Warnings "-clear-no-such-hyp".
Local Open Scope list_scope.
Local Open Scope Z_scope.

(** ** The monad: inversion and frame rules *)

Lemma bind_Ok {S A B} (c : M S A) (k : A -> M S B) (s : S) (r : B * S) :
  bind_M c k s = Ok r <-> exists a s1, c s = Ok (a, s1) /\ k a s1 = Ok r.
Proof.
  unfold bind_M. destruct (c s) as [[a s1]|e].
  - split; [eauto | intros (? & ? & [= <- <-] & ?); done].
  - split; [done | intros (? & ? & [=] & _)].
Qed.

Lemma item_Ok {S A} (o : option A) (s s' : S) (a : A) :
  item_M o s = Ok (a, s') <-> o = Some a /\ s' = s.
Proof.
  destruct o; cbn.
  - unfold unit_M. split; [intros [= -> ->]; done | intros [[= ->] ->]; done].
  - unfold raise_M. split; [done | intros [[=] _]].
Qed.

Lemma ev_int_Ok {S} (e : Event) (k : string) (s s' : S) (z : Z) :
  ev_int e k s = Ok (z, s') <-> ev_get e k = Some (VInt z) /\ s' = s.
Proof.
  unfold ev_int, ev_item. rewrite bind_Ok. split.
  - intros (v & s1 & Hv & Hz). apply item_Ok in Hv as [Hv ->].
    destruct v; cbn in Hz; try done. injection Hz as -> ->. done.
  - intros [H ->]. exists (VInt z), s. rewrite H. done.
Qed.

Lemma ev_int_run {S} (e : Event) (k : string) (z : Z) (s : S) :
  ev_get e k = Some (VInt z) -> ev_int e k s = Ok (z, s).
Proof. intros H. by apply ev_int_Ok. Qed.

Lemma bind_assoc_M {S A B C} (c : M S A) (k : A -> M S B) (k' : B -> M S C) s :
  bind_M (bind_M c k) k' s = bind_M c (fun a => bind_M (k a) k') s.
Proof. unfold bind_M. destruct (c s) as [[a s1]|]; done. Qed.

(** The frame rules: for a preorder [R] they compose along the structure
    of a computation. *)
Section Preserve.
Context {S : Type} (R : S -> S -> Prop) `{!Reflexive R} `{!Transitive R}.

Lemma preserves_unit {A} (a : A) : preserves R (unit_M a).
Proof. intros s b s' [= _ <-]. reflexivity. Qed.

Lemma preserves_raise {A} (e : exn) : preserves R (@raise_M S A e).
Proof. intros s b s' [=]. Qed.

Lemma preserves_get : preserves R (@get_M S).
Proof. intros s b s' [= _ <-]. reflexivity. Qed.

Lemma preserves_modify (f : S -> S) : (forall s, R s (f s)) -> preserves R (modify_M f).
Proof. intros Hf s [] s' [= <-]. apply Hf. Qed.

Lemma preserves_bind {A B} (c : M S A) (k : A -> M S B) :
  preserves R c -> (forall a, preserves R (k a)) -> preserves R (bind_M c k).
Proof.
  intros Hc Hk s b s' H. apply bind_Ok in H as (a & s1 & H1 & H2).
  etransitivity; [eapply Hc | eapply Hk]; eauto.
Qed.

Lemma preserves_item {A} (o : option A) : preserves R (item_M o).
Proof. destruct o; [apply preserves_unit | apply preserves_raise]. Qed.

Lemma preserves_as_int (v : Val) : preserves R (as_int v).
Proof. destruct v; first [apply preserves_unit | apply preserves_raise]. Qed.

Lemma preserves_as_str (v : Val) : preserves R (as_str v).
Proof. destruct v; first [apply preserves_unit | apply preserves_raise]. Qed.

Lemma preserves_ev_item (e : Event) (k : string) : preserves R (ev_item e k).
Proof. apply preserves_item. Qed.

Lemma preserves_ev_int (e : Event) (k : string) : preserves R (ev_int e k).
Proof. apply preserves_bind; [apply preserves_item | apply preserves_as_int]. Qed.

Lemma preserves_ev_str (e : Event) (k : string) : preserves R (ev_str e k).
Proof. apply preserves_bind; [apply preserves_item | apply preserves_as_str]. Qed.

End Preserve.

Lemma bind_frame {S A B} (R : S -> S -> Prop) (c : M S A) (k : A -> M S B) s r :
  preserves R c -> bind_M c k s = Ok r -> exists a s1, R s s1 /\ k a s1 = Ok r.
Proof.
  intros Hc H. apply bind_Ok in H as (a & s1 & H1 & H2). exists a, s1. split; [|done].
  by eapply Hc.
Qed.

Ltac preserves_step :=
  match goal with
  | |- preserves _ (bind_M _ _) =>
      apply preserves_bind; [typeclasses eauto .. | | intros ?]
  | |- preserves _ (unit_M _) => apply preserves_unit; typeclasses eauto
  | |- preserves _ (raise_M _) => apply preserves_raise
  | |- preserves _ get_M => apply preserves_get; typeclasses eauto
  | |- preserves _ (item_M _) => apply preserves_item; typeclasses eauto
  | |- preserves _ (as_int _) => apply preserves_as_int; typeclasses eauto
  | |- preserves _ (as_str _) => apply preserves_as_str; typeclasses eauto
  | |- preserves _ (ev_item _ _) => apply preserves_ev_item; typeclasses eauto
  | |- preserves _ (ev_int _ _) => apply preserves_ev_int; typeclasses eauto
  | |- preserves _ (ev_str _ _) => apply preserves_ev_str; typeclasses eauto
  | |- preserves _ (match ?x with _ => _ end) => destruct x
  | |- preserves _ (modify_M _) => apply preserves_modify; intros ?
  end.


(** ** The interrupt correlator *)

Module IrqProps.
Import Irq.

Lemma soft_raise_Ok e t t' :
  soft_raise e t = Ok (tt, t') ->
  exists c v, ev_get e "cpu_id" = Some (VInt c) /\ ev_get e "vec" = Some (VInt v)
    /\ t' = set_raise_per_cpu (<[c := Some (ev_timestamp e, v)]> (raise_per_cpu t)) t.
Proof.
  unfold soft_raise. intros H.
  apply bind_Ok in H as (c & s1 & Hc & H). apply ev_int_Ok in Hc as [Hc ->].
  apply bind_Ok in H as (v & s2 & Hv & H). apply ev_int_Ok in Hv as [Hv ->].
  cbn in *. injection H as <-. eauto.
Qed.

Lemma entry_run e cls idfield t c n :
  ev_get e "cpu_id" = Some (VInt c) ->
  ev_get e idfield = Some (VInt n) ->
  entry e cls idfield t =
    Ok (next t, set_next (S (next t))
                  (set_heap (<[next t := mkIRQ n cls (ev_timestamp e) (-1) (-1) c None]> (heap t)) t)).
Proof.
  intros Hc Hn. unfold entry, bind_M at 1. rewrite (ev_int_run _ _ _ _ Hc).
  unfold alloc, update, bind_M, get_M, modify_M, unit_M. cbn.
  rewrite (ev_int_run _ _ _ _ Hn). cbn.
  rewrite !alter_insert_eq. reflexivity.
Qed.

Lemma entry_Ok e cls idfield t i t' :
  entry e cls idfield t = Ok (i, t') ->
  exists c n, ev_get e "cpu_id" = Some (VInt c) /\ ev_get e idfield = Some (VInt n).
Proof.
  unfold entry. intros H.
  apply bind_Ok in H as (c & s1 & Hc & H). apply ev_int_Ok in Hc as [Hc ->].
  apply bind_Ok in H as (j & s2 & Hj & H).
  do 3 (apply bind_Ok in H as (? & ? & _ & H)).
  apply bind_Ok in H as (n & s3 & Hn & H). apply ev_int_Ok in Hn as [Hn ->].
  eauto.
Qed.

Lemma soft_entry_run e t c v :
  ev_get e "cpu_id" = Some (VInt c) ->
  ev_get e "vec" = Some (VInt v) ->
  soft_entry e t =
    Ok (tt, set_raise_per_cpu (consume c v (raise_per_cpu t))
              (set_soft_per_cpu (<[c := Some (next t)]> (soft_per_cpu t))
                 (set_next (S (next t))
                    (set_heap (<[next t := mkIRQ v SOFT_IRQ (ev_timestamp e) (-1)
                                             (raised_at c v (raise_per_cpu t)) c None]> (heap t))
                       (set_soft_count (soft_count t + 1) t))))).
Proof.
  intros Hc Hv. unfold soft_entry, bind_M at 1. rewrite (ev_int_run _ _ _ _ Hc).
  unfold bind_M at 1. unfold modify_M at 1.
  unfold bind_M at 1. rewrite (entry_run _ _ _ _ c v Hc Hv).
  unfold bind_M, modify_M, get_M, update, unit_M. cbn.
  unfold consume, raised_at.
  destruct (raise_per_cpu t !! c) as [[[rts rvec]|]|] eqn:E; cbn; try done.
  rewrite (ev_int_run _ _ _ _ Hv).
  destruct (rvec =? v); cbn; try done.
  rewrite alter_insert_eq. done.
Qed.

Global Instance same_raise_refl : Reflexive same_raise.
Proof. by intros t. Qed.
Global Instance same_raise_trans : Transitive same_raise.
Proof. unfold same_raise. intros t1 t2 t3 H1 H2. congruence. Qed.

Lemma exit_same_raise e idfield pck ity args :
  preserves same_raise (exit e idfield pck ity args).
Proof.
  unfold exit, deref, update.
  repeat preserves_step; try reflexivity; try (destruct pck; reflexivity);
    try (destruct ity; reflexivity).
Qed.

Lemma hard_entry_same_raise e : preserves same_raise (hard_entry e).
Proof.
  unfold hard_entry, entry, alloc, update.
  repeat preserves_step; reflexivity.
Qed.

Lemma hard_exit_same_raise e args : preserves same_raise (hard_exit e args).
Proof.
  unfold hard_exit, update.
  repeat preserves_step; try reflexivity; apply exit_same_raise.
Qed.

Lemma soft_exit_same_raise e args : preserves same_raise (soft_exit e args).
Proof.
  unfold soft_exit. repeat preserves_step; try reflexivity; apply exit_same_raise.
Qed.


Lemma run_snoc args h x t :
  run args (h ++ [x]) t = (run args h >> process args x) t.
Proof.
  revert t. induction h as [|y h IH]; intros t; cbn [run app].
  - unfold bind_M, unit_M. destruct (process args x t) as [[[] ?]|]; done.
  - unfold bind_M in *.
    destruct (process args y t) as [[[] t1]|]; [apply IH | done].
Qed.

Lemma run_snoc_Ok args h x t t' :
  run args (h ++ [x]) t = Ok (tt, t') <->
  exists t1, run args h t = Ok (tt, t1) /\ process args x t1 = Ok (tt, t').
Proof.
  rewrite run_snoc, bind_Ok. split.
  - intros ([] & t1 & ? & ?); eauto.
  - intros (t1 & ? & ?); exists tt, t1; eauto.
Qed.

Lemma raise_pending_nil c v ts : ~ raise_pending c v ts [].
Proof. intros (pre & x & post & H & _). by destruct pre. Qed.

Lemma raise_pending_snoc c v ts h x :
  raise_pending c v ts (h ++ [x]) <->
  is_raise_of c v ts x \/
  (raise_pending c v ts h /\ ~ is_entry_of c v x /\ ~ is_raise_on c x).
Proof.
  split.
  - intros (pre & y & post & Heq & Hy & Hpost).
    destruct post as [|z post _] using rev_ind.
    + symmetry in Heq. apply (app_inj_tail pre h y x) in Heq as [-> ->]. by left.
    + symmetry in Heq. rewrite app_comm_cons, app_assoc in Heq.
      apply app_inj_tail in Heq as [<- ->]. right.
      destruct (Hpost x) as [? ?]; [apply elem_of_app; right; by apply list_elem_of_singleton|].
      split; [|done]. exists pre, y, post. split; [done|]. split; [done|].
      intros w Hw. apply Hpost. apply elem_of_app; by left.
  - intros [Hx | ((pre & y & post & -> & Hy & Hpost) & Hne & Hnr)].
    + exists h, x, []. split; [done|]. split; [done|]. intros w Hw. set_solver.
    + exists pre, y, (post ++ [x]). split; [by rewrite <- app_assoc|]. split; [done|].
      intros w [Hw | ->%list_elem_of_singleton]%elem_of_app; [by apply Hpost | done].
Qed.

Lemma soft_entry_Ok e t t' :
  soft_entry e t = Ok (tt, t') ->
  exists c v, ev_get e "cpu_id" = Some (VInt c) /\ ev_get e "vec" = Some (VInt v).
Proof.
  unfold soft_entry. intros H.
  apply bind_Ok in H as (c & s1 & Hc & H).
  apply bind_Ok in H as (? & s2 & _ & H).
  apply bind_Ok in H as (i & s3 & Hi & H).
  apply entry_Ok in Hi as (c' & v & ? & ?). eauto.
Qed.

Lemma pending_slot args h t :
  run args h init = Ok (tt, t) ->
  forall c v ts, raise_per_cpu t !! c = Some (Some (ts, v)) <-> raise_pending c v ts h.
Proof.
  revert t. induction h as [|[o e] h IH] using rev_ind; intros t Hrun c v ts.
  - injection Hrun as <-. cbn. rewrite lookup_empty.
    split; [done | intros H; by apply raise_pending_nil in H].
  - apply run_snoc_Ok in Hrun as (t1 & Hh & Hx).
    specialize (IH t1 Hh c v ts). rewrite raise_pending_snoc.
    unfold is_raise_of, is_raise_on, is_entry_of. cbn [fst snd].
    unfold process in Hx; cbn [fst snd] in Hx.
    destruct o.
    + apply hard_entry_same_raise in Hx. rewrite Hx, IH. intuition congruence.
    + apply hard_exit_same_raise in Hx. rewrite Hx, IH. intuition congruence.
    + pose proof (soft_entry_Ok _ _ _ Hx) as (c' & v' & Hc & Hv).
      rewrite (soft_entry_run _ _ _ _ Hc Hv) in Hx. injection Hx as <-. cbn.
      rewrite Hc, Hv. unfold consume.
      destruct (decide (c' = c)) as [->|Hne].
      * destruct (raise_per_cpu t1 !! c) as [[[r rv]|]|] eqn:E.
        -- destruct (Z.eqb_spec rv v').
           ++ subst rv. rewrite lookup_insert_eq. naive_solver.
           ++ rewrite E. naive_solver.
        -- rewrite E. naive_solver.
        -- rewrite E. naive_solver.
      * assert (consume_ne : match raise_per_cpu t1 !! c' with
                | Some (Some (_, rvec)) =>
                    if rvec =? v' then <[c':=None]> (raise_per_cpu t1) else raise_per_cpu t1
                | _ => raise_per_cpu t1
                end !! c = raise_per_cpu t1 !! c).
        { destruct (raise_per_cpu t1 !! c') as [[[r rv]|]|]; try done.
          destruct (rv =? v'); [by rewrite lookup_insert_ne | done]. }
        rewrite consume_ne. naive_solver.
    + apply soft_exit_same_raise in Hx. rewrite Hx, IH. intuition congruence.
    + apply soft_raise_Ok in Hx as (c' & v' & Hc & Hv & ->). cbn.
      rewrite Hc, Hv.
      destruct (decide (c' = c)) as [->|Hne].
      * rewrite lookup_insert_eq. naive_solver.
      * rewrite lookup_insert_ne by done. naive_solver.
Qed.

Lemma irqs_set_heap ity h t : irqs ity (set_heap h t) = irqs ity t.
Proof. by destruct ity. Qed.

Lemma per_cpu_set_heap pck h t : per_cpu pck (set_heap h t) = per_cpu pck t.
Proof. by destruct pck. Qed.

Lemma irqs_set_irqs ity v t : irqs ity (set_irqs ity v t) = v.
Proof. by destruct ity. Qed.

Lemma set_irqs_set_irqs ity v w t : set_irqs ity v (set_irqs ity w t) = set_irqs ity v t.
Proof. by destruct ity. Qed.

Ltac tsimpl :=
  cbv beta iota;
  cbn [hard_count soft_count hard_per_cpu soft_per_cpu raise_per_cpu names hard_irqs
       soft_irqs raise_latency irq_list heap next
       set_hard_count set_soft_count set_hard_per_cpu set_soft_per_cpu set_raise_per_cpu
       set_names set_hard_irqs set_soft_irqs set_irq_list set_heap set_next
       nr irqclass start_ts stop_ts raise_ts cpu_id ret stopped negb fst snd
       fmap option_fmap option_map].

Lemma exit_recorded e idfield pck ity args t c id i r :
  ev_get e "cpu_id" = Some (VInt c) ->
  ev_get e idfield = Some (VInt id) ->
  per_cpu pck t !! c = Some (Some i) ->
  heap t !! i = Some r ->
  nr r = id ->
  filtered args (ev_timestamp e - start_ts r) = false ->
  exit e idfield pck ity args t =
    Ok (RetIrq i,
        set_irq_list (irq_list t ++ [i])
          (set_irqs ity
             (<[id := with_sample (default init_irq (irqs ity t !! id)) i
                        (stopped r (ev_timestamp e))]> (irqs ity t))
             (set_heap (alter (fun r => stopped r (ev_timestamp e)) i (heap t)) t))).
Proof.
  intros Hc Hid Hslot Hr <- Hf. unfold exit, bind_M at 1.
  rewrite (ev_int_run _ _ _ _ Hc). unfold bind_M at 1, get_M at 1. rewrite Hslot.
  unfold deref, update, bind_M, get_M, item_M, modify_M, unit_M. rewrite Hr.
  rewrite (ev_int_run _ _ _ _ Hid). rewrite Z.eqb_refl. tsimpl.
  rewrite lookup_alter_eq, Hr. tsimpl.
  unfold filtered in Hf. apply orb_false_iff in Hf as [Hf1 Hf2].
  unfold with_sample.
  destruct ity; cbn [irqs set_irqs] in *; tsimpl;
    (destruct (_ !! nr r) as [ie|] eqn:E;
     repeat (tsimpl; rewrite ?E, ?lookup_insert_eq, ?Hf1, ?Hf2);
     rewrite ?insert_insert_eq; cbn [from_option id]; reflexivity).
Qed.

Lemma exit_filtered e idfield pck ity args t c id i r :
  ev_get e "cpu_id" = Some (VInt c) ->
  ev_get e idfield = Some (VInt id) ->
  per_cpu pck t !! c = Some (Some i) ->
  heap t !! i = Some r ->
  nr r = id ->
  filtered args (ev_timestamp e - start_ts r) = true ->
  exit e idfield pck ity args t =
    Ok (RetFalse,
        let t1 := set_heap (alter (fun r => stopped r (ev_timestamp e)) i (heap t)) t in
        match irqs ity t !! id with
        | Some _ => t1
        | None => set_irqs ity (<[id := init_irq]> (irqs ity t)) t1
        end).
Proof.
  intros Hc Hid Hslot Hr <- Hf. unfold exit, bind_M at 1.
  rewrite (ev_int_run _ _ _ _ Hc). unfold bind_M at 1, get_M at 1. rewrite Hslot.
  unfold deref, update, bind_M, get_M, item_M, modify_M, unit_M. rewrite Hr.
  rewrite (ev_int_run _ _ _ _ Hid). rewrite Z.eqb_refl. tsimpl.
  rewrite lookup_alter_eq, Hr. tsimpl.
  unfold filtered in Hf. apply orb_true_iff in Hf.
  destruct ity; cbn [irqs set_irqs] in *; tsimpl;
    (destruct (_ !! nr r) as [ie|] eqn:E; tsimpl;
     (destruct (truthy (args_max args) && _) eqn:E1; [reflexivity|]);
     (destruct Hf as [Hf|Hf]; [congruence|]); rewrite Hf; reflexivity).
Qed.

Lemma upd_max_counts d ie :
  e_count (upd_max d ie) = e_count ie /\ e_total (upd_max d ie) = e_total ie /\
  e_raise_count (upd_max d ie) = e_raise_count ie /\
  e_raise_total (upd_max d ie) = e_raise_total ie.
Proof. unfold upd_max. by destruct (_ <? _). Qed.

Lemma upd_min_counts d ie :
  e_count (upd_min d ie) = e_count ie /\ e_total (upd_min d ie) = e_total ie /\
  e_raise_count (upd_min d ie) = e_raise_count ie /\
  e_raise_total (upd_min d ie) = e_raise_total ie.
Proof. unfold upd_min. by destruct (_ || _). Qed.

Lemma upd_raise_max_counts d ie :
  e_count (upd_raise_max d ie) = e_count ie /\ e_total (upd_raise_max d ie) = e_total ie /\
  e_raise_count (upd_raise_max d ie) = e_raise_count ie /\
  e_raise_total (upd_raise_max d ie) = e_raise_total ie.
Proof. unfold upd_raise_max. by destruct (_ <? _). Qed.

Lemma upd_raise_min_counts d ie :
  e_count (upd_raise_min d ie) = e_count ie /\ e_total (upd_raise_min d ie) = e_total ie /\
  e_raise_count (upd_raise_min d ie) = e_raise_count ie /\
  e_raise_total (upd_raise_min d ie) = e_raise_total ie.
Proof. unfold upd_raise_min. by destruct (_ || _). Qed.

Lemma compute_stats_sample ie r :
  e_count (compute_stats ie r) = e_count ie + 1 /\
  e_total (compute_stats ie r) = e_total ie + (stop_ts r - start_ts r) /\
  e_raise_count (compute_stats ie r)
    = (if raise_ts r =? -1 then e_raise_count ie else e_raise_count ie + 1) /\
  e_raise_total (compute_stats ie r)
    = (if raise_ts r =? -1 then e_raise_total ie
       else e_raise_total ie + (start_ts r - raise_ts r)).
Proof.
  unfold compute_stats. cbv zeta.
  set (d := stop_ts r - start_ts r). set (l := start_ts r - raise_ts r).
  destruct (upd_max_counts d ie) as (A1 & A2 & A3 & A4).
  destruct (upd_min_counts d (upd_max d ie)) as (B1 & B2 & B3 & B4).
  set (ie1 := add_duration d (upd_min d (upd_max d ie))).
  destruct (upd_raise_max_counts l ie1) as (C1 & C2 & C3 & C4).
  destruct (upd_raise_min_counts l (upd_raise_max l ie1)) as (D1 & D2 & D3 & D4).
  destruct (raise_ts r =? -1).
  - subst ie1. unfold add_duration.
    cbn [e_count e_total e_raise_count e_raise_total]. by rewrite B1, B2, B3, B4, A1, A2, A3, A4.
  - unfold add_latency. cbn [e_count e_total e_raise_count e_raise_total].
    rewrite D1, D2, D3, D4, C1, C2, C3, C4. subst ie1. unfold add_duration.
    cbn [e_count e_total e_raise_count e_raise_total]. by rewrite B1, B2, B3, B4, A1, A2, A3, A4.
Qed.

Lemma raise_pending_in c v ts h :
  raise_pending c v ts h -> exists x, x ∈ h /\ ev_timestamp (snd x) = ts.
Proof.
  intros (pre & x & post & -> & (_ & _ & Hts) & _). exists x. split; [|done].
  apply elem_of_app. right. apply list_elem_of_here.
Qed.

(** C6 as stated: vector 3 is raised at 50 and vector 4 at 55 on CPU 0,
    with no entry in between; a raise of vector 3 precedes the entry of
    vector 3 with no intervening entry for it, yet the entry at 60 and the
    exit at 90 record no raise latency. *)
Lemma soft_raise_latency_counterexample :
  let h := [raise_ev 0 3 50; raise_ev 0 4 55] in
  raise_preceded 0 3 50 h /\
  exists t t',
    run no_filter h init = Ok (tt, t) /\
    run no_filter [entry_ev 0 3 60; exit_ev 0 3 90] t = Ok (tt, t') /\
    e_raise_count (soft_stats t' 3) = 0 /\
    e_count (soft_stats t' 3) = 1.
Proof.
  split.
  - exists [], (raise_ev 0 3 50), [raise_ev 0 4 55]. split; [reflexivity|]. split.
    + repeat split; reflexivity.
    + intros y Hy. apply list_elem_of_singleton in Hy. subst y.
      intros (Hk & _). discriminate Hk.
  - eexists. eexists. split; [vm_compute; reflexivity|].
    split; [vm_compute; reflexivity|]. vm_compute. done.
Qed.

(** C7 (amended).  An exit event whose id matches the in-flight record
    of its CPU and whose duration lies outside the configured filter
    records no sample: the global interval list is unchanged, the
    aggregates that exist are unchanged (the aggregate of this id is
    created with its initial values when it was missing).  The per-CPU
    slot is not cleared: it still holds the record, now with its stop
    timestamp set. *)
Theorem exit_filtered_keeps_slot e idfield pck ity args t c id i r :
  ev_get e "cpu_id" = Some (VInt c) ->
  ev_get e idfield = Some (VInt id) ->
  per_cpu pck t !! c = Some (Some i) ->
  heap t !! i = Some r ->
  nr r = id ->
  filtered args (ev_timestamp e - start_ts r) = true ->
  exists t',
    exit e idfield pck ity args t = Ok (RetFalse, t') /\
    irq_list t' = irq_list t /\
    (forall ity' n ie, irqs ity' t !! n = Some ie -> irqs ity' t' !! n = Some ie) /\
    (forall ity' n, irqs ity' t !! n = None ->
       irqs ity' t' !! n = if bool_decide (ity' = ity /\ n = id) then Some init_irq else None) /\
    per_cpu pck t' !! c = Some (Some i) /\
    heap t' !! i = Some (stopped r (ev_timestamp e)).
Proof.
  intros Hc Hid Hslot Hr Hnr Hf.
  rewrite (exit_filtered e idfield pck ity args t c id i r Hc Hid Hslot Hr Hnr Hf).
  eexists. split; [reflexivity|]. cbv zeta.
  destruct (irqs ity t !! id) as [ie0|] eqn:E.
  - split; [done|]. split; [intros [] n ie; done|]. split.
    + intros ity' n Hn. rewrite irqs_set_heap, Hn.
      case_bool_decide as Hd; [|done]. destruct Hd as [-> ->]. congruence.
    + split; [by rewrite per_cpu_set_heap|].
      cbn [heap set_heap]. by rewrite lookup_alter_eq, Hr.
  - split; [by destruct ity|]. split.
    + intros ity' n ie Hn. destruct ity, ity'; cbn [irqs set_irqs] in *; tsimpl; try done;
        (rewrite lookup_insert_ne; [done | congruence]).
    + split.
      * intros ity' n Hn. case_bool_decide as Hd.
        -- destruct Hd as [-> ->]. rewrite irqs_set_irqs. apply lookup_insert_eq.
        -- destruct ity, ity'; cbn [irqs set_irqs] in *; tsimpl; try done;
             (rewrite lookup_insert_ne; [done | naive_solver]).
      * split; [by destruct ity, pck|].
        destruct ity; cbn [set_irqs]; tsimpl; by rewrite lookup_alter_eq, Hr.
Qed.

Lemma exit_filtered_witness :
  exists t t',
    run no_filter [irq_entry_ev 0 1 0 "timer"] init = Ok (tt, t) /\
    exit (snd (irq_exit_ev 0 1 5000 0)) "irq" hard_per_cpu_key hard_irqs_key
      (mkArgs (Some 1) None) t = Ok (RetFalse, t') /\
    irq_list t' = irq_list t /\
    hard_per_cpu t' !! 0 = Some (Some 0%nat).
Proof.
  eexists.
  assert (Hrun : run no_filter [irq_entry_ev 0 1 0 "timer"] init = Ok (tt, _))
    by (vm_compute; reflexivity).
  match type of Hrun with
  | _ = Ok (_, ?t0) =>
      destruct (exit_filtered_keeps_slot (snd (irq_exit_ev 0 1 5000 0)) "irq" hard_per_cpu_key
                  hard_irqs_key (mkArgs (Some 1) None) t0 0 1 0%nat
                  (mkIRQ 1 HARD_IRQ 0 (-1) (-1) 0 None)
                  eq_refl eq_refl eq_refl eq_refl eq_refl eq_refl)
        as (t' & Hexit & Hlist & _ & _ & Hslot & _)
  end.
  exists t'. split; [exact Hrun|]. split; [exact Hexit|]. split; [exact Hlist|]. exact Hslot.
Defined.

(** C7 as stated: with a maximum of 1 microsecond, a hard IRQ that lasts
    5000 ns is filtered, and the slot of CPU 0 still holds its record. *)
Lemma exit_filtered_counterexample :
  exists t',
    run (mkArgs (Some 1) None) [irq_entry_ev 0 1 0 "timer"; irq_exit_ev 0 1 5000 0] init
      = Ok (tt, t') /\
    hard_per_cpu t' !! 0 = Some (Some 0%nat) /\
    hard_per_cpu t' !! 0 <> Some None /\
    irq_list t' = [].
Proof.
  eexists. split; [vm_compute; reflexivity|]. vm_compute. done.
Qed.

(** *** Exits without a matching record *)

Lemma exit_none e idfield pck ity args t c :
  ev_get e "cpu_id" = Some (VInt c) ->
  per_cpu pck t !! c = None \/ per_cpu pck t !! c = Some None ->
  exit e idfield pck ity args t = Ok (RetNone, t).
Proof.
  intros Hc Hslot. unfold exit, bind_M at 1. rewrite (ev_int_run _ _ _ _ Hc).
  unfold bind_M at 1, get_M at 1. by destruct Hslot as [-> | ->].
Qed.

(** X14.  An exit on a CPU that has no record in flight, because no entry was
    seen on it or because the slot was cleared, leaves the table as it is;
    the id field of the event is not read. *)
Theorem exit_without_record e args t c :
  ev_get e "cpu_id" = Some (VInt c) ->
  (hard_per_cpu t !! c = None \/ hard_per_cpu t !! c = Some None ->
   hard_exit e args t = Ok (tt, t)) /\
  (soft_per_cpu t !! c = None \/ soft_per_cpu t !! c = Some None ->
   soft_exit e args t = Ok (tt, t)).
Proof.
  intros Hc. split; intros Hslot.
  - unfold hard_exit, bind_M.
    by rewrite (exit_none e "irq" hard_per_cpu_key hard_irqs_key args t c Hc Hslot).
  - unfold soft_exit, bind_M.
    by rewrite (exit_none e "vec" soft_per_cpu_key soft_irqs_key args t c Hc Hslot).
Qed.

Lemma exit_without_record_witness :
  hard_exit (snd (irq_exit_ev 0 1 5000 0)) no_filter init = Ok (tt, init) /\
  soft_exit (snd (exit_ev 0 3 90)) no_filter init = Ok (tt, init).
Proof.
  split.
  - apply (proj1 (exit_without_record (snd (irq_exit_ev 0 1 5000 0)) no_filter init 0 eq_refl)).
    left. reflexivity.
  - apply (proj2 (exit_without_record (snd (exit_ev 0 3 90)) no_filter init 0 eq_refl)).
    left. reflexivity.
Defined.

(** X15.  An exit whose id differs from the id of the record in flight on its
    CPU drops that record: the slot is set to [None], and nothing else
    changes; no interval is recorded and no aggregate is created. *)
Theorem exit_other_id_clears_slot e idfield pck ity args t c id i r :
  ev_get e "cpu_id" = Some (VInt c) ->
  ev_get e idfield = Some (VInt id) ->
  per_cpu pck t !! c = Some (Some i) ->
  heap t !! i = Some r ->
  nr r <> id ->
  exit e idfield pck ity args t
    = Ok (RetNone, set_per_cpu pck (<[c := None]> (per_cpu pck t)) t).
Proof.
  intros Hc Hid Hslot Hr Hne. unfold exit, bind_M at 1.
  rewrite (ev_int_run _ _ _ _ Hc). unfold bind_M at 1, get_M at 1. rewrite Hslot.
  unfold deref. unfold bind_M, get_M, item_M, unit_M, modify_M. rewrite Hr.
  rewrite (ev_int_run _ _ _ _ Hid).
  destruct (Z.eqb_spec (nr r) id); [done | reflexivity].
Qed.

Lemma exit_other_id_witness :
  exists t t',
    run no_filter [entry_ev 0 3 60] init = Ok (tt, t) /\
    exit (snd (exit_ev 0 4 90)) "vec" soft_per_cpu_key soft_irqs_key no_filter t
      = Ok (RetNone, t') /\
    soft_per_cpu t' !! 0 = Some None /\ soft_irqs t' = ∅ /\ irq_list t' = [].
Proof.
  eexists.
  assert (Hrun : run no_filter [entry_ev 0 3 60] init = Ok (tt, _)) by (vm_compute; reflexivity).
  match type of Hrun with
  | _ = Ok (_, ?t0) =>
      pose proof (exit_other_id_clears_slot (snd (exit_ev 0 4 90)) "vec" soft_per_cpu_key
                    soft_irqs_key no_filter t0 0 4 0%nat
                    (mkIRQ 3 SOFT_IRQ 60 (-1) (-1) 0 None)
                    eq_refl eq_refl eq_refl eq_refl ltac:(simpl; lia)) as Hexit
  end.
  eexists. split; [exact Hrun|]. split; [exact Hexit|].
  split; [reflexivity|]. split; reflexivity.
Defined.

(** *** What the aggregates keep *)

Global Instance same_irqs_refl : Reflexive same_irqs.
Proof. intros t. by repeat split. Qed.
Global Instance same_irqs_trans : Transitive same_irqs.
Proof. intros t1 t2 t3 (A1 & A2 & A3) (B1 & B2 & B3). repeat split; congruence. Qed.

Global Instance same_counts_refl : Reflexive same_counts.
Proof. intros t. by split. Qed.
Global Instance same_counts_trans : Transitive same_counts.
Proof. intros t1 t2 t3 (A1 & A2) (B1 & B2). split; congruence. Qed.

Lemma entry_same_irqs e cls idfield : preserves same_irqs (entry e cls idfield).
Proof. unfold entry, alloc, update. repeat preserves_step; by repeat split. Qed.

Lemma hard_entry_same_irqs e : preserves same_irqs (hard_entry e).
Proof.
  unfold hard_entry. repeat preserves_step; try (by repeat split). apply entry_same_irqs.
Qed.

Lemma soft_entry_same_irqs e : preserves same_irqs (soft_entry e).
Proof.
  unfold soft_entry, update.
  repeat preserves_step; try (by repeat split); apply entry_same_irqs.
Qed.

Lemma soft_raise_same_irqs e : preserves same_irqs (soft_raise e).
Proof. unfold soft_raise. repeat preserves_step; by repeat split. Qed.

Lemma init_irq_consistent : consistent init_irq.
Proof. unfold consistent. cbn. lia. Qed.

Lemma upd_max_eq d ie :
  upd_max d ie
  = mkEntry (e_list ie) (if e_max ie <? d then d else e_max ie) (e_min ie) (e_count ie)
      (e_total ie) (e_raise_max ie) (e_raise_min ie) (e_raise_count ie) (e_raise_total ie).
Proof. unfold upd_max. destruct ie; cbn. by destruct (_ <? _). Qed.

Lemma upd_min_eq d ie :
  upd_min d ie
  = mkEntry (e_list ie) (e_max ie)
      (if (e_min ie =? -1) || (d <? e_min ie) then d else e_min ie) (e_count ie)
      (e_total ie) (e_raise_max ie) (e_raise_min ie) (e_raise_count ie) (e_raise_total ie).
Proof. unfold upd_min. destruct ie; cbn. by destruct (_ || _). Qed.

Lemma upd_raise_max_eq d ie :
  upd_raise_max d ie
  = mkEntry (e_list ie) (e_max ie) (e_min ie) (e_count ie) (e_total ie)
      (if e_raise_max ie <? d then d else e_raise_max ie) (e_raise_min ie)
      (e_raise_count ie) (e_raise_total ie).
Proof. unfold upd_raise_max. destruct ie; cbn. by destruct (_ <? _). Qed.

Lemma upd_raise_min_eq d ie :
  upd_raise_min d ie
  = mkEntry (e_list ie) (e_max ie) (e_min ie) (e_count ie) (e_total ie) (e_raise_max ie)
      (if (e_raise_min ie =? -1) || (d <? e_raise_min ie) then d else e_raise_min ie)
      (e_raise_count ie) (e_raise_total ie).
Proof. unfold upd_raise_min. destruct ie; cbn. by destruct (_ || _). Qed.

Ltac esimpl :=
  cbn [e_list e_max e_min e_count e_total e_raise_max e_raise_min e_raise_count
       e_raise_total].

Lemma compute_stats_consistent ie i r :
  consistent ie ->
  consistent
    (compute_stats
       (mkEntry (e_list ie ++ [i]) (e_max ie) (e_min ie) (e_count ie) (e_total ie)
          (e_raise_max ie) (e_raise_min ie) (e_raise_count ie) (e_raise_total ie)) r).
Proof.
  destruct ie as [l mx mn cnt tot rmx rmn rcnt rtot].
  unfold consistent. esimpl. intros (Hc & Hr & Hm & Hrm).
  unfold compute_stats. cbv zeta.
  set (d := stop_ts r - start_ts r). set (lat := start_ts r - raise_ts r).
  clearbody d lat.
  rewrite upd_max_eq. esimpl. rewrite upd_min_eq. esimpl. unfold add_duration. esimpl.
  destruct (raise_ts r =? -1).
  - esimpl. rewrite length_app. cbn [length].
    destruct (Z.ltb_spec mx d), (Z.eqb_spec mn (-1)), (Z.ltb_spec d mn); cbn [orb]; lia.
  - rewrite upd_raise_max_eq. esimpl. rewrite upd_raise_min_eq. esimpl.
    unfold add_latency. esimpl. rewrite length_app. cbn [length].
    destruct (Z.ltb_spec mx d), (Z.eqb_spec mn (-1)), (Z.ltb_spec d mn),
      (Z.ltb_spec rmx lat), (Z.eqb_spec rmn (-1)), (Z.ltb_spec lat rmn); cbn [orb]; lia.
Qed.

Lemma consistent_insert ity n ie t :
  aggregates_consistent t -> consistent ie ->
  aggregates_consistent (set_irqs ity (<[n := ie]> (irqs ity t)) t).
Proof.
  intros Ht Hie ity' n' ie'. destruct (decide (ity' = ity)) as [->|Hne].
  - rewrite irqs_set_irqs. destruct (decide (n' = n)) as [->|].
    + rewrite lookup_insert_eq. by intros [= <-].
    + rewrite lookup_insert_ne by done. apply Ht.
  - destruct ity, ity'; try done; cbn [irqs set_irqs]; tsimpl.
    + apply (Ht soft_irqs_key n' ie').
    + apply (Ht hard_irqs_key n' ie').
Qed.

Lemma consistent_same_irqs t t' :
  same_irqs t t' -> aggregates_consistent t -> aggregates_consistent t'.
Proof.
  intros (H1 & H2 & _) Ht ity n ie. specialize (Ht ity n ie).
  destruct ity; cbn [irqs] in *; [rewrite H1 | rewrite H2]; exact Ht.
Qed.

Lemma exit_consistent e idfield pck ity args t x t' :
  exit e idfield pck ity args t = Ok (x, t') ->
  aggregates_consistent t -> aggregates_consistent t'.
Proof.
  intros H Ht. unfold exit in H.
  apply bind_Ok in H as (cpu & t0 & H0 & H). apply ev_int_Ok in H0 as [_ ->].
  apply bind_Ok in H as (t0 & t1 & [= <- <-] & H).
  destruct (per_cpu pck t !! cpu) as [[i|]|]; [|by injection H as _ <-..].
  apply bind_Ok in H as (r & t1 & H1 & H). unfold deref in H1.
  apply bind_Ok in H1 as (? & ? & [= <- <-] & H1). apply item_Ok in H1 as [Hr ->].
  apply bind_Ok in H as (id & t1 & H2 & H). apply ev_int_Ok in H2 as [_ ->].
  destruct (negb (nr r =? id)).
  { apply bind_Ok in H as ([] & t1 & [= <-] & [= _ <-]).
    intros ity' n ie. specialize (Ht ity' n ie). by destruct ity', pck. }
  apply bind_Ok in H as ([] & t1 & [= <-] & H).
  apply bind_Ok in H as (r1 & t1 & H1 & H). unfold deref in H1.
  apply bind_Ok in H1 as (? & ? & [= <- <-] & H1). apply item_Ok in H1 as [Hr1 ->].
  apply bind_Ok in H as (t1 & t2 & [= <- <-] & H).
  apply bind_Ok in H as ([] & t2 & H3 & H).
  assert (Ht2 : aggregates_consistent t2).
  { assert (Ht1 : aggregates_consistent
                    (set_heap (alter (fun r => mkIRQ (nr r) (irqclass r) (start_ts r)
                                 (ev_timestamp e) (raise_ts r) (cpu_id r) (ret r)) i (heap t)) t)).
    { intros ity' n ie. rewrite irqs_set_heap. apply Ht. }
    destruct (irqs ity _ !! nr r1).
    - by injection H3 as <-.
    - injection H3 as <-. apply consistent_insert; [done | apply init_irq_consistent]. }
  clear H3 Ht. cbv zeta in H.
  destruct (truthy (args_max args) && _); [by injection H as _ <-|].
  destruct (truthy (args_min args) && _); [by injection H as _ <-|].
  apply bind_Ok in H as (t3 & t4 & [= <- <-] & H).
  apply bind_Ok in H as (ie & t3 & H4 & H). apply item_Ok in H4 as [Hie ->].
  apply bind_Ok in H as ([] & t3 & [= <-] & H).
  apply bind_Ok in H as ([] & t3 & [= <-] & [= _ <-]).
  intros ity' n ie'.
  assert (irqs ity' (set_irq_list (irq_list (set_irqs ity (<[nr r1 := compute_stats
             (mkEntry (e_list ie ++ [i]) (e_max ie) (e_min ie) (e_count ie) (e_total ie)
                (e_raise_max ie) (e_raise_min ie) (e_raise_count ie) (e_raise_total ie)) r1]>
             (irqs ity t2)) t2) ++ [i])
            (set_irqs ity (<[nr r1 := compute_stats
             (mkEntry (e_list ie ++ [i]) (e_max ie) (e_min ie) (e_count ie) (e_total ie)
                (e_raise_max ie) (e_raise_min ie) (e_raise_count ie) (e_raise_total ie)) r1]>
             (irqs ity t2)) t2))
          = irqs ity' (set_irqs ity (<[nr r1 := compute_stats
             (mkEntry (e_list ie ++ [i]) (e_max ie) (e_min ie) (e_count ie) (e_total ie)
                (e_raise_max ie) (e_raise_min ie) (e_raise_count ie) (e_raise_total ie)) r1]>
             (irqs ity t2)) t2)) as -> by (by destruct ity').
  apply consistent_insert; [done|]. apply compute_stats_consistent. by eapply Ht2.
Qed.

Lemma process_consistent args x t t' :
  process args x t = Ok (tt, t') -> aggregates_consistent t -> aggregates_consistent t'.
Proof.
  destruct x as [o e]. unfold process. cbn [fst snd]. destruct o; intros H.
  - apply consistent_same_irqs. by eapply hard_entry_same_irqs.
  - unfold hard_exit in H. apply bind_Ok in H as (x & t1 & H1 & H). intros Ht.
    pose proof (exit_consistent _ _ _ _ _ _ _ _ H1 Ht) as Ht1.
    destruct x; try by injection H as <-.
    apply bind_Ok in H as (v & t2 & Hv & H). apply item_Ok in Hv as [_ ->].
    injection H as <-. intros ity n ie. rewrite irqs_set_heap. apply Ht1.
  - apply consistent_same_irqs. by eapply soft_entry_same_irqs.
  - unfold soft_exit in H. apply bind_Ok in H as (x & t1 & H1 & [= <-]).
    by eapply exit_consistent.
  - apply consistent_same_irqs. by eapply soft_raise_same_irqs.
Qed.

(** X17.  After any trace that the handlers process to the end, and whatever
    the duration filter, every aggregate is consistent: its count is the
    number of intervals in its list, its raise-latency count is between 0
    and its count, its minimum is not above its maximum, and the same for
    the raise-latency minimum and maximum. *)
Theorem run_keeps_aggregates_consistent args h t :
  run args h init = Ok (tt, t) ->
  forall ity n ie, irqs ity t !! n = Some ie -> consistent ie.
Proof.
  revert t. induction h as [|x h IH] using rev_ind; intros t Hrun.
  - injection Hrun as <-. intros [] n ie; cbn; by rewrite lookup_empty.
  - apply run_snoc_Ok in Hrun as (t1 & Hh & Hx).
    exact (process_consistent _ _ _ _ Hx (IH t1 Hh)).
Qed.

Lemma run_keeps_aggregates_consistent_witness :
  exists t ie,
    run no_filter [raise_ev 0 3 50; entry_ev 0 3 60; exit_ev 0 3 90] init = Ok (tt, t) /\
    soft_irqs t !! 3 = Some ie /\ consistent ie.
Proof.
  eexists. eexists.
  assert (Hrun : run no_filter [raise_ev 0 3 50; entry_ev 0 3 60; exit_ev 0 3 90] init
                 = Ok (tt, _)) by (vm_compute; reflexivity).
  split; [exact Hrun|].
  match type of Hrun with
  | _ = Ok (_, ?t0) =>
      assert (Hie : irqs soft_irqs_key t0 !! 3 = Some _) by (vm_compute; reflexivity);
      split; [exact Hie|];
      exact (run_keeps_aggregates_consistent no_filter _ t0 Hrun soft_irqs_key 3 _ Hie)
  end.
Defined.

(** *** The entry counters *)

Lemma entry_same_counts e cls idfield : preserves same_counts (entry e cls idfield).
Proof. unfold entry, alloc, update. repeat preserves_step; by split. Qed.

Lemma exit_same_counts e idfield pck ity args :
  preserves same_counts (exit e idfield pck ity args).
Proof.
  unfold exit, deref, update.
  repeat preserves_step; try (by split); try (split; by destruct pck);
    split; by destruct ity.
Qed.

Lemma hard_entry_counts e t t' :
  hard_entry e t = Ok (tt, t') ->
  hard_count t' = hard_count t + 1 /\ soft_count t' = soft_count t.
Proof.
  unfold hard_entry. intros H.
  apply bind_Ok in H as (cpu & t0 & H0 & H). apply ev_int_Ok in H0 as [_ ->].
  apply bind_Ok in H as (name & t0 & H0 & H). apply item_Ok in H0 as [_ ->].
  apply bind_Ok in H as (irq & t0 & H0 & H). apply ev_int_Ok in H0 as [_ ->].
  apply bind_Ok in H as ([] & t0 & [= <-] & H).
  apply bind_Ok in H as ([] & t0 & [= <-] & H).
  apply bind_Ok in H as (i & t0 & H0 & [= <-]).
  apply entry_same_counts in H0 as [H1 H2]. tsimpl. by rewrite H1, H2.
Qed.

Lemma soft_entry_counts e t t' :
  soft_entry e t = Ok (tt, t') ->
  hard_count t' = hard_count t /\ soft_count t' = soft_count t + 1.
Proof.
  unfold soft_entry. intros H.
  apply bind_Ok in H as (cpu & t0 & H0 & H). apply ev_int_Ok in H0 as [_ ->].
  apply bind_Ok in H as ([] & t0 & [= <-] & H).
  apply bind_Ok in H as (i & t0 & H0 & H).
  apply entry_same_counts in H0 as [H1 H2].
  cbn [hard_count soft_count set_soft_count] in H1, H2.
  match type of H with
  | ?c _ = _ => assert (HP : preserves same_counts c)
  end.
  { unfold update. repeat preserves_step; by split. }
  apply HP in H as [H3 H4]. by rewrite H3, H4, H1, H2.
Qed.

Lemma routed_snoc o h x :
  routed o (h ++ [x]) = routed o h + (if decide (fst x = o) then 1 else 0).
Proof.
  unfold routed. rewrite filter_app, length_app, filter_cons, filter_nil.
  destruct (decide (fst x = o)); cbn [length]; lia.
Qed.

(** X18.  After any trace that the handlers process to the end, [hard_count] is
    the number of hard-IRQ entry events of the trace and [soft_count] the
    number of soft-IRQ entry events: the counters count entries, whether
    or not an exit follows and whether or not the interval passes the
    duration filter. *)
Theorem run_counts_entries args h t :
  run args h init = Ok (tt, t) ->
  hard_count t = routed HardEntry h /\ soft_count t = routed SoftEntry h.
Proof.
  revert t. induction h as [|[o e] h IH] using rev_ind; intros t Hrun.
  - by injection Hrun as <-.
  - apply run_snoc_Ok in Hrun as (t1 & Hh & Hx). destruct (IH t1 Hh) as [IH1 IH2].
    rewrite !routed_snoc. cbn [fst]. unfold process in Hx. cbn [fst snd] in Hx.
    destruct o.
    + apply hard_entry_counts in Hx as [-> ->]. rewrite IH1, IH2.
      rewrite decide_True by done. rewrite decide_False by done. lia.
    + assert (HP : preserves same_counts (hard_exit e args)).
      { unfold hard_exit, update. repeat preserves_step; try (by split).
        apply exit_same_counts. }
      apply HP in Hx as [-> ->]. rewrite !decide_False by done. lia.
    + apply soft_entry_counts in Hx as [-> ->]. rewrite IH1, IH2.
      rewrite decide_False by done. rewrite decide_True by done. lia.
    + assert (HP : preserves same_counts (soft_exit e args)).
      { unfold soft_exit. repeat preserves_step; try (by split). apply exit_same_counts. }
      apply HP in Hx as [-> ->]. rewrite !decide_False by done. lia.
    + assert (HP : preserves same_counts (soft_raise e)).
      { unfold soft_raise. repeat preserves_step; by split. }
      apply HP in Hx as [-> ->]. rewrite !decide_False by done. lia.
Qed.

(** An entry that is filtered at its exit is counted. *)
Lemma run_counts_entries_witness :
  exists t,
    run (mkArgs (Some 1) None) [irq_entry_ev 0 1 0 "timer"; irq_exit_ev 0 1 5000 0] init
      = Ok (tt, t) /\
    hard_count t = 1 /\ soft_count t = 0 /\ irq_list t = [].
Proof.
  eexists.
  assert (Hrun : run (mkArgs (Some 1) None)
                   [irq_entry_ev 0 1 0 "timer"; irq_exit_ev 0 1 5000 0] init = Ok (tt, _))
    by (vm_compute; reflexivity).
  destruct (run_counts_entries _ _ _ Hrun) as [H1 H2].
  split; [exact Hrun|]. split; [exact H1|]. split; [exact H2|]. reflexivity.
Defined.

(** *** A hard IRQ that completes *)

(** X16.  A hard-IRQ exit that matches the record in flight on its CPU and
    passes the duration filter completes the record: the record gets the
    timestamp of the exit as stop timestamp and the [ret] field of the
    event, it is appended to the global list, and the aggregate of the IRQ
    gets one more interval, whose duration is added to its total.  The
    slot of the CPU still holds the record afterwards. *)
Theorem hard_exit_completes e args t c id v i r :
  ev_get e "cpu_id" = Some (VInt c) ->
  ev_get e "irq" = Some (VInt id) ->
  ev_get e "ret" = Some v ->
  hard_per_cpu t !! c = Some (Some i) ->
  heap t !! i = Some r ->
  nr r = id ->
  filtered args (ev_timestamp e - start_ts r) = false ->
  exists t' ie',
    hard_exit e args t = Ok (tt, t') /\
    heap t' !! i = Some (mkIRQ (nr r) (irqclass r) (start_ts r) (ev_timestamp e)
                           (raise_ts r) (cpu_id r) (Some v)) /\
    irq_list t' = irq_list t ++ [i] /\
    hard_irqs t' !! id = Some ie' /\
    e_list ie' = e_list (default init_irq (hard_irqs t !! id)) ++ [i] /\
    e_count ie' = e_count (default init_irq (hard_irqs t !! id)) + 1 /\
    e_total ie' = e_total (default init_irq (hard_irqs t !! id))
                  + (ev_timestamp e - start_ts r) /\
    hard_per_cpu t' !! c = Some (Some i).
Proof.
  intros Hc Hid Hv Hslot Hr Hnr Hf.
  unfold hard_exit. unfold bind_M at 1.
  rewrite (exit_recorded e "irq" hard_per_cpu_key hard_irqs_key args t c id i r
             Hc Hid Hslot Hr Hnr Hf).
  unfold ev_item, update. unfold bind_M, item_M, unit_M, modify_M. rewrite Hv.
  eexists. eexists. split; [reflexivity|]. cbn [irqs set_irqs]. tsimpl.
  rewrite !lookup_alter_eq, Hr. tsimpl. split; [reflexivity|]. split; [reflexivity|].
  rewrite lookup_insert_eq. split; [reflexivity|].
  unfold with_sample.
  match goal with |- context [compute_stats ?ie ?r] =>
    destruct (compute_stats_sample ie r) as (H1 & H2 & _);
    assert (H0 : e_list (compute_stats ie r) = e_list ie)
  end.
  { unfold compute_stats. cbv zeta. rewrite upd_max_eq. esimpl. rewrite upd_min_eq. esimpl.
    unfold add_duration. esimpl. destruct (_ =? -1); [reflexivity|].
    rewrite upd_raise_max_eq. esimpl. rewrite upd_raise_min_eq. reflexivity. }
  rewrite H0, H1, H2. esimpl. tsimpl. done.
Qed.

Lemma hard_exit_completes_witness :
  exists t t',
    run no_filter [irq_entry_ev 0 1 100 "timer"] init = Ok (tt, t) /\
    hard_exit (snd (irq_exit_ev 0 1 130 1)) no_filter t = Ok (tt, t') /\
    irq_list t' = [0%nat] /\ hard_per_cpu t' !! 0 = Some (Some 0%nat).
Proof.
  eexists.
  assert (Hrun : run no_filter [irq_entry_ev 0 1 100 "timer"] init = Ok (tt, _))
    by (vm_compute; reflexivity).
  match type of Hrun with
  | _ = Ok (_, ?t0) =>
      destruct (hard_exit_completes (snd (irq_exit_ev 0 1 130 1)) no_filter t0 0 1 (VInt 1)
                  0%nat (mkIRQ 1 HARD_IRQ 100 (-1) (-1) 0 None)
                  eq_refl eq_refl eq_refl eq_refl eq_refl eq_refl eq_refl)
        as (t' & ie' & Hexit & _ & Hlist & _ & _ & _ & _ & Hslot)
  end.
  exists t'. split; [exact Hrun|]. split; [exact Hexit|]. split; [exact Hlist | exact Hslot].
Defined.

(** *** The raise latency of a soft IRQ, over any trace *)

Global Instance same_records_refl : Reflexive same_records.
Proof. intros t. split; [done|]. eauto. Qed.
Global Instance same_records_trans : Transitive same_records.
Proof.
  intros t1 t2 t3 [A1 A2] [B1 B2]. split; [congruence|]. intros i r Hr.
  destruct (A2 i r Hr) as (r2 & Hr2 & ? & ? & ?).
  destruct (B2 i r2 Hr2) as (r3 & Hr3 & ? & ? & ?).
  exists r3. repeat split; congruence.
Qed.

Global Instance same_soft_refl : Reflexive same_soft.
Proof. by intros t. Qed.
Global Instance same_soft_trans : Transitive same_soft.
Proof. intros t1 t2 t3 [A1 A2] [B1 B2]. split; congruence. Qed.

Ltac records_leaf :=
  idtac;
  match goal with
  | |- same_records ?t _ =>
      let i := fresh "i" in let r := fresh "r" in let Hr := fresh "Hr" in
      split; [reflexivity|]; intros i r Hr; tsimpl;
      first
        [ solve [eauto]
        | rewrite lookup_alter; case_decide; [subst; rewrite Hr | solve [eauto]];
          cbn; eexists; split; [reflexivity|]; repeat split; reflexivity ]
  end.

Lemma exit_same_records e idfield pck ity args :
  preserves same_records (exit e idfield pck ity args).
Proof.
  unfold exit, deref, update.
  destruct pck, ity; cbn [per_cpu set_per_cpu irqs set_irqs];
    repeat first [preserves_step | records_leaf].
Qed.

Lemma hard_exit_same_records e args : preserves same_records (hard_exit e args).
Proof.
  unfold hard_exit, update.
  repeat first [preserves_step | apply exit_same_records | records_leaf].
Qed.

Lemma soft_exit_same_records e args : preserves same_records (soft_exit e args).
Proof.
  unfold soft_exit. repeat first [preserves_step | apply exit_same_records].
Qed.

Lemma soft_raise_same_records e : preserves same_records (soft_raise e).
Proof. unfold soft_raise. repeat first [preserves_step | records_leaf]. Qed.

Ltac soft_leaf :=
  idtac;
  match goal with
  | |- same_soft ?t _ => split; reflexivity
  end.

Lemma hard_exit_same_soft e args : preserves same_soft (hard_exit e args).
Proof.
  unfold hard_exit, exit, deref, update. cbn [per_cpu set_per_cpu irqs set_irqs].
  repeat first [preserves_step | soft_leaf].
Qed.

Lemma hard_entry_same_soft e : preserves same_soft (hard_entry e).
Proof.
  unfold hard_entry, entry, alloc, update. repeat first [preserves_step | soft_leaf].
Qed.

Lemma soft_raise_same_soft e : preserves same_soft (soft_raise e).
Proof. unfold soft_raise. repeat first [preserves_step | soft_leaf]. Qed.

(** A hard-IRQ entry allocates one record and leaves the others. *)
Lemma hard_entry_heap e t t' :
  hard_entry e t = Ok (tt, t') ->
  next t' = S (next t) /\ forall i, i <> next t -> heap t' !! i = heap t !! i.
Proof.
  unfold hard_entry. intros H.
  apply bind_Ok in H as (cpu & t0 & H0 & H). apply ev_int_Ok in H0 as [Hc ->].
  apply bind_Ok in H as (name & t0 & H0 & H). apply item_Ok in H0 as [_ ->].
  apply bind_Ok in H as (irq & t0 & H0 & H). apply ev_int_Ok in H0 as [Hirq ->].
  apply bind_Ok in H as ([] & t0 & [= <-] & H).
  apply bind_Ok in H as ([] & t0 & [= <-] & H).
  apply bind_Ok in H as (i & t0 & H0 & [= <-]).
  rewrite (entry_run _ _ _ _ cpu irq Hc Hirq) in H0. injection H0 as <- <-.
  tsimpl. split; [done|]. intros j Hj. by rewrite lookup_insert_ne.
Qed.

Lemma exit_mismatch e idfield pck ity args t c id i r :
  ev_get e "cpu_id" = Some (VInt c) ->
  ev_get e idfield = Some (VInt id) ->
  per_cpu pck t !! c = Some (Some i) ->
  heap t !! i = Some r ->
  nr r <> id ->
  exit e idfield pck ity args t
    = Ok (RetNone, set_per_cpu pck (<[c := None]> (per_cpu pck t)) t).
Proof.
  intros Hc Hid Hslot Hr Hne. unfold exit, bind_M at 1.
  rewrite (ev_int_run _ _ _ _ Hc). unfold bind_M at 1, get_M at 1. rewrite Hslot.
  unfold deref. unfold bind_M, get_M, item_M, unit_M, modify_M. rewrite Hr.
  rewrite (ev_int_run _ _ _ _ Hid).
  destruct (Z.eqb_spec (nr r) id); [done | reflexivity].
Qed.

(** What a soft-IRQ exit that returns has found in the slot of its CPU. *)
Lemma exit_reads e idfield pck ity args t x t' :
  exit e idfield pck ity args t = Ok (x, t') ->
  exists c, ev_get e "cpu_id" = Some (VInt c) /\
    ((per_cpu pck t !! c = None \/ per_cpu pck t !! c = Some None)
     \/ exists (i : loc) r id, per_cpu pck t !! c = Some (Some i) /\ heap t !! i = Some r /\
          ev_get e idfield = Some (VInt id)).
Proof.
  unfold exit. intros H.
  apply bind_Ok in H as (c & t0 & H0 & H). apply ev_int_Ok in H0 as [Hc ->].
  exists c. split; [done|].
  apply bind_Ok in H as (t0 & t1 & [= <- <-] & H).
  destruct (per_cpu pck t !! c) as [[i|]|] eqn:Hslot; [|by left; right | by left; left].
  right. apply bind_Ok in H as (r & t1 & H0 & H).
  unfold deref in H0. apply bind_Ok in H0 as (t2 & t3 & [= <- <-] & H0).
  apply item_Ok in H0 as [Hr ->].
  apply bind_Ok in H as (id & t1 & H0 & H). apply ev_int_Ok in H0 as [Hid ->].
  eauto 10.
Qed.

Lemma soft_exit_cases e args t t' :
  soft_exit e args t = Ok (tt, t') ->
  exists c, ev_get e "cpu_id" = Some (VInt c) /\
    (((soft_per_cpu t !! c = None \/ soft_per_cpu t !! c = Some None) /\ t' = t)
     \/ exists (i : loc) r id,
          soft_per_cpu t !! c = Some (Some i) /\ heap t !! i = Some r /\
          ev_get e "vec" = Some (VInt id) /\
          ((nr r <> id /\ t' = set_soft_per_cpu (<[c := None]> (soft_per_cpu t)) t)
           \/ (nr r = id /\ soft_per_cpu t' = soft_per_cpu t /\
               ((filtered args (ev_timestamp e - start_ts r) = true /\
                 forall v, soft_stats t' v = soft_stats t v)
                \/ (filtered args (ev_timestamp e - start_ts r) = false /\
                    soft_irqs t' = <[id := with_sample (soft_stats t id) i
                                             (stopped r (ev_timestamp e))]> (soft_irqs t)))))).
Proof.
  unfold soft_exit. intros H. apply bind_Ok in H as (x & t1 & H & [= <-]).
  destruct (exit_reads _ _ _ _ _ _ _ _ H) as (c & Hc & [Hnone | (i & r & id & Hslot & Hr & Hid)]).
  - exists c. split; [done|]. left. split; [done|].
    rewrite (exit_none e "vec" soft_per_cpu_key soft_irqs_key args t c Hc Hnone) in H.
    by injection H as _ <-.
  - exists c. split; [done|]. right. exists i, r, id. do 3 (split; [done|]).
    destruct (decide (nr r = id)) as [Heq|Hne].
    + right. split; [done|].
      destruct (filtered args (ev_timestamp e - start_ts r)) eqn:Hf.
      * rewrite (exit_filtered e "vec" soft_per_cpu_key soft_irqs_key args t c id i r
                   Hc Hid Hslot Hr Heq Hf) in H.
        injection H as _ <-. cbv zeta. cbn [irqs set_irqs].
        destruct (soft_irqs t !! id) as [ie|] eqn:E.
        -- split; [done|]. left. split; [done|]. intros v. done.
        -- split; [done|]. left. split; [done|]. intros v. unfold soft_stats. tsimpl.
           destruct (decide (v = id)) as [->|].
           ++ by rewrite lookup_insert_eq, E.
           ++ by rewrite lookup_insert_ne.
      * rewrite (exit_recorded e "vec" soft_per_cpu_key soft_irqs_key args t c id i r
                   Hc Hid Hslot Hr Heq Hf) in H.
        injection H as _ <-. cbn [irqs set_irqs]. tsimpl.
        split; [done|]. right. split; [done|]. reflexivity.
    + left. split; [done|].
      rewrite (exit_mismatch e "vec" soft_per_cpu_key soft_irqs_key args t c id i r
                 Hc Hid Hslot Hr Hne) in H.
      by injection H as _ <-.
Qed.

(** Every handler keeps the records that are allocated. *)
Lemma step_records args x t t' :
  process args x t = Ok (tt, t') ->
  (next t <= next t')%nat /\
  forall (i : loc) r, (i < next t)%nat -> heap t !! i = Some r ->
    exists r', heap t' !! i = Some r' /\ nr r' = nr r /\ start_ts r' = start_ts r
      /\ raise_ts r' = raise_ts r.
Proof.
  destruct x as [o e]. unfold process. cbn [fst snd]. intros H.
  assert (Hsame : same_records t t' ->
          (next t <= next t')%nat /\
          forall (i : loc) r, (i < next t)%nat -> heap t !! i = Some r ->
            exists r', heap t' !! i = Some r' /\ nr r' = nr r /\ start_ts r' = start_ts r
              /\ raise_ts r' = raise_ts r).
  { intros [E1 E2]. split; [lia|]. intros i r _ Hr. by apply E2. }
  destruct o.
  - apply hard_entry_heap in H as [E1 E2]. split; [lia|]. intros i r Hi Hr.
    exists r. rewrite E2 by lia. done.
  - apply Hsame. by eapply hard_exit_same_records.
  - destruct (soft_entry_Ok _ _ _ H) as (c & v & Hc & Hv).
    rewrite (soft_entry_run _ _ _ _ Hc Hv) in H. injection H as <-. tsimpl.
    split; [lia|]. intros i r Hi Hr. exists r. rewrite lookup_insert_ne by lia. done.
  - apply Hsame. by eapply soft_exit_same_records.
  - apply Hsame. by eapply soft_raise_same_records.
Qed.

(** What a handler does to the slot of a CPU: a soft-IRQ entry on the CPU
    fills it with a new record; an exit on the CPU for another vector than
    that of its record clears it; everything else leaves it. *)
Lemma step_slot args x t t' cpu :
  process args x t = Ok (tt, t') ->
  (is_entry_on cpu x /\
   exists vec r, ev_get (snd x) "vec" = Some (VInt vec) /\
     soft_per_cpu t' !! cpu = Some (Some (next t)) /\ (next t < next t')%nat /\
     heap t' !! next t = Some r /\ nr r = vec /\ start_ts r = ev_timestamp (snd x) /\
     raise_ts r = raised_at cpu vec (raise_per_cpu t))
  \/ (~ is_entry_on cpu x /\
      ((soft_per_cpu t' !! cpu = soft_per_cpu t !! cpu /\
        forall (i : loc) r, soft_per_cpu t !! cpu = Some (Some i) -> heap t !! i = Some r ->
          ~ is_exit_of_other cpu (nr r) x)
       \/ (soft_per_cpu t' !! cpu = Some None /\
           exists (i : loc) r, soft_per_cpu t !! cpu = Some (Some i) /\ heap t !! i = Some r /\
             is_exit_of_other cpu (nr r) x))).
Proof.
  destruct x as [o e]. unfold process, is_entry_on, is_exit_of_other. cbn [fst snd]. intros H.
  destruct o.
  - right. split; [by intros [? _]|]. left.
    apply hard_entry_same_soft in H as [-> _]. split; [done|]. by intros i r _ _ [? _].
  - right. split; [by intros [? _]|]. left.
    apply hard_exit_same_soft in H as [-> _]. split; [done|]. by intros i r _ _ [? _].
  - destruct (soft_entry_Ok _ _ _ H) as (c & v & Hc & Hv).
    rewrite (soft_entry_run _ _ _ _ Hc Hv) in H. injection H as <-. tsimpl.
    destruct (decide (cpu = c)) as [->|Hne].
    + left. split; [done|]. eexists v, _. split; [done|].
      rewrite !lookup_insert_eq. repeat split; try reflexivity. lia.
    + right. split; [intros [_ ?]; congruence|]. left.
      rewrite lookup_insert_ne by done. split; [done|]. by intros i r _ _ [? _].
  - right. split; [by intros [? _]|].
    destruct (soft_exit_cases _ _ _ _ H) as (c & Hc & Hcases).
    destruct (decide (cpu = c)) as [->|Hne].
    + destruct Hcases as [[Hnone ->] | (i & r & id & Hslot & Hr & Hid & Hcases)].
      * left. split; [done|]. intros i r Hslot. destruct Hnone; congruence.
      * destruct Hcases as [[Hn ->] | (Heq & Hsl & _)].
        -- right. tsimpl. rewrite lookup_insert_eq. split; [done|].
           exists i, r. repeat split; try done. congruence.
        -- left. rewrite Hsl. split; [done|]. intros i' r' Hslot' Hr' (_ & _ & Hv).
           assert (i' = i) as -> by congruence. assert (r' = r) as -> by congruence.
           congruence.
    + left. split.
      * destruct Hcases as [[_ ->] | (i & r & id & Hslot & Hr & Hid & Hcases)]; [done|].
        destruct Hcases as [[Hn ->] | (Heq & Hsl & _)].
        -- tsimpl. by rewrite lookup_insert_ne.
        -- by rewrite Hsl.
      * intros i r _ _ (_ & Hc' & _). congruence.
  - right. split; [by intros [? _]|]. left.
    apply soft_raise_same_soft in H as [-> _]. split; [done|]. by intros i r _ _ [? _].
Qed.

Lemma entry_in_flight_nil cpu vec pre en : ~ entry_in_flight cpu vec pre en [].
Proof. intros (post & H & _). by destruct pre. Qed.

Lemma entry_in_flight_snoc cpu vec pre en h x :
  entry_in_flight cpu vec pre en (h ++ [x]) <->
  (pre = h /\ en = x /\ is_entry_of cpu vec x)
  \/ (entry_in_flight cpu vec pre en h /\ ~ is_entry_on cpu x /\
      ~ is_exit_of_other cpu vec x).
Proof.
  split.
  - intros (post & Heq & Hen & Hpost).
    destruct post as [|z post _] using rev_ind.
    + symmetry in Heq. apply (app_inj_tail pre h en x) in Heq as [-> ->]. by left.
    + symmetry in Heq. rewrite app_comm_cons, app_assoc in Heq.
      apply app_inj_tail in Heq as [<- ->]. right.
      destruct (Hpost x) as [? ?]; [apply elem_of_app; right; by apply list_elem_of_singleton|].
      split; [|done]. exists post. split; [done|]. split; [done|].
      intros w Hw. apply Hpost. apply elem_of_app; by left.
  - intros [(-> & -> & Hx) | ((post & -> & Hen & Hpost) & Hne & Hnx)].
    + exists []. split; [done|]. split; [done|]. intros w Hw. by apply elem_of_nil in Hw.
    + exists (post ++ [x]). split; [by rewrite <- app_assoc|]. split; [done|].
      intros w [Hw | ->%list_elem_of_singleton]%elem_of_app; [by apply Hpost | done].
Qed.

(** The record of the entry in flight is in the slot of its CPU. *)
Lemma in_flight_record args h t cpu vec pre en :
  run args h init = Ok (tt, t) ->
  entry_in_flight cpu vec pre en h ->
  exists (i : loc) r tp,
    soft_per_cpu t !! cpu = Some (Some i) /\ (i < next t)%nat /\ heap t !! i = Some r /\
    nr r = vec /\ start_ts r = ev_timestamp (snd en) /\
    run args pre init = Ok (tt, tp) /\
    raise_ts r = raised_at cpu vec (raise_per_cpu tp).
Proof.
  revert t. induction h as [|x h IH] using rev_ind; intros t Hrun Hfl.
  - by apply entry_in_flight_nil in Hfl.
  - apply run_snoc_Ok in Hrun as (t1 & Hh & Hx).
    destruct (step_records _ _ _ _ Hx) as [Hnext Hrec].
    apply entry_in_flight_snoc in Hfl as [(-> & -> & Hen) | (Hfl & Hne & Hnx)].
    + destruct (step_slot _ _ _ _ cpu Hx) as [(_ & v & r & Hv & Hs & Hn & Hr & E1 & E2 & E3) | [Hno _]].
      * destruct Hen as (_ & _ & Hv'). assert (v = vec) as -> by congruence.
        exists (next t1), r, t1. repeat split; try done.
      * destruct Hen as (? & ? & _). by destruct Hno.
    + destruct (IH t1 Hh Hfl) as (i & r & tp & Hs & Hi & Hr & E1 & E2 & Hp & E3).
      destruct (Hrec i r Hi Hr) as (r' & Hr' & F1 & F2 & F3).
      exists i, r', tp.
      destruct (step_slot _ _ _ _ cpu Hx) as [[Hyes _] | [_ [[Hsl _] | (_ & i0 & r0 & Hs0 & Hr0 & Hx0)]]].
      * done.
      * split; [exact (eq_trans Hsl Hs)|]. repeat split; try congruence. lia.
      * assert (i0 = i) as -> by congruence. assert (r0 = r) as -> by congruence.
        rewrite E1 in Hx0. done.
Qed.

(** The record in the slot of a CPU is that of the entry in flight. *)
Lemma slot_in_flight args h t cpu (i : loc) :
  run args h init = Ok (tt, t) ->
  soft_per_cpu t !! cpu = Some (Some i) ->
  exists r pre en,
    (i < next t)%nat /\ heap t !! i = Some r /\
    entry_in_flight cpu (nr r) pre en h /\ start_ts r = ev_timestamp (snd en).
Proof.
  revert t i. induction h as [|x h IH] using rev_ind; intros t i Hrun Hslot.
  - injection Hrun as <-. cbn in Hslot. by rewrite lookup_empty in Hslot.
  - apply run_snoc_Ok in Hrun as (t1 & Hh & Hx).
    destruct (step_records _ _ _ _ Hx) as [Hnext Hrec].
    destruct (step_slot _ _ _ _ cpu Hx)
      as [([Ho Hc] & v & r & Hv & Hs & Hn & Hr & E1 & E2 & E3) | [Hne [[Hsl Hnx] | [Hs _]]]].
    + assert (i = next t1) as -> by congruence.
      exists r, h, x. repeat split; try done.
      apply entry_in_flight_snoc. left. repeat split; try done. by rewrite E1.
    + pose proof (eq_trans (eq_sym Hsl) Hslot) as Hslot1.
      destruct (IH t1 i Hh Hslot1) as (r & pre & en & Hi & Hr & Hfl & E).
      destruct (Hrec i r Hi Hr) as (r' & Hr' & F1 & F2 & F3).
      exists r', pre, en. split; [lia|]. split; [done|]. split; [|congruence].
      apply entry_in_flight_snoc. right. rewrite F1. split; [done|]. split; [done|].
      by apply (Hnx i r).
    + congruence.
Qed.

Lemma soft_stats_same t t' vec : soft_irqs t' = soft_irqs t -> soft_stats t' vec = soft_stats t vec.
Proof. unfold soft_stats. by intros ->. Qed.

(** C6 (amended).  For every history [h] that the handlers process to the
    end (timestamps non-negative, [-1] being the mark of a record without
    raise) and every event [x] processed after it, and for every vector:
    when [x] is a soft-IRQ exit of the vector on a CPU whose record in
    flight is for that vector ([entry_in_flight]: the last soft-IRQ entry
    [en] on that CPU, not discarded since by an exit for another vector)
    and the duration passes the filter, [x] adds one sample to the
    aggregate of the vector (count, and total by the duration); the sample
    carries a raise latency, the timestamp of [en] minus that of the raise,
    when at the time of [en] the last raise on that CPU was for the vector
    with no soft-IRQ entry of the vector on that CPU after it
    ([raise_pending] in the history [pre] before [en]), and none when there
    was no such raise.  In every other case (another kind of event, no such
    record in flight, a filtered duration) [x] leaves the aggregate of the
    vector as it is.  In particular raise(3) at 50, entry(3) at 60, exit(3)
    at 90 on CPU 0 without filter end with raise_total 10, count 1 and
    total 30. *)
Theorem soft_raise_latency_recorded :
  (forall args h x t t',
     (forall y, y ∈ h -> 0 <= ev_timestamp (snd y)) ->
     run args h init = Ok (tt, t) ->
     process args x t = Ok (tt, t') ->
     forall vec,
       (forall cpu pre en,
          is_exit_of cpu vec x -> entry_in_flight cpu vec pre en h ->
          filtered args (ev_timestamp (snd x) - ev_timestamp (snd en)) = false ->
          e_count (soft_stats t' vec) = e_count (soft_stats t vec) + 1 /\
          e_total (soft_stats t' vec)
            = e_total (soft_stats t vec) + (ev_timestamp (snd x) - ev_timestamp (snd en)) /\
          (forall ts, raise_pending cpu vec ts pre ->
             e_raise_count (soft_stats t' vec) = e_raise_count (soft_stats t vec) + 1 /\
             e_raise_total (soft_stats t' vec)
               = e_raise_total (soft_stats t vec) + (ev_timestamp (snd en) - ts)) /\
          ((forall ts, ~ raise_pending cpu vec ts pre) ->
             e_raise_count (soft_stats t' vec) = e_raise_count (soft_stats t vec) /\
             e_raise_total (soft_stats t' vec) = e_raise_total (soft_stats t vec)))
       /\
       ((forall cpu pre en,
           is_exit_of cpu vec x -> entry_in_flight cpu vec pre en h ->
           filtered args (ev_timestamp (snd x) - ev_timestamp (snd en)) = true) ->
        soft_stats t' vec = soft_stats t vec))
  /\
  (exists t',
     run no_filter [raise_ev 0 3 50; entry_ev 0 3 60; exit_ev 0 3 90] init = Ok (tt, t') /\
     e_raise_total (soft_stats t' 3) = 10 /\
     e_count (soft_stats t' 3) = 1 /\
     e_total (soft_stats t' 3) = 30).
Proof.
  split.
  - intros args h [o e] t t' Hts Hrun Hx vec. cbn [fst snd]. split.
    + intros cpu pre en (Ho & Hc & Hv) Hfl Hf. cbn [fst snd] in Ho, Hc, Hv. subst o.
      destruct (in_flight_record args h t cpu vec pre en Hrun Hfl)
        as (i & r & tp & Hs & Hi & Hr & E1 & E2 & Hp & E3).
      unfold process in Hx. cbn [fst snd] in Hx. unfold soft_exit in Hx.
      apply bind_Ok in Hx as (x0 & t1 & Hx & [= <-]).
      rewrite <- E2 in Hf.
      rewrite (exit_recorded e "vec" soft_per_cpu_key soft_irqs_key args t cpu vec i r
                 Hc Hv Hs Hr E1 Hf) in Hx.
      injection Hx as _ <-.
      unfold soft_stats at 1 3 5 7 9 11. cbn [irqs set_irqs]. tsimpl.
      rewrite lookup_insert_eq. cbn [default from_option id].
      fold (soft_stats t vec). unfold with_sample.
      match goal with |- context [compute_stats ?ie ?r] =>
        destruct (compute_stats_sample ie r) as (H1 & H2 & H3 & H4) end.
      rewrite H1, H2, H3, H4. unfold stopped.
      cbn [e_count e_total e_raise_count e_raise_total stop_ts start_ts raise_ts].
      rewrite E2, E3. split; [done|]. split; [done|]. split.
      * intros ts Hpend. destruct (raise_pending_in _ _ _ _ Hpend) as (y & Hy & Hyts).
        assert (Hin : y ∈ h).
        { destruct Hfl as (post & -> & _). apply elem_of_app. by left. }
        specialize (Hts y Hin). rewrite Hyts in Hts.
        apply (pending_slot args pre tp Hp) in Hpend. unfold raised_at. rewrite Hpend.
        rewrite Z.eqb_refl. destruct (Z.eqb_spec ts (-1)); [lia | done].
      * intros Hnone. unfold raised_at.
        destruct (raise_per_cpu tp !! cpu) as [[[rts rvec]|]|] eqn:E; try done.
        destruct (Z.eqb_spec rvec vec) as [->|]; [|done].
        apply (pending_slot args pre tp Hp) in E. by apply Hnone in E.
    + intros Hno. unfold process in Hx. cbn [fst snd] in Hx.
      destruct o.
      * apply soft_stats_same. by apply hard_entry_same_soft in Hx as [_ ?].
      * apply soft_stats_same. by apply hard_exit_same_soft in Hx as [_ ?].
      * apply soft_stats_same. by apply soft_entry_same_irqs in Hx as (_ & ? & _).
      * destruct (soft_exit_cases _ _ _ _ Hx)
          as (c & Hc & [[_ ->] | (i & r & id & Hs & Hr & Hid & Hcases)]); [done|].
        destruct Hcases as [[_ ->] | (Heq & _ & [[_ Hsame] | [Hf Hirqs]])]; [done | done |].
        destruct (decide (vec = id)) as [->|Hne].
        -- destruct (slot_in_flight args h t c i Hrun Hs) as (r0 & pre & en & _ & Hr0 & Hfl & E).
           assert (r0 = r) as -> by congruence. rewrite Heq in Hfl.
           specialize (Hno c pre en (conj eq_refl (conj Hc Hid)) Hfl).
           cbn [snd] in Hno. rewrite <- E in Hno. congruence.
        -- unfold soft_stats. rewrite Hirqs. by rewrite lookup_insert_ne.
      * apply soft_stats_same. by apply soft_raise_same_soft in Hx as [_ ?].
  - eexists. split; [vm_compute; reflexivity|]. vm_compute. done.
Qed.

Lemma soft_raise_latency_witness :
  exists t t',
    run no_filter [raise_ev 0 3 50; entry_ev 0 3 60; irq_entry_ev 0 1 70 "timer";
                   irq_exit_ev 0 1 80 0; raise_ev 0 4 85] init = Ok (tt, t) /\
    process no_filter (exit_ev 0 3 90) t = Ok (tt, t') /\
    e_raise_count (soft_stats t' 3) = e_raise_count (soft_stats t 3) + 1 /\
    e_raise_total (soft_stats t' 3) = e_raise_total (soft_stats t 3) + (60 - 50).
Proof.
  assert (Hts : forall y,
            y ∈ [raise_ev 0 3 50; entry_ev 0 3 60; irq_entry_ev 0 1 70 "timer";
                 irq_exit_ev 0 1 80 0; raise_ev 0 4 85] -> 0 <= ev_timestamp (snd y)).
  { intros y Hy.
    repeat (apply elem_of_cons in Hy as [-> | Hy]; [simpl; lia|]).
    by apply elem_of_nil in Hy. }
  assert (Hfl : entry_in_flight 0 3 [raise_ev 0 3 50] (entry_ev 0 3 60)
                  [raise_ev 0 3 50; entry_ev 0 3 60; irq_entry_ev 0 1 70 "timer";
                   irq_exit_ev 0 1 80 0; raise_ev 0 4 85]).
  { exists [irq_entry_ev 0 1 70 "timer"; irq_exit_ev 0 1 80 0; raise_ev 0 4 85].
    split; [reflexivity|]. split; [repeat split; reflexivity|].
    intros y Hy.
    repeat (apply elem_of_cons in Hy as [-> | Hy];
            [split; intros [Hk _]; discriminate Hk|]).
    by apply elem_of_nil in Hy. }
  assert (Hp : raise_pending 0 3 50 [raise_ev 0 3 50]).
  { exists [], (raise_ev 0 3 50), []. split; [reflexivity|]. split.
    - repeat split; reflexivity.
    - intros y Hy. by apply elem_of_nil in Hy. }
  assert (Hex : is_exit_of 0 3 (exit_ev 0 3 90)) by (repeat split; reflexivity).
  assert (Hrun : run no_filter [raise_ev 0 3 50; entry_ev 0 3 60; irq_entry_ev 0 1 70 "timer";
                   irq_exit_ev 0 1 80 0; raise_ev 0 4 85] init = Ok (tt, _))
    by (vm_compute; reflexivity).
  match type of Hrun with
  | _ = Ok (_, ?t0) =>
      assert (Hx : process no_filter (exit_ev 0 3 90) t0 = Ok (tt, _))
        by (vm_compute; reflexivity)
  end.
  pose proof (proj1 (proj1 soft_raise_latency_recorded no_filter _ (exit_ev 0 3 90) _ _
                     Hts Hrun Hx 3) 0 [raise_ev 0 3 50] (entry_ev 0 3 60) Hex Hfl eq_refl)
    as (_ & _ & Hraise & _).
  eexists; eexists; split; [exact Hrun|]; split; [exact Hx|]; exact (Hraise 50 Hp).
Defined.

End IrqProps.

(** ** The entity tables, the syscall correlator and the statedump reconciler *)

Module AutomatonProps.
Import Automaton.

(** *** Tactics: projections of the records, and the frame of a handler *)

Ltac ssimpl :=
  cbv beta iota;
  cbn [cpus tids disks syscalls syscalls_total pending_syscalls procs fdheap rqheap
       diskheap next fresh
       set_cpus set_tids set_disks set_syscalls set_syscalls_total set_pending_syscalls
       set_procs set_fdheap set_rqheap set_diskheap set_next
       fst snd negb andb orb fmap option_fmap option_map].

Ltac psimpl :=
  cbn [p_tid p_pid p_comm p_fds p_closed_fds p_chrono_fds p_current_syscall p_net_read
       p_net_write p_disk_read p_disk_write p_unk_read p_unk_write p_read p_write
       p_prev_tid p_syscalls p_total_syscalls p_iorequests
       set_p_tid set_p_pid set_p_comm set_p_fds set_p_closed_fds set_p_chrono_fds
       set_p_current_syscall set_p_net_read set_p_net_write set_p_disk_read
       set_p_disk_write set_p_unk_read set_p_unk_write set_p_read set_p_write
       set_p_prev_tid set_p_syscalls set_p_total_syscalls set_p_iorequests track_chrono_fd].

Ltac fsimpl :=
  cbn [fd_filename fd_fd fd_family fd_fdtype fd_parent fd_name fd_net_read fd_net_write
       fd_disk_read fd_disk_write fd_unk_read fd_unk_write fd_read fd_write fd_open
       fd_close fd_cloexec fd_iorequests
       set_fd_filename set_fd_fd set_fd_family set_fd_fdtype set_fd_parent set_fd_name
       set_fd_net_read set_fd_net_write set_fd_disk_read set_fd_disk_write
       set_fd_unk_read set_fd_unk_write set_fd_read set_fd_write set_fd_open
       set_fd_close set_fd_cloexec set_fd_iorequests].

Ltac rsimpl :=
  cbn [rq_iotype rq_size rq_duration rq_operation rq_name rq_begin rq_end rq_proc rq_fd
       rq_dirty rq_page_alloc rq_page_free rq_page_written rq_woke_kswapd rq_page_cleared
       set_rq_iotype set_rq_size set_rq_duration set_rq_operation set_rq_name set_rq_begin
       set_rq_end set_rq_proc set_rq_fd set_rq_dirty set_rq_page_alloc set_rq_page_free
       set_rq_page_written set_rq_woke_kswapd set_rq_page_cleared].

Ltac unfold_M :=
  unfold item_M; unfold bind_M, get_M, modify_M, unit_M, raise_M.

Ltac unfold_prims :=
  unfold cs_fd, cs_rq, cs_has, cs_item, cs_set, cs_clear, cs, fds_item, closed_fds_item,
    tids_item, parent_of, when_key, len_M, as_fd, as_rq, as_type,
    alloc_proc, alloc_fd, alloc_rq, alloc_disk, proc, upd_proc, the_fd, upd_fd, the_rq,
    upd_rq, upd_disk in *.

(** [frame leaf] proves [preserves R c] along the structure of [c]; [leaf]
    proves [R s (f s)] for the state updates [f] of [c]. *)
Ltac frame leaf :=
  repeat first [preserves_step | leaf | progress unfold_prims].

Create HintDb frames.

Ltac peel_with R tac :=
  match goal with
  | H : bind_M ?c ?k ?s = Ok _, F : R ?s0 ?s |- _ =>
      let HP := fresh "HP" in
      let F' := fresh "F" in
      assert (preserves R c) as HP by tac;
      apply (bind_frame R _ _ _ _ HP) in H as (? & ? & F' & H);
      pose proof (transitivity F F'); clear F F' HP
  end.

Lemma ev_str_run {S} (e : Event) (k : string) (v : string) (s : S) :
  ev_get e k = Some (VStr v) -> ev_str e k s = Ok (v, s).
Proof. intros H. unfold ev_str, ev_item. unfold bind_M. by rewrite H. Qed.

Lemma alter_Some {A} (f : A -> A) (m : gmap loc A) i x :
  m !! i = Some x -> alter f i m = <[i := f x]> m.
Proof.
  intros H. apply map_eq. intros j. destruct (decide (j = i)) as [->|Hne].
  - by rewrite lookup_alter_eq, lookup_insert_eq, H.
  - by rewrite lookup_alter_ne, lookup_insert_ne.
Qed.

Lemma then_raise {S A B} (c : M S A) (e : exn) s :
  exists e', (c >> @raise_M S B e) s = Raise e'.
Proof. unfold bind_M, raise_M. destruct (c s) as [[? ?]|e']; eauto. Qed.

Lemma preserves_for_M {A} (R : State -> State -> Prop) `{!Reflexive R} `{!Transitive R}
    (l : list A) (body : A -> M State unit) :
  (forall x, preserves R (body x)) -> preserves R (for_M l body).
Proof.
  intros Hb. induction l as [|x l IH]; cbn.
  - by apply preserves_unit.
  - preserves_step; [apply Hb | apply IH].
Qed.

Lemma for_M_id {A} (l : list A) (body : A -> M State unit) s s' :
  (forall x s1 s2, body x s1 = Ok (tt, s2) -> s2 = s1) ->
  for_M l body s = Ok (tt, s') -> s' = s.
Proof.
  intros Hb. revert s. induction l as [|x l IH]; intros s; cbn.
  - by intros [= <-].
  - intros H. apply bind_Ok in H as ([] & s1 & H1 & H2).
    apply Hb in H1. apply IH in H2. congruence.
Qed.

Lemma in_flight_eq s tid a p :
  tids s !! tid = Some a -> procs s !! a = Some p ->
  in_flight s tid = Some (p_current_syscall p).
Proof. intros Ha Hp. unfold in_flight, process_of. rewrite Ha. cbn. by rewrite Hp. Qed.

(** *** The threads stay in place *)

Global Instance same_threads_refl : Reflexive same_threads.
Proof. intros s. repeat split; auto. Qed.
Global Instance same_threads_trans : Transitive same_threads.
Proof.
  intros s1 s2 s3 (A1 & A2 & A3) (B1 & B2 & B3). repeat split; try congruence. auto.
Qed.

Ltac same_threads_leaf :=
  idtac;
  match goal with
  | |- same_threads ?s _ =>
      split; [reflexivity|]; split; [reflexivity|]; intros ? ?; ssimpl;
      rewrite ?lookup_alter_is_Some, ?lookup_insert_is_Some'; auto
  end.

Lemma get_fd_same_threads proc_ fd e : preserves same_threads (get_fd proc_ fd e).
Proof. unfold get_fd. frame same_threads_leaf. Qed.

Lemma add_tid_fd_same_threads K e c : preserves same_threads (add_tid_fd K e c).
Proof. unfold add_tid_fd. frame same_threads_leaf. Qed.

Lemma track_rw_latency_same_threads K name ret c ts e :
  preserves same_threads (track_rw_latency K name ret c ts e).
Proof. unfold track_rw_latency. frame same_threads_leaf. Qed.

Lemma track_read_write_return_same_threads K name ret c :
  preserves same_threads (track_read_write_return K name ret c).
Proof. unfold track_read_write_return, read_append, write_append. frame same_threads_leaf. Qed.

Lemma per_tid_syscall_exit_same_threads name ret e c :
  preserves same_threads (_per_tid_syscall_exit name ret e c).
Proof. unfold _per_tid_syscall_exit. frame same_threads_leaf. Qed.

#[local] Hint Resolve get_fd_same_threads add_tid_fd_same_threads
  track_rw_latency_same_threads track_read_write_return_same_threads
  per_tid_syscall_exit_same_threads : frames.

Ltac same_threads_frame :=
  frame ltac:(first [same_threads_leaf | solve [eauto with frames]]).

(** *** The in-flight records stay as they are *)

Global Instance same_in_flight_refl : Reflexive same_in_flight.
Proof. intros s. split; [done|]. split; [done|]. eauto. Qed.
Global Instance same_in_flight_trans : Transitive same_in_flight.
Proof.
  intros s1 s2 s3 (A1 & A0 & A2) (B1 & B0 & B2). split; [congruence|]. split; [congruence|].
  intros a p Hp. destruct (A2 a p Hp) as (p2 & Hp2 & E2).
  destruct (B2 a p2 Hp2) as (p3 & Hp3 & E3). exists p3. split; [done | congruence].
Qed.

Lemma per_tid_syscall_exit_same_in_flight name ret e c :
  preserves same_in_flight (_per_tid_syscall_exit name ret e c).
Proof.
  unfold _per_tid_syscall_exit. frame fail.
  split; [reflexivity|]. split; [reflexivity|]. intros b p Hp. cbn [procs set_procs].
  destruct (decide (a = b)) as [->|]; [|rewrite lookup_alter_ne by done; eauto].
  rewrite lookup_alter_eq, Hp. cbn [fmap option_fmap option_map].
  eexists. split; [reflexivity|]. by destruct (p_syscalls p !! name).
Qed.

(** *** The timestamp and the request of the in-flight records stay *)

Global Instance same_record_refl : Reflexive same_record.
Proof. intros s. split; [done|]. split; eauto. Qed.
Global Instance same_record_trans : Transitive same_record.
Proof.
  intros s1 s2 s3 (A1 & A2 & A3) (B1 & B2 & B3). split; [congruence|]. split; [|auto].
  intros a p Hp. destruct (A2 a p Hp) as (p2 & Hp2 & E2 & E2').
  destruct (B2 a p2 Hp2) as (p3 & Hp3 & E3 & E3'). exists p3. split; [done|]. split; congruence.
Qed.

Ltac same_record_leaf :=
  idtac;
  match goal with
  | |- same_record ?s _ =>
      split; [reflexivity|]; split;
      [ let a := fresh "a" in let p := fresh "p" in let Hp := fresh "Hp" in
        intros a p Hp; cbn [procs set_procs fresh set_next set_fdheap set_rqheap
                            set_pending_syscalls];
        first
          [ solve [eauto]
          | rewrite lookup_alter; case_decide; [subst; rewrite Hp | solve [eauto]];
            cbn [fmap option_fmap option_map]; eexists; split; [reflexivity|];
            psimpl; rewrite ?lookup_insert_ne by done; split; reflexivity ]
      | intros ? ?; cbn [rqheap set_rqheap fresh set_next set_fdheap set_procs
                         set_pending_syscalls];
        rewrite ?lookup_alter_is_Some, ?lookup_insert_is_Some'; auto ]
  end.

Lemma get_fd_same_record proc_ fd e : preserves same_record (get_fd proc_ fd e).
Proof. unfold get_fd. frame same_record_leaf. Qed.

Lemma add_tid_fd_same_record K e c : preserves same_record (add_tid_fd K e c).
Proof. unfold add_tid_fd. frame same_record_leaf. Qed.

Lemma track_read_write_return_same_record K name ret c :
  preserves same_record (track_read_write_return K name ret c).
Proof. unfold track_read_write_return, read_append, write_append. frame same_record_leaf. Qed.

#[local] Hint Resolve get_fd_same_record add_tid_fd_same_record
  track_read_write_return_same_record : frames.


(** *** The timing of a request stays *)

Global Instance same_timing_refl r : Reflexive (same_timing r).
Proof. intros s x Hx. eauto. Qed.
Global Instance same_timing_trans r : Transitive (same_timing r).
Proof.
  intros s1 s2 s3 A B x Hx. destruct (A x Hx) as (x2 & Hx2 & ? & ? & ?).
  destruct (B x2 Hx2) as (x3 & Hx3 & ? & ? & ?). exists x3. repeat split; congruence.
Qed.

Ltac same_timing_leaf :=
  idtac;
  match goal with
  | |- same_timing ?r ?s _ =>
      let x := fresh "x" in let Hx := fresh "Hx" in
      intros x Hx; cbn [rqheap set_rqheap fresh set_next set_fdheap set_procs
                        set_pending_syscalls];
      first
        [ solve [eauto]
        | rewrite lookup_alter; case_decide; [subst; rewrite Hx | solve [eauto]];
          cbn [fmap option_fmap option_map]; eexists; split; [reflexivity|];
          rsimpl; repeat split; reflexivity ]
  end.

Lemma exit_finish_same_timing r c : preserves (same_timing r) (exit_finish c).
Proof.
  unfold exit_finish. frame same_timing_leaf.
  intros x Hx. destruct (existsb _ _); eauto.
Qed.

#[local] Hint Resolve exit_finish_same_timing : frames.


(** *** The closed tables stay as they are *)

Global Instance same_closed_refl : Reflexive same_closed.
Proof. intros s a p Hp. eauto. Qed.
Global Instance same_closed_trans : Transitive same_closed.
Proof.
  intros s1 s2 s3 A B a p Hp. destruct (A a p Hp) as (p2 & Hp2 & E2).
  destruct (B a p2 Hp2) as (p3 & Hp3 & E3). exists p3. split; [done | congruence].
Qed.

Ltac same_closed_leaf :=
  idtac;
  match goal with
  | |- same_closed ?s _ =>
      let a := fresh "a" in let p := fresh "p" in let Hp := fresh "Hp" in
      intros a p Hp; cbn [procs set_procs fresh set_next set_fdheap set_rqheap];
      first
        [ solve [eauto]
        | rewrite lookup_alter; case_decide; [subst; rewrite Hp | solve [eauto]];
          cbn [fmap option_fmap option_map]; eexists; split; [reflexivity|];
          psimpl; reflexivity ]
  end.

Lemma merge_fd_same_closed p parent fd : preserves same_closed (merge_fd p parent fd).
Proof. unfold merge_fd, last_ts. frame same_closed_leaf. Qed.

(** *** A syscall exit and the in-flight record *)

Lemma exit_finish_clears c tid a s s' :
  current_tid c = Some tid ->
  tids s !! tid = Some a ->
  is_Some (procs s !! a) ->
  exit_finish c s = Ok (tt, s') ->
  in_flight s' tid = Some ∅.
Proof.
  intros Hc Ha [p Hp]. unfold exit_finish, cs_clear, upd_proc, tids_item. rewrite Hc.
  unfold_M. rewrite Ha. ssimpl. rewrite Ha. ssimpl. intros [= <-].
  apply (in_flight_eq _ tid a (set_p_current_syscall ∅ p)).
  - by destruct (existsb _ _).
  - destruct (existsb _ _); ssimpl; by rewrite lookup_alter_eq, Hp.
Qed.

Ltac peel := peel_with same_threads ltac:(idtac; same_threads_frame).

(** C2 (amended).  A syscall-exit event on a CPU whose current thread has
    a non-empty in-flight record: when the recorded syscall is not one of
    the I/O syscalls the record is left exactly as it was, so the thread
    does not return to idle; when it is one of the I/O syscalls (and, for
    the open family, the exit carries a non-negative return value in its
    [ret] field) the record is empty after the event. *)
Theorem syscall_exit_returns_to_idle K s s' e cpu c tid a p name :
  ev_get e "cpu_id" = Some (VInt cpu) ->
  cpus s !! cpu = Some c ->
  current_tid c = Some tid ->
  tids s !! tid = Some a ->
  procs s !! a = Some p ->
  p_current_syscall p <> ∅ ->
  p_current_syscall p !! "name" = Some (VStr name) ->
  _process_syscall_exit K e s = Ok (tt, s') ->
  (mem name (IO_SYSCALLS K) = false -> in_flight s' tid = Some (p_current_syscall p)) /\
  (mem name (IO_SYSCALLS K) = true ->
   (mem name (OPEN_SYSCALLS K) = true -> exists ret, ev_get e "ret" = Some (VInt ret) /\ 0 <= ret) ->
   in_flight s' tid = Some ∅).
Proof.
  intros Hcpu Hc Htid Ha Hp Hne Hname H.
  unfold _process_syscall_exit in H.
  apply bind_Ok in H as (cpu' & s0 & H0 & H). apply ev_int_Ok in H0 as [H0 ->].
  assert (cpu' = cpu) as -> by congruence.
  unfold with_cpu in H. apply bind_Ok in H as (s0 & s1 & [= <- <-] & H).
  rewrite Hc, Htid in H. rewrite <- Htid in H.
  apply bind_Ok in H as (a' & s1 & H1 & H). rewrite Htid in H1. unfold tids_item in H1.
  apply bind_Ok in H1 as (s2 & s3 & [= <- <-] & H1). apply item_Ok in H1 as [H1 ->].
  assert (a' = a) as -> by congruence.
  apply bind_Ok in H as (d & s1 & H2 & H). unfold cs, proc in H2.
  apply bind_Ok in H2 as (p' & s2 & H2 & [= <- <-]).
  apply bind_Ok in H2 as (s3 & s4 & [= <- <-] & H2). apply item_Ok in H2 as [H2 ->].
  assert (p' = p) as -> by congruence.
  unfold nonempty in H. rewrite bool_decide_false in H by done. cbn [negb] in H.
  apply bind_Ok in H as (namev & s1 & H3 & H). unfold cs_item, cs, proc in H3.
  apply bind_Ok in H3 as (d & s2 & H3 & H3').
  apply bind_Ok in H3 as (p' & s3 & H3 & [= <- <-]).
  apply bind_Ok in H3 as (s4 & s5 & [= <- <-] & H3). apply item_Ok in H3 as [H3 ->].
  assert (p' = p) as -> by congruence.
  apply item_Ok in H3' as [H3' ->]. assert (namev = VStr name) as -> by congruence.
  apply bind_Ok in H as (name' & s1 & [= <- <-] & H).
  apply bind_Ok in H as (ret & s1 & H4 & H). apply ev_int_Ok in H4 as [H4 ->].
  apply bind_Ok in H as ([] & s1 & H5 & H).
  pose proof (per_tid_syscall_exit_same_in_flight _ _ _ _ _ _ _ H5) as [T1 P1].
  pose proof (per_tid_syscall_exit_same_threads _ _ _ _ _ _ _ H5) as (_ & _ & Q1).
  destruct P1 as [_ P1].
  destruct (P1 a p Hp) as (p1 & Hp1 & Ecs).
  destruct (mem name (IO_SYSCALLS K)) eqn:Hio; cbn [negb] in H.
  2:{ injection H as <-. split; [|done]. intros _.
      rewrite <- Ecs. apply (in_flight_eq _ tid a p1); [congruence | done]. }
  split; [done|]. intros _ Hret.
  assert (Hfin : forall s2, same_threads s1 s2 -> exit_finish c s2 = Ok (tt, s') ->
            in_flight s' tid = Some ∅).
  { intros s2 (E1 & _ & E3) Hfin. apply (exit_finish_clears c tid a s2 s' Htid); [congruence | | done].
    apply E3. eauto. }
  assert (F : same_threads s1 s1) by reflexivity.
  revert F H. generalize s1 at 2 3. intros s2 F H.
  do 3 peel.
  destruct (mem name (OPEN_SYSCALLS K)) eqn:Hopen.
  - destruct Hret as (ret' & Hr & Hpos); [done|].
    assert (ret' = ret) as -> by congruence.
    peel. destruct (Z.ltb_spec ret 0); [lia|].
    repeat peel. eauto.
  - destruct (mem name (READ_SYSCALLS K) || mem name (WRITE_SYSCALLS K)).
    + repeat peel. eauto.
    + destruct (mem name (SYNC_SYSCALLS K)); repeat peel; eauto.
Qed.

Lemma syscall_exit_returns_to_idle_witness :
  exists s s',
    run catalog [read_entry 5 110] (one_thread 42 None) = Ok (tt, s) /\
    _process_syscall_exit catalog (snd (syscall_exit 0 1000 115)) s = Ok (tt, s') /\
    in_flight s' 42 = Some ∅.
Proof.
  eexists.
  assert (Hrun : run catalog [read_entry 5 110] (one_thread 42 None) = Ok (tt, _))
    by (vm_compute; reflexivity).
  match type of Hrun with
  | _ = Ok (_, ?s0) =>
      eexists;
      assert (Hexit : _process_syscall_exit catalog (snd (syscall_exit 0 1000 115)) s0
                      = Ok (tt, _)) by (vm_compute; reflexivity);
      split; [exact Hrun|]; split; [exact Hexit|];
      refine (proj2 (syscall_exit_returns_to_idle catalog s0 _ (snd (syscall_exit 0 1000 115))
                0 (mkCPU (Some 42)) 42 0%nat _ "sys_read"
                eq_refl eq_refl eq_refl eq_refl _ _ _ Hexit) eq_refl _)
  end.
  - vm_compute. reflexivity.
  - vm_compute. discriminate.
  - vm_compute. reflexivity.
  - intros H. vm_compute in H. discriminate H.
Defined.

(** C2 as stated: [getpid] is not an I/O syscall, and its exit leaves the
    in-flight record of thread 42 as the entry made it. *)
Lemma syscall_exit_returns_to_idle_counterexample :
  let d : gmap string Val := {[ "name" := VStr "sys_getpid"; "start" := VInt 10 ]} in
  d <> ∅ /\
  in_flight_after [getpid_entry 10] (one_thread 42 None) 42 = Some d /\
  in_flight_after [getpid_entry 10; syscall_exit 0 42 15] (one_thread 42 None) 42 = Some d.
Proof.
  split; [vm_compute; discriminate|]. split; vm_compute; reflexivity.
Qed.

(** *** The duration of a completed request *)






(** *** Where the handlers raise or record nothing *)

Lemma get_disk_absent dev s :
  disks s !! dev = None -> get_disk dev s = Raise AttributeError.
Proof. intros H. unfold get_disk. unfold_M. by rewrite H. Qed.


(** C1.  A lookup of a device that is not in the disk table raises
    [AttributeError]: the accessor assigns the attribute [prettyname] on
    the device number, an integer.  No entity is stored or returned, and
    the block-device handler of the statedump, which starts with this
    lookup, raises as well. *)
Theorem get_disk_unknown_device_raises dev s :
  disks s !! dev = None ->
  get_disk dev s = Raise AttributeError /\
  (forall e, ev_get e "dev" = Some (VInt dev) ->
     _process_lttng_statedump_block_device e s = Raise AttributeError).
Proof.
  intros H. split; [by apply get_disk_absent|].
  intros e He. unfold _process_lttng_statedump_block_device.
  unfold bind_M at 1. rewrite (ev_int_run _ _ _ _ He).
  unfold bind_M at 1. by rewrite get_disk_absent.
Qed.

Lemma get_disk_unknown_device_witness :
  get_disk 8388608 State_new = Raise AttributeError /\
  _process_lttng_statedump_block_device (snd (block_device 8388608 "sda" 10)) State_new
    = Raise AttributeError.
Proof.
  destruct (get_disk_unknown_device_raises 8388608 State_new eq_refl) as [H1 H2].
  split; [exact H1|]. exact (H2 (snd (block_device 8388608 "sda" 10)) eq_refl).
Defined.

Lemma merge_fd_dict_closed_raises p parent s x :
  procs s !! p = Some x ->
  p_closed_fds x <> ∅ ->
  exists e, merge_fd_dict p parent s = Raise e.
Proof.
  intros Hx Hne. unfold merge_fd_dict. unfold bind_M at 1.
  match goal with |- context [match ?c s with _ => _ end] =>
    destruct (c s) as [[[] s1]|e] eqn:E1 end.
  2:{ by exists e. }
  assert (F : same_closed s s1).
  { revert E1.
    match goal with |- ?c _ = _ -> _ => assert (preserves same_closed c) as HP end.
    { once preserves_step.
      - frame same_closed_leaf.
      - destruct (negb _); once preserves_step.
        + apply preserves_for_M; [typeclasses eauto..|]. intros fd.
          apply merge_fd_same_closed.
        + apply preserves_for_M; [typeclasses eauto..|]. intros fd.
          unfold del_fds, del_chrono_fds. frame same_closed_leaf. }
    apply HP. }
  destruct (F p x Hx) as (x1 & Hx1 & Ecl).
  unfold bind_M at 1. unfold proc at 1. unfold bind_M at 1, get_M at 1, item_M at 1.
  rewrite Hx1. unfold unit_M at 1. rewrite Ecl.
  destruct (map fst (map_to_list (p_closed_fds x))) as [|fd l] eqn:El.
  - exfalso. apply Hne. apply map_to_list_empty_iff.
    destruct (map_to_list (p_closed_fds x)); [done | discriminate].
  - rewrite <- bind_assoc_M. apply then_raise.
Qed.

(** C4.  A process-state record of the statedump for a thread (pid
    different from tid) of a known process, when the closed table of the
    thread is not empty, does not complete: the handler raises.  The loop
    over the closed table deletes from the table it iterates over. *)
Theorem process_state_closed_table_raises e s tid pid name p parent x :
  ev_get e "tid" = Some (VInt tid) ->
  ev_get e "pid" = Some (VInt pid) ->
  ev_get e "name" = Some (VStr name) ->
  pid <> tid ->
  tids s !! tid = Some p ->
  tids s !! pid = Some parent ->
  procs s !! p = Some x ->
  p_closed_fds x <> ∅ ->
  exists err, _process_lttng_statedump_process_state e s = Raise err.
Proof.
  intros Htid Hpid Hname Hne Hp Hparent Hx Hcl.
  unfold _process_lttng_statedump_process_state.
  unfold bind_M at 1. rewrite (ev_int_run _ _ _ _ Htid).
  unfold bind_M at 1. rewrite (ev_int_run _ _ _ _ Hpid).
  unfold bind_M at 1. rewrite (ev_str_run _ _ _ _ Hname).
  unfold bind_M at 1, get_M at 1. rewrite Hp.
  unfold bind_M at 1, unit_M at 1.
  destruct (Z.eqb_spec pid tid) as [|_]; [done|]. cbn [negb].
  unfold upd_proc. unfold bind_M at 1, modify_M at 1. unfold bind_M at 1, modify_M at 1.
  unfold bind_M at 1, get_M at 1. cbn [tids set_procs]. rewrite Hparent.
  unfold bind_M at 1, unit_M at 1.
  eapply merge_fd_dict_closed_raises.
  - cbn [procs set_procs]. rewrite !lookup_alter_eq, Hx. reflexivity.
  - exact Hcl.
Qed.

(** Process 42 is known, its thread 43 opens and closes a file, and the
    statedump then reports thread 43. *)
Lemma process_state_closed_table_witness :
  exists s err,
    run catalog (process_state 42 42 "worker" 90 :: open_close_trace) (one_thread 43 None)
      = Ok (tt, s) /\
    _process_lttng_statedump_process_state (snd (process_state 43 42 "worker" 120)) s
      = Raise err.
Proof.
  eexists.
  assert (Hrun : run catalog (process_state 42 42 "worker" 90 :: open_close_trace)
                   (one_thread 43 None) = Ok (tt, _)) by (vm_compute; reflexivity).
  match type of Hrun with
  | _ = Ok (_, ?s0) =>
      assert (Hx : procs s0 !! 0%nat = Some _) by (vm_compute; reflexivity);
      destruct (process_state_closed_table_raises (snd (process_state 43 42 "worker" 120))
                  s0 43 42 "worker" 0%nat 1%nat _
                  eq_refl eq_refl eq_refl ltac:(lia) eq_refl eq_refl Hx
                  ltac:(vm_compute; discriminate)) as [err Herr]
  end.
  exists err. split; [exact Hrun | exact Herr].
Defined.

(** The same with a parent the statedump has not reported yet. *)
Lemma process_state_unknown_parent_raises :
  run catalog (open_close_trace ++ [process_state 43 42 "worker" 120]) (one_thread 43 None)
    = Raise RuntimeError.
Proof. vm_compute. reflexivity. Qed.

Lemma mm_page_free_no_effect e s s' :
  _process_mm_page_free e s = Ok (tt, s') -> s' = s.
Proof.
  unfold _process_mm_page_free. intros H.
  apply bind_Ok in H as (s0 & s1 & [= <- <-] & H).
  revert H. apply for_M_id. intros c s1 s2 Hc.
  destruct (current_tid c) as [tid|]; [|by injection Hc as <-].
  apply bind_Ok in Hc as (a & s3 & Ha & Hc).
  unfold tids_item in Ha. apply bind_Ok in Ha as (? & ? & [= <- <-] & Ha).
  apply item_Ok in Ha as [_ ->].
  apply bind_Ok in Hc as (x & s3 & Hx & Hc).
  unfold proc in Hx. apply bind_Ok in Hx as (? & ? & [= <- <-] & Hx).
  apply item_Ok in Hx as [_ ->].
  apply bind_Ok in Hc as (a' & s3 & Ha' & Hc).
  assert (s3 = s1) as ->.
  { destruct (_ && _); [|by injection Ha' as _ <-].
    unfold tids_item in Ha'. apply bind_Ok in Ha' as (? & ? & [= <- <-] & Ha').
    by apply item_Ok in Ha' as [_ ->]. }
  apply bind_Ok in Hc as (d & s3 & Hd & Hc).
  unfold cs, proc in Hd. apply bind_Ok in Hd as (p' & s4 & Hd & [= <- <-]).
  apply bind_Ok in Hd as (? & ? & [= <- <-] & Hd). apply item_Ok in Hd as [_ ->].
  unfold nonempty in Hc. case_bool_decide as Hd; cbn [negb] in Hc.
  - rewrite Hd, lookup_empty in Hc. by injection Hc as <-.
  - by injection Hc as <-.
Qed.

Lemma wakeup_kswapd_in_flight e s cpu c tid a p :
  ev_get e "cpu_id" = Some (VInt cpu) ->
  cpus s !! cpu = Some c ->
  current_tid c = Some tid ->
  tids s !! tid = Some a ->
  procs s !! a = Some p ->
  p_current_syscall p <> ∅ ->
  _process_mm_vmscan_wakeup_kswapd e s = Ok (tt, s).
Proof.
  intros Hcpu Hc Htid Ha Hp Hne. unfold _process_mm_vmscan_wakeup_kswapd.
  unfold bind_M at 1. rewrite (ev_int_run _ _ _ _ Hcpu).
  unfold with_cpu, tids_item, cs, proc, nonempty. unfold_M.
  rewrite Hc, Htid, Ha, Hp. by rewrite bool_decide_false.
Qed.

(** C5.  The side-channel events do not accumulate into an in-flight
    record.  A reclaim wakeup on a CPU whose current thread has a
    non-empty in-flight record returns with the state unchanged, and a
    page-free event never changes the state, whatever the current thread
    is: both handlers leave a non-empty record alone, and an empty one has
    no wakeup mark to credit. *)
Theorem side_channel_events_leave_record e s cpu c tid a p :
  ev_get e "cpu_id" = Some (VInt cpu) ->
  cpus s !! cpu = Some c ->
  current_tid c = Some tid ->
  tids s !! tid = Some a ->
  procs s !! a = Some p ->
  p_current_syscall p <> ∅ ->
  _process_mm_vmscan_wakeup_kswapd e s = Ok (tt, s) /\
  (forall e' s', _process_mm_page_free e' s = Ok (tt, s') -> s' = s).
Proof.
  intros Hcpu Hc Htid Ha Hp Hne. split.
  - by eapply wakeup_kswapd_in_flight.
  - intros e' s'. apply mm_page_free_no_effect.
Qed.

(** The read of thread 42 is in flight when the two events arrive. *)
Lemma side_channel_events_witness :
  exists s,
    run catalog [read_entry 5 110] (one_thread 42 None) = Ok (tt, s) /\
    _process_mm_vmscan_wakeup_kswapd (snd (wakeup_kswapd 111)) s = Ok (tt, s) /\
    _process_mm_page_free (snd (page_free 112)) s = Ok (tt, s).
Proof.
  eexists.
  assert (Hrun : run catalog [read_entry 5 110] (one_thread 42 None) = Ok (tt, _))
    by (vm_compute; reflexivity).
  match type of Hrun with
  | _ = Ok (_, ?s0) =>
      assert (Hp : procs s0 !! 0%nat = Some _) by (vm_compute; reflexivity);
      destruct (side_channel_events_leave_record (snd (wakeup_kswapd 111)) s0 0
                  (mkCPU (Some 42)) 42 0%nat _ eq_refl eq_refl eq_refl eq_refl Hp
                  ltac:(vm_compute; discriminate)) as [Hw Hf];
      assert (Hfree : _process_mm_page_free (snd (page_free 112)) s0 = Ok (tt, _))
        by (vm_compute; reflexivity);
      pose proof (Hf _ _ Hfree) as E
  end.
  split; [exact Hrun|]. split; [exact Hw|].
  exact (eq_trans Hfree (f_equal (fun s => Ok (tt, s)) E)).
Defined.

(** The reclaim worker runs after thread 42, whose in-flight read carries
    the wakeup mark: the page-free event credits nothing to it. *)
Lemma page_free_kswapd_no_credit :
  run catalog [page_free 20] kswapd_running = Ok (tt, kswapd_running).
Proof. vm_compute. reflexivity. Qed.

(** Two write-back events of 3 and 4 pages during the read: the record
    holds the last value, not the sum. *)
Lemma pages_written_overwrites :
  in_flight_after [read_entry 5 110; pages_written 3 111; pages_written 4 112]
    (one_thread 42 None) 42 ≫= (.!! "pages_written") = Some (VInt 4).
Proof. vm_compute. reflexivity. Qed.

(** *** The open-then-read scenario *)

(** C8.  Thread 42 is current on CPU 0; it enters [open] of "/tmp/a" at
    t=100 and the open returns descriptor 5 (at any time [t_open]); it
    enters [read] on descriptor 5 at t=110 and the read returns 1000 at
    t=115.  Afterwards the descriptor stored under 5 has its read counter
    at 1000, its request list holds exactly one read request, of size 1000
    and duration 5, and the read counter of the process of thread 42 is
    1000; this holds whether the pid of the thread is unknown or is 42. *)
Theorem open_read_scenario (t_open : Z) :
  open_read_outcome t_open None = Some (1000, [(Some 1000, Some 5)], 1000) /\
  open_read_outcome t_open (Some 42) = Some (1000, [(Some 1000, Some 5)], 1000).
Proof. split; vm_compute; reflexivity. Qed.

(** *** Closing a descriptor, and the statedump of a descriptor *)

Lemma close_fd_merge K s proc_ p fd a f c g :
  procs s !! proc_ = Some p ->
  p_fds p !! fd = Some a ->
  fdheap s !! a = Some f ->
  mem (fd_filename f) (GENERIC_NAMES K) = false ->
  p_closed_fds p !! fd_filename f = Some c ->
  fdheap s !! c = Some g ->
  exists s',
    close_fd K proc_ fd s = Ok (tt, s') /\
    procs s' = <[proc_ := set_p_fds (delete fd (p_fds p)) p]> (procs s) /\
    fdheap s' = <[c := merged g f]> (fdheap s).
Proof.
  intros Hp Hfd Hf Hgen Hc Hg.
  unfold close_fd, fds_item, closed_fds_item, proc, the_fd, upd_fd, upd_proc. unfold_M.
  repeat (ssimpl; rewrite ?Hp, ?Hfd, ?Hf, ?Hgen, ?Hc).
  rewrite bool_decide_true by eauto.
  repeat (ssimpl; rewrite ?Hp, ?Hfd, ?Hf, ?Hgen, ?Hc).
  assert (Hprocs : alter (fun p => set_p_fds (delete fd (p_fds p)) p) proc_ (procs s)
            = <[proc_ := set_p_fds (delete fd (p_fds p)) p]> (procs s)).
  { apply map_eq. intros i. destruct (decide (i = proc_)) as [->|Hne].
    - by rewrite lookup_alter_eq, lookup_insert_eq, Hp.
    - by rewrite lookup_alter_ne, lookup_insert_ne. }
  destruct (decide (a = c)) as [->|Hne].
  - assert (f = g) by congruence. subst g.
    repeat (ssimpl; fsimpl; rewrite ?lookup_alter_eq, ?Hf).
    eexists. split; [reflexivity|]. ssimpl. split; [exact Hprocs|].
    apply map_eq. intros i. destruct (decide (i = c)) as [->|Hne].
    + rewrite !lookup_alter_eq, lookup_insert_eq, Hf. reflexivity.
    + rewrite !lookup_alter_ne by done. by rewrite lookup_insert_ne.
  - repeat (ssimpl; rewrite ?lookup_alter_ne by done; rewrite ?Hf).
    eexists. split; [reflexivity|]. ssimpl. split; [exact Hprocs|].
    apply map_eq. intros i. destruct (decide (i = c)) as [->|Hne'].
    + rewrite !lookup_alter_eq, lookup_insert_eq, Hg. reflexivity.
    + rewrite !lookup_alter_ne by done. by rewrite lookup_insert_ne.
Qed.

Lemma close_fd_move K s proc_ p fd a f :
  procs s !! proc_ = Some p ->
  p_fds p !! fd = Some a ->
  fdheap s !! a = Some f ->
  mem (fd_filename f) (GENERIC_NAMES K) = true \/ p_closed_fds p !! fd_filename f = None ->
  exists s',
    close_fd K proc_ fd s = Ok (tt, s') /\
    procs s' = <[proc_ := set_p_fds (delete fd (p_fds p))
                            (set_p_closed_fds (<[fd_filename f := a]> (p_closed_fds p)) p)]>
                 (procs s) /\
    fdheap s' = <[a := set_fd_close 1 f]> (fdheap s).
Proof.
  intros Hp Hfd Hf Hcase.
  unfold close_fd, fds_item, closed_fds_item, proc, the_fd, upd_fd, upd_proc. unfold_M.
  cbv zeta.
  repeat (ssimpl; rewrite ?Hp, ?Hfd, ?Hf).
  assert (negb (mem (fd_filename f) (GENERIC_NAMES K))
          && bool_decide (is_Some (p_closed_fds p !! fd_filename f)) = false) as ->.
  { destruct Hcase as [-> | ->]; [done|]. rewrite bool_decide_false; [apply andb_false_r|].
    by intros [? ?]. }
  ssimpl. eexists. split; [reflexivity|]. ssimpl. split.
  - rewrite (alter_Some _ _ _ _ Hp). ssimpl.
    rewrite alter_insert_eq. reflexivity.
  - by apply alter_Some.
Qed.

(** C9 (amended).  A close of a descriptor of the open table removes it
    from the open table.  When its filename is not one of the generic
    names and the closed table has an entry under that filename, the
    closed table stays as it is and the entry gets the four byte counters
    of the descriptor added to its own and its close count incremented.
    Otherwise (a generic name, or no entry under the filename) the
    descriptor itself is stored in the closed table under its filename, in
    place of an entry that was there, with its close count set to 1. *)
Theorem close_fd_moves_or_merges K s proc_ p fd a f :
  procs s !! proc_ = Some p ->
  p_fds p !! fd = Some a ->
  fdheap s !! a = Some f ->
  (forall c g,
     mem (fd_filename f) (GENERIC_NAMES K) = false ->
     p_closed_fds p !! fd_filename f = Some c ->
     fdheap s !! c = Some g ->
     exists s',
       close_fd K proc_ fd s = Ok (tt, s') /\
       procs s' = <[proc_ := set_p_fds (delete fd (p_fds p)) p]> (procs s) /\
       fdheap s' = <[c := merged g f]> (fdheap s)) /\
  (mem (fd_filename f) (GENERIC_NAMES K) = true \/ p_closed_fds p !! fd_filename f = None ->
   exists s',
     close_fd K proc_ fd s = Ok (tt, s') /\
     procs s' = <[proc_ := set_p_fds (delete fd (p_fds p))
                             (set_p_closed_fds (<[fd_filename f := a]> (p_closed_fds p)) p)]>
                  (procs s) /\
     fdheap s' = <[a := set_fd_close 1 f]> (fdheap s)).
Proof.
  intros Hp Hfd Hf. split.
  - intros c g Hgen Hc Hg. by apply (close_fd_merge K s proc_ p fd a f c g).
  - intros Hcase. by apply (close_fd_move K s proc_ p fd a f).
Qed.

(** Descriptor 3 on "/tmp/a" has 10 bytes read from the network; the
    closed table has an entry for "/tmp/a" with 5: after the close the
    entry has 15. *)
Lemma close_fd_merges_witness :
  exists s' g,
    close_fd catalog 0%nat 3 open_and_closed = Ok (tt, s') /\
    fdheap s' !! 2%nat = Some g /\ fd_net_read g = 15 /\ fd_close g = 2.
Proof.
  destruct (proj1 (close_fd_moves_or_merges catalog open_and_closed 0%nat _ 3 1%nat _
                     eq_refl eq_refl eq_refl) 2%nat _ eq_refl eq_refl eq_refl)
    as (s' & Hrun & Hprocs & Hheap).
  exists s'. eexists. split; [exact Hrun|].
  rewrite Hheap, lookup_insert_eq. repeat split; reflexivity.
Defined.

(** C9 as stated: two sockets are written to (10 and 5 bytes) and closed
    one after the other; both have the generic filename "socket", and the
    entry of the closed table is the second socket alone. *)
Lemma close_fd_merges_counterexample :
  (fun g => (fd_net_write g, fd_close g, fd_fd g))
    <$> closed_after two_sockets_trace (one_thread 42 None) 42 "socket"
  = Some (5, 1, 4).
Proof. vm_compute. reflexivity. Qed.

Lemma od_set_in {A} (k : Z) (v : A) (d : list (Z * A)) : (k, v) ∈ od_set k v d.
Proof.
  induction d as [|[k' v'] d IH]; cbn.
  - apply list_elem_of_here.
  - destruct (k' =? k); [apply list_elem_of_here | by apply list_elem_of_further].
Qed.

Lemma statedump_fd_existing s e pid fd filename flags a p f x :
  ev_get e "pid" = Some (VInt pid) ->
  ev_get e "fd" = Some (VInt fd) ->
  ev_get e "filename" = Some (VStr filename) ->
  ev_get e "flags" = Some (VInt flags) ->
  tids s !! pid = Some a ->
  procs s !! a = Some p ->
  p_fds p !! fd = Some f ->
  fdheap s !! f = Some x ->
  _process_lttng_statedump_file_descriptor e s =
    Ok (tt, set_procs
              (<[a := track_chrono_fd fd filename (fd_fdtype x) (ev_timestamp e) p]> (procs s))
              (set_fdheap (<[f := set_fd_filename filename x]> (fdheap s)) s)).
Proof.
  intros Hpid Hfd Hname Hflags Ha Hp Hf Hx.
  unfold _process_lttng_statedump_file_descriptor.
  unfold bind_M at 1. rewrite (ev_int_run _ _ _ _ Hpid).
  unfold bind_M at 1. rewrite (ev_int_run _ _ _ _ Hfd).
  unfold bind_M at 1. rewrite (ev_str_run _ _ _ _ Hname).
  unfold bind_M at 1. rewrite (ev_int_run _ _ _ _ Hflags).
  cbv zeta. unfold fds_item, proc, the_fd, upd_fd, upd_proc. unfold_M.
  repeat (ssimpl; rewrite ?Ha, ?Hp, ?Hf, ?Hx, ?lookup_alter_eq).
  rewrite (alter_Some _ _ _ _ Hp), (alter_Some _ _ _ _ Hx). reflexivity.
Qed.

(** C10 (amended).  A file-descriptor record of the statedump for a known
    process that has a descriptor under the fd number of the record: the
    handler returns; the filename of the descriptor becomes the filename
    of the record whether or not one was set; every other field of the
    descriptor, the cloexec flag among them, is as before; the open table
    of the process is as before; and the chronological history of the fd
    number has an entry under the timestamp of the record, with the
    filename of the record and the type of the descriptor. *)
Theorem statedump_fd_overwrites_filename s e pid fd filename flags a p f x :
  ev_get e "pid" = Some (VInt pid) ->
  ev_get e "fd" = Some (VInt fd) ->
  ev_get e "filename" = Some (VStr filename) ->
  ev_get e "flags" = Some (VInt flags) ->
  tids s !! pid = Some a ->
  procs s !! a = Some p ->
  p_fds p !! fd = Some f ->
  fdheap s !! f = Some x ->
  exists s' p' h,
    _process_lttng_statedump_file_descriptor e s = Ok (tt, s') /\
    fdheap s' !! f = Some (set_fd_filename filename x) /\
    fd_cloexec (set_fd_filename filename x) = fd_cloexec x /\
    procs s' !! a = Some p' /\
    p_fds p' = p_fds p /\
    p_chrono_fds p' !! fd = Some h /\
    (ev_timestamp e, mkChrono filename (fd_fdtype x)) ∈ h.
Proof.
  intros Hpid Hfd Hname Hflags Ha Hp Hf Hx.
  eexists. eexists. eexists.
  split; [by eapply statedump_fd_existing|].
  cbn [fdheap procs set_procs set_fdheap]. rewrite !lookup_insert_eq.
  split; [reflexivity|]. split; [reflexivity|]. split; [reflexivity|].
  unfold track_chrono_fd. cbn [p_fds p_chrono_fds set_p_chrono_fds].
  split; [reflexivity|]. rewrite lookup_insert_eq. split; [reflexivity|].
  apply od_set_in.
Qed.

(** The statedump reports descriptor 5 of process 42 twice. *)
Lemma statedump_fd_overwrites_witness :
  exists s s' x,
    run catalog [file_descriptor 42 5 "/tmp/a" 0 10] State_new = Ok (tt, s) /\
    _process_lttng_statedump_file_descriptor
      (snd (file_descriptor 42 5 "/tmp/b" O_CLOEXEC 20)) s = Ok (tt, s') /\
    fdheap s' !! 1%nat = Some x /\ fd_filename x = "/tmp/b" /\ fd_cloexec x = 0.
Proof.
  eexists.
  assert (Hrun : run catalog [file_descriptor 42 5 "/tmp/a" 0 10] State_new = Ok (tt, _))
    by (vm_compute; reflexivity).
  match type of Hrun with
  | _ = Ok (_, ?s0) =>
      assert (Hp : procs s0 !! 0%nat = Some _) by (vm_compute; reflexivity);
      assert (Hx : fdheap s0 !! 1%nat = Some _) by (vm_compute; reflexivity);
      destruct (statedump_fd_overwrites_filename s0
                  (snd (file_descriptor 42 5 "/tmp/b" O_CLOEXEC 20)) 42 5 "/tmp/b" O_CLOEXEC
                  0%nat _ 1%nat _ eq_refl eq_refl eq_refl eq_refl eq_refl Hp eq_refl Hx)
        as (s' & p' & h & Hrun' & Hheap & Hcl & _)
  end.
  exists s'. eexists. split; [exact Hrun|]. split; [exact Hrun'|].
  split; [exact Hheap|]. split; reflexivity.
Defined.

(** C10 as stated: the second record names "/tmp/b" and carries the
    close-on-exec flag; the filename, set to "/tmp/a" by the first record,
    becomes "/tmp/b", and the cloexec flag stays 0. *)
Lemma statedump_fd_overwrites_counterexample :
  (fun x => (fd_filename x, fd_cloexec x))
    <$> descriptor_after [file_descriptor 42 5 "/tmp/a" 0 10] State_new 42 5
  = Some ("/tmp/a", 0) /\
  (fun x => (fd_filename x, fd_cloexec x))
    <$> descriptor_after [file_descriptor 42 5 "/tmp/a" 0 10;
                          file_descriptor 42 5 "/tmp/b" O_CLOEXEC 20] State_new 42 5
  = Some ("/tmp/b", 0).
Proof. split; vm_compute; reflexivity. Qed.

(** *** Device numbers and addresses *)

Lemma land_ones_mod (x n : Z) (m : Z) :
  0 <= n -> m = Z.ones n -> Z.land x m = x mod 2 ^ n.
Proof. intros Hn ->. by apply Z.land_ones. Qed.

(** X1.  [kdev_major_minor] decodes the device numbers of the kernel: for a
    minor number below 2^20 and any major number, the device number
    [major * 2^20 + minor] is printed as "(major,minor)". *)
Theorem kdev_major_minor_decodes (major minor : Z) :
  0 <= minor < 2 ^ 20 ->
  kdev_major_minor (major * 2 ^ 20 + minor)
  = ("(" ++ fmt_d major ++ "," ++ fmt_d minor ++ ")")%string.
Proof.
  intros Hminor. unfold kdev_major_minor. cbv zeta.
  rewrite Z.shiftr_div_pow2 by lia.
  rewrite (land_ones_mod _ 20) by (lia || reflexivity).
  assert ((major * 2 ^ 20 + minor) / 2 ^ 20 = major) as ->.
  { symmetry. apply (Z.div_unique _ _ _ minor); lia. }
  assert ((major * 2 ^ 20 + minor) mod 2 ^ 20 = minor) as ->.
  { symmetry. apply (Z.mod_unique _ _ major); lia. }
  reflexivity.
Qed.

Lemma kdev_major_minor_decodes_witness :
  kdev_major_minor 8388624 = "(8,16)".
Proof.
  exact (kdev_major_minor_decodes 8 16 ltac:(lia)).
Defined.

Lemma octet (x k : Z) (hi lo o : Z) :
  0 <= k -> 0 <= o < 256 -> 0 <= lo < 2 ^ k ->
  x = (hi * 256 + o) * 2 ^ k + lo ->
  Z.land (Z.shiftr x k) 255 = o.
Proof.
  intros Hk Ho Hlo ->. rewrite Z.shiftr_div_pow2 by done.
  rewrite (land_ones_mod _ 8) by (lia || reflexivity).
  assert (((hi * 256 + o) * 2 ^ k + lo) / 2 ^ k = hi * 256 + o) as ->.
  { symmetry. apply (Z.div_unique _ _ _ lo); lia. }
  symmetry. apply (Z.mod_unique _ _ hi); lia.
Qed.

(** X2.  The two forms in which the tracer hands over an IPv4 address give the
    same string: for four octets [a], [b], [c], [d], the sequence
    [[a; b; c; d]] and the integer [a * 2^24 + b * 2^16 + c * 2^8 + d] are
    both printed as "a.b.c.d".  An integer outside [0, 2^32) cannot be
    packed and raises [struct.error]. *)
Theorem v4_addr_of_int_and_seq {S} (a b c d : Z) (s : S) :
  0 <= a < 256 -> 0 <= b < 256 -> 0 <= c < 256 -> 0 <= d < 256 ->
  get_v4_addr_str (VInt (a * 2 ^ 24 + b * 2 ^ 16 + c * 2 ^ 8 + d)) s
  = Ok ((fmt_d a ++ "." ++ fmt_d b ++ "." ++ fmt_d c ++ "." ++ fmt_d d)%string, s) /\
  get_v4_addr_str (VSeq [a; b; c; d]) s
  = Ok ((fmt_d a ++ "." ++ fmt_d b ++ "." ++ fmt_d c ++ "." ++ fmt_d d)%string, s) /\
  (forall ip, ip < 0 \/ 2 ^ 32 <= ip -> get_v4_addr_str (VInt ip) s = Raise StructError).
Proof.
  intros Ha Hb Hc Hd. split; [|split].
  - unfold get_v4_addr_str, int_to_ipv4.
    set (ip := a * 2 ^ 24 + b * 2 ^ 16 + c * 2 ^ 8 + d).
    assert (0 <= ip < 4294967296) as Hip by (subst ip; lia).
    destruct (Z.leb_spec 0 ip); [|lia]. destruct (Z.ltb_spec ip 4294967296); [|lia].
    cbn [andb]. unfold unit_M.
    rewrite (octet ip 24 0 (b * 2 ^ 16 + c * 2 ^ 8 + d) a) by (subst ip; lia).
    rewrite (octet ip 16 a (c * 2 ^ 8 + d) b) by (subst ip; lia).
    rewrite (octet ip 8 (a * 256 + b) d c) by (subst ip; lia).
    replace (Z.land ip 255) with (Z.land (Z.shiftr ip 0) 255) by (by rewrite Z.shiftr_0_r).
    rewrite (octet ip 0 ((a * 256 + b) * 256 + c) 0 d) by (subst ip; lia).
    reflexivity.
  - reflexivity.
  - intros ip Hip. unfold get_v4_addr_str, int_to_ipv4.
    destruct (Z.leb_spec 0 ip), (Z.ltb_spec ip 4294967296); try reflexivity; lia.
Qed.

Lemma v4_addr_of_int_and_seq_witness :
  get_v4_addr_str (VInt 3232235777) tt = Ok ("192.168.1.1", tt) /\
  get_v4_addr_str (VSeq [192; 168; 1; 1]) tt = Ok ("192.168.1.1", tt).
Proof.
  destruct (@v4_addr_of_int_and_seq unit 192 168 1 1 tt
              ltac:(lia) ltac:(lia) ltac:(lia) ltac:(lia)) as (H1 & H2 & _).
  split; [exact H1 | exact H2].
Defined.

(** *** Events on a CPU or a thread the tables do not know *)

Lemma with_cpu_idle cpu k s :
  cpus s !! cpu = None \/ cpus s !! cpu = Some (mkCPU None) ->
  with_cpu cpu k s = Ok (tt, s).
Proof. intros H. unfold with_cpu. unfold_M. by destruct H as [-> | ->]. Qed.

(** X3.  A syscall entry or exit on a CPU that is not in the CPU table, or
    whose current thread is not known, leaves the whole state as it is: no
    syscall is counted, not even in the global table. *)
Theorem syscall_on_idle_cpu K e s cpu :
  ev_get e "cpu_id" = Some (VInt cpu) ->
  cpus s !! cpu = None \/ cpus s !! cpu = Some (mkCPU None) ->
  _process_syscall_entry K e s = Ok (tt, s) /\
  _process_syscall_exit K e s = Ok (tt, s).
Proof.
  intros Hcpu Hidle. split.
  - unfold _process_syscall_entry. cbv zeta.
    unfold bind_M at 1. rewrite (ev_int_run _ _ _ _ Hcpu).
    unfold per_tid_syscall_entry, track_fds, track_read_write, track_sync.
    unfold bind_M at 1. rewrite (with_cpu_idle _ _ _ Hidle).
    unfold bind_M at 1. rewrite (with_cpu_idle _ _ _ Hidle).
    unfold bind_M at 1.
    destruct (mem _ (READ_SYSCALLS K) || mem _ (WRITE_SYSCALLS K));
      [rewrite (with_cpu_idle _ _ _ Hidle) | unfold unit_M at 1];
      (destruct (mem _ (SYNC_SYSCALLS K)); [by apply with_cpu_idle | done]).
  - unfold _process_syscall_exit. unfold bind_M at 1. rewrite (ev_int_run _ _ _ _ Hcpu).
    by apply with_cpu_idle.
Qed.

Lemma syscall_on_idle_cpu_witness :
  _process_syscall_entry catalog (snd (read_entry 5 110)) State_new = Ok (tt, State_new) /\
  _process_syscall_exit catalog (snd (syscall_exit 0 1000 115)) State_new
    = Ok (tt, State_new).
Proof.
  split.
  - exact (proj1 (syscall_on_idle_cpu catalog (snd (read_entry 5 110)) State_new 0
                    eq_refl (or_introl eq_refl))).
  - exact (proj2 (syscall_on_idle_cpu catalog (snd (syscall_exit 0 1000 115)) State_new 0
                    eq_refl (or_introl eq_refl))).
Defined.

(** X4.  A syscall entry or exit on a CPU whose current thread is not in the
    thread table raises [KeyError]: the correlator indexes the table with
    the thread id without testing for it. *)
Theorem syscall_of_unknown_thread K e s cpu tid :
  ev_get e "cpu_id" = Some (VInt cpu) ->
  cpus s !! cpu = Some (mkCPU (Some tid)) ->
  tids s !! tid = None ->
  _process_syscall_entry K e s = Raise KeyError /\
  _process_syscall_exit K e s = Raise KeyError.
Proof.
  intros Hcpu Hc Htid. split.
  - unfold _process_syscall_entry. cbv zeta.
    unfold bind_M at 1. rewrite (ev_int_run _ _ _ _ Hcpu).
    unfold bind_M at 1. unfold per_tid_syscall_entry, with_cpu, tids_item.
    unfold_M. rewrite Hc. cbn [current_tid]. by rewrite Htid.
  - unfold _process_syscall_exit. unfold bind_M at 1. rewrite (ev_int_run _ _ _ _ Hcpu).
    unfold with_cpu, tids_item. unfold_M. rewrite Hc. cbn [current_tid]. by rewrite Htid.
Qed.

Lemma syscall_of_unknown_thread_witness :
  _process_syscall_entry catalog (snd (read_entry 5 110))
    (set_cpus {[ 0 := mkCPU (Some 42) ]} State_new) = Raise KeyError.
Proof.
  exact (proj1 (syscall_of_unknown_thread catalog (snd (read_entry 5 110))
                  (set_cpus {[ 0 := mkCPU (Some 42) ]} State_new) 0 42
                  eq_refl eq_refl eq_refl)).
Defined.

(** *** Reads and writes on a descriptor *)

(** X8.  [read_append] adds the byte count to the read total of the descriptor
    and of the process and to exactly one of their per-class read
    counters, the class being the type of the descriptor; the write
    counters are not touched.  It needs the descriptor and the process,
    not the request. *)
Theorem read_append_adds fd proc_ count rq s x p :
  fdheap s !! fd = Some x ->
  procs s !! proc_ = Some p ->
  exists s' x' p',
    read_append fd proc_ count rq s = Ok (tt, s') /\
    fdheap s' !! fd = Some x' /\ procs s' !! proc_ = Some p' /\
    fd_read x' = fd_read x + count /\ fd_reads x' = fd_reads x + count /\
    p_read p' = p_read p + count /\ p_reads p' = p_reads p + count /\
    fd_write x' = fd_write x /\ fd_writes x' = fd_writes x /\
    p_write p' = p_write p /\ p_writes p' = p_writes p /\
    (is_net (fd_fdtype x) = true ->
       fd_net_read x' = fd_net_read x + count /\ p_net_read p' = p_net_read p + count) /\
    (fd_fdtype x = disk ->
       fd_disk_read x' = fd_disk_read x + count /\ p_disk_read p' = p_disk_read p + count) /\
    (fd_fdtype x = unknown ->
       fd_unk_read x' = fd_unk_read x + count /\ p_unk_read p' = p_unk_read p + count).
Proof.
  intros Hx Hp. unfold read_append, the_fd, upd_fd, upd_proc, upd_rq. unfold_M.
  ssimpl. rewrite Hx. unfold fd_reads, fd_writes, p_reads, p_writes.
  destruct (fd_fdtype x) eqn:Hty; cbn [is_net]; try rewrite bool_decide_true by done;
    try rewrite bool_decide_false by done;
    (eexists; eexists; eexists; split; [reflexivity|]; ssimpl;
     rewrite !lookup_alter_eq, Hx, Hp; ssimpl;
     split; [reflexivity|]; split; [reflexivity|]; fsimpl; psimpl;
     repeat split; try done; try lia).
Qed.

Lemma read_append_adds_witness :
  exists s' x',
    read_append 1%nat 0%nat 100 7%nat open_and_closed = Ok (tt, s') /\
    fdheap s' !! 1%nat = Some x' /\ fd_read x' = 100 /\ fd_reads x' = 110.
Proof.
  destruct (read_append_adds 1%nat 0%nat 100 7%nat open_and_closed _ _ eq_refl eq_refl)
    as (s' & x' & p' & H & Hx' & _ & H1 & H2 & _).
  exists s', x'. split; [exact H|]. split; [exact Hx'|]. split; [exact H1 | exact H2].
Defined.

(** X9.  [write_append] is the same on the write side. *)
Theorem write_append_adds fd proc_ count rq s x p :
  fdheap s !! fd = Some x ->
  procs s !! proc_ = Some p ->
  exists s' x' p',
    write_append fd proc_ count rq s = Ok (tt, s') /\
    fdheap s' !! fd = Some x' /\ procs s' !! proc_ = Some p' /\
    fd_write x' = fd_write x + count /\ fd_writes x' = fd_writes x + count /\
    p_write p' = p_write p + count /\ p_writes p' = p_writes p + count /\
    fd_read x' = fd_read x /\ fd_reads x' = fd_reads x /\
    p_read p' = p_read p /\ p_reads p' = p_reads p /\
    (is_net (fd_fdtype x) = true ->
       fd_net_write x' = fd_net_write x + count /\ p_net_write p' = p_net_write p + count) /\
    (fd_fdtype x = disk ->
       fd_disk_write x' = fd_disk_write x + count /\
       p_disk_write p' = p_disk_write p + count) /\
    (fd_fdtype x = unknown ->
       fd_unk_write x' = fd_unk_write x + count /\ p_unk_write p' = p_unk_write p + count).
Proof.
  intros Hx Hp. unfold write_append, the_fd, upd_fd, upd_proc, upd_rq. unfold_M.
  ssimpl. rewrite Hx. unfold fd_reads, fd_writes, p_reads, p_writes.
  destruct (fd_fdtype x) eqn:Hty; cbn [is_net]; try rewrite bool_decide_true by done;
    try rewrite bool_decide_false by done;
    (eexists; eexists; eexists; split; [reflexivity|]; ssimpl;
     rewrite !lookup_alter_eq, Hx, Hp; ssimpl;
     split; [reflexivity|]; split; [reflexivity|]; fsimpl; psimpl;
     repeat split; try done; try lia).
Qed.

Lemma write_append_adds_witness :
  exists s' x',
    write_append 1%nat 0%nat 100 7%nat open_and_closed = Ok (tt, s') /\
    fdheap s' !! 1%nat = Some x' /\ fd_write x' = 100 /\ fd_reads x' = 10.
Proof.
  destruct (write_append_adds 1%nat 0%nat 100 7%nat open_and_closed _ _ eq_refl eq_refl)
    as (s' & x' & p' & H & Hx' & _ & H1 & _ & _ & _ & _ & H2 & _).
  exists s', x'. split; [exact H|]. split; [exact Hx'|]. split; [exact H1 | exact H2].
Defined.

(** *** Descriptors the trace never opened *)

(** X7.  [get_fd] on a descriptor number that the process does not have
    creates a descriptor for it, named "unknown (origin not found)", and
    stores it in the open table of the process; the other descriptors and
    the closed table are as before. *)
Theorem get_fd_unknown_descriptor proc_ fd e s p :
  procs s !! proc_ = Some p ->
  p_fds p !! fd = None ->
  exists s' p',
    get_fd proc_ fd e s = Ok (next s, s') /\
    fdheap s' = <[next s := set_fd_filename "unknown (origin not found)"
                              (set_fd_fd fd FD_new)]> (fdheap s) /\
    procs s' !! proc_ = Some p' /\
    p_fds p' = <[fd := next s]> (p_fds p) /\
    p_closed_fds p' = p_closed_fds p.
Proof.
  intros Hp Hfd. unfold get_fd, alloc_fd, proc, the_fd, upd_fd, upd_proc. unfold_M.
  rewrite Hp, Hfd. ssimpl. rewrite !lookup_alter_eq, lookup_insert_eq. ssimpl.
  eexists. eexists. split; [reflexivity|]. ssimpl.
  rewrite !lookup_alter_eq, Hp. ssimpl. split.
  - by rewrite !alter_insert_eq.
  - split; [reflexivity|]. psimpl. done.
Qed.

Lemma get_fd_unknown_descriptor_witness :
  exists s' x,
    get_fd 0%nat 9 (snd (read_entry 9 110)) (one_thread 42 None) = Ok (1%nat, s') /\
    fdheap s' !! 1%nat = Some x /\ fd_filename x = "unknown (origin not found)" /\ fd_fd x = 9.
Proof.
  destruct (get_fd_unknown_descriptor 0%nat 9 (snd (read_entry 9 110)) (one_thread 42 None) _
              eq_refl eq_refl) as (s' & p' & H & Hheap & _).
  exists s'. eexists. split; [exact H|]. rewrite Hheap, lookup_insert_eq.
  split; [reflexivity|]. split; reflexivity.
Defined.

(** *** Every syscall entry is counted once *)

Global Instance same_totals_refl : Reflexive same_totals.
Proof. intros s Hal. split; [done|]. split; [done|]. eauto. Qed.
Global Instance same_totals_trans : Transitive same_totals.
Proof.
  intros s1 s2 s3 A B Hal. destruct (A Hal) as (A1 & A2 & A3).
  destruct (B A1) as (B1 & B2 & B3). split; [done|]. split; [congruence|].
  intros a p Hp. destruct (A3 a p Hp) as (p2 & Hp2 & E2).
  destruct (B3 a p2 Hp2) as (p3 & Hp3 & E3). exists p3. split; [done | congruence].
Qed.

Ltac totals_leaf :=
  idtac;
  match goal with
  | |- same_totals ?s _ =>
      let Hal := fresh "Hal" in
      intros Hal; split;
      [ let b := fresh "b" in let Hb := fresh "Hb" in
        intros b Hb; cbn [next procs fresh set_next set_procs set_fdheap set_rqheap set_tids
                          set_pending_syscalls set_cpus] in *;
        first
          [ apply Hal; lia
          | rewrite lookup_alter_None; apply Hal; lia
          | rewrite lookup_insert_ne by lia; apply Hal; lia ]
      | split;
        [ reflexivity
        | let a := fresh "a" in let p := fresh "p" in let Hp := fresh "Hp" in
          intros a p Hp; cbn [next procs fresh set_next set_procs set_fdheap set_rqheap
                              set_tids set_pending_syscalls set_cpus];
          first
            [ solve [eauto]
            | rewrite lookup_alter; case_decide; [subst; rewrite Hp | solve [eauto]];
              cbn [fmap option_fmap option_map]; eexists; split; [reflexivity|];
              psimpl; reflexivity
            | rewrite lookup_insert_ne
                by (intros <-; rewrite Hal in Hp by done; discriminate);
              solve [eauto] ] ] ]
  end.

Lemma pure_frame {S A} (R : S -> S -> Prop) `{!Reflexive R} (c : M S A) :
  (forall s, match c s with Ok (_, s') => s' = s | Raise _ => True end) ->
  preserves R c.
Proof.
  intros Hc s a s' H. specialize (Hc s). rewrite H in Hc. subst. reflexivity.
Qed.

Lemma get_v4_addr_str_frame {S} (R : S -> S -> Prop) `{!Reflexive R} v :
  preserves R (get_v4_addr_str v).
Proof.
  apply pure_frame; [done|]. intros s.
  destruct v as [z|str|l|ty|a|a]; unfold get_v4_addr_str; try exact I.
  - unfold int_to_ipv4. destruct ((0 <=? z) && (z <? 4294967296)); [reflexivity | exact I].
  - destruct (4 <=? String.length str)%nat; [reflexivity | exact I].
  - destruct (4 <=? length l)%nat; [reflexivity | exact I].
Qed.

Lemma get_fd_same_totals proc_ fd e : preserves same_totals (get_fd proc_ fd e).
Proof. unfold get_fd. frame totals_leaf. Qed.

Lemma close_fd_same_totals K proc_ fd : preserves same_totals (close_fd K proc_ fd).
Proof. unfold close_fd. frame totals_leaf. Qed.

#[local] Hint Resolve get_fd_same_totals close_fd_same_totals : frames.
#[local] Hint Extern 1 (preserves _ (get_v4_addr_str _)) =>
  apply get_v4_addr_str_frame; typeclasses eauto : frames.

Ltac same_totals_frame :=
  frame ltac:(first [totals_leaf | solve [eauto with frames]]).

Lemma track_open_tail_same_totals K name cur e :
  preserves same_totals (track_open_tail K name cur e).
Proof. unfold track_open_tail. same_totals_frame. Qed.

Lemma copy_oldfd_same_totals cur proc_ oldfd :
  preserves same_totals (copy_oldfd cur proc_ oldfd).
Proof. unfold copy_oldfd. same_totals_frame. Qed.

#[local] Hint Resolve track_open_tail_same_totals copy_oldfd_same_totals : frames.

Lemma track_open_same_totals K name proc_ e c :
  preserves same_totals (track_open K name proc_ e c).
Proof. unfold track_open. same_totals_frame. Qed.

Lemma track_close_same_totals K name proc_ e c :
  preserves same_totals (track_close K name proc_ e c).
Proof. unfold track_close. same_totals_frame. Qed.

Lemma fix_context_pid_same_totals e t : preserves same_totals (_fix_context_pid e t).
Proof. unfold _fix_context_pid. same_totals_frame. Qed.

#[local] Hint Resolve track_open_same_totals track_close_same_totals
  fix_context_pid_same_totals : frames.

Lemma with_cpu_frame (R : State -> State -> Prop) `{!Reflexive R} `{!Transitive R} cpu k :
  (forall c, preserves R (k c)) -> preserves R (with_cpu cpu k).
Proof.
  intros Hk. unfold with_cpu. preserves_step; [preserves_step|].
  destruct (cpus a !! cpu) as [c|]; [|preserves_step].
  destruct (current_tid c); [apply Hk | preserves_step].
Qed.

Lemma track_fds_same_totals K name e cpu : preserves same_totals (track_fds K name e cpu).
Proof.
  unfold track_fds. apply with_cpu_frame; [typeclasses eauto..|]. intros c.
  same_totals_frame.
Qed.

Lemma track_two_fds_same_totals t cur e f_in f_out f_count :
  preserves same_totals (track_two_fds t cur e f_in f_out f_count).
Proof. unfold track_two_fds. same_totals_frame. Qed.

#[local] Hint Resolve track_two_fds_same_totals : frames.

Lemma track_read_write_same_totals name e cpu :
  preserves same_totals (track_read_write name e cpu).
Proof.
  unfold track_read_write. apply with_cpu_frame; [typeclasses eauto..|]. intros c.
  same_totals_frame.
Qed.

Lemma track_sync_same_totals name e cpu : preserves same_totals (track_sync name e cpu).
Proof.
  unfold track_sync. apply with_cpu_frame; [typeclasses eauto..|]. intros c.
  same_totals_frame.
Qed.

Lemma override_name_state name e s n s' :
  override_name name e s = Ok (n, s') -> s' = s.
Proof.
  unfold override_name. destruct (mem name _); [|by intros [= _ <-]].
  intros H. apply bind_Ok in H as (op & s1 & H1 & H). apply item_Ok in H1 as [_ ->].
  repeat case_bool_decide; by injection H as _ <-.
Qed.

(** X5.  A syscall entry on a CPU whose current thread is known, when the
    handler processes it to the end, is counted exactly once: the syscall
    total of the thread and the global total are incremented by one,
    whatever the syscall and whatever the bookkeeping of descriptors that
    follows does. *)
Theorem syscall_entry_counts_once K e s s' cpu tid a p :
  ev_get e "cpu_id" = Some (VInt cpu) ->
  cpus s !! cpu = Some (mkCPU (Some tid)) ->
  tids s !! tid = Some a ->
  procs s !! a = Some p ->
  allocated s ->
  _process_syscall_entry K e s = Ok (tt, s') ->
  syscalls_total s' = syscalls_total s + 1 /\
  exists p', procs s' !! a = Some p' /\ p_total_syscalls p' = p_total_syscalls p + 1.
Proof.
  intros Hcpu Hc Ha Hp Hal H. unfold _process_syscall_entry in H. cbv zeta in H.
  apply bind_Ok in H as (cpu' & s0 & H0 & H). apply ev_int_Ok in H0 as [H0 ->].
  assert (cpu' = cpu) as -> by congruence.
  apply bind_Ok in H as ([] & s3 & Hper & Hrest).
  (* the count *)
  assert (Hs3 : allocated s3 /\ syscalls_total s3 = syscalls_total s + 1 /\
                exists p3, procs s3 !! a = Some p3 /\
                           p_total_syscalls p3 = p_total_syscalls p + 1).
  { unfold per_tid_syscall_entry, with_cpu in Hper.
    apply bind_Ok in Hper as (? & ? & [= <- <-] & Hper). rewrite Hc in Hper.
    cbn [current_tid] in Hper.
    apply bind_Ok in Hper as (a' & s1 & H1 & Hper). unfold tids_item in H1.
    apply bind_Ok in H1 as (? & ? & [= <- <-] & H1). apply item_Ok in H1 as [H1 ->].
    assert (a' = a) as -> by congruence.
    apply bind_Ok in Hper as ([] & s1 & [= <-] & Hper).
    apply bind_Ok in Hper as (n & s1 & Hn & Hper). apply override_name_state in Hn as ->.
    apply bind_Ok in Hper as ([] & s1 & [= <-] & Hper).
    apply bind_Ok in Hper as ([] & s1 & [= <-] & Hper).
    apply bind_Ok in Hper as ([] & s1 & [= <-] & Hper).
    unfold global_syscall_entry in Hper. destruct (String.eqb n "total"); [done|].
    apply bind_Ok in Hper as ([] & s1 & [= <-] & [= <-]). ssimpl. split.
    - intros b Hb. ssimpl. rewrite !lookup_alter_None. by apply Hal.
    - split; [reflexivity|]. rewrite !lookup_alter_eq, Hp. ssimpl.
      eexists. split; [reflexivity|]. psimpl. reflexivity. }
  destruct Hs3 as (Hal3 & Ht3 & p3 & Hp3 & Hc3).
  (* the bookkeeping of descriptors keeps it *)
  apply bind_Ok in Hrest as ([] & s4 & H4 & Hrest). apply track_fds_same_totals in H4.
  apply bind_Ok in Hrest as ([] & s5 & H5 & H6).
  assert (F5 : same_totals s4 s5).
  { destruct (mem (ev_name e) (READ_SYSCALLS K) || mem (ev_name e) (WRITE_SYSCALLS K)).
    - by apply track_read_write_same_totals in H5.
    - injection H5 as <-. reflexivity. }
  assert (F6 : same_totals s5 s').
  { destruct (mem (ev_name e) (SYNC_SYSCALLS K)).
    - by apply track_sync_same_totals in H6.
    - injection H6 as <-. reflexivity. }
  destruct (transitivity H4 (transitivity F5 F6) Hal3) as (_ & Ht & Hprocs).
  split; [congruence|]. destruct (Hprocs a p3 Hp3) as (p' & Hp' & E).
  exists p'. split; [done | congruence].
Qed.

Lemma one_thread_allocated tid pid : allocated (one_thread tid pid).
Proof.
  intros a Ha. cbn [next one_thread] in Ha. cbn [procs one_thread].
  apply lookup_singleton_ne. lia.
Qed.

Lemma syscall_entry_counts_once_witness :
  exists s' p',
    _process_syscall_entry catalog (snd (open_entry "/tmp/a" 100)) (one_thread 42 None)
      = Ok (tt, s') /\
    syscalls_total s' = 1 /\ procs s' !! 0%nat = Some p' /\ p_total_syscalls p' = 1.
Proof.
  assert (Hrun : _process_syscall_entry catalog (snd (open_entry "/tmp/a" 100))
                   (one_thread 42 None) = Ok (tt, _)) by (vm_compute; reflexivity).
  match type of Hrun with
  | _ = Ok (_, ?s0) =>
      destruct (syscall_entry_counts_once catalog (snd (open_entry "/tmp/a" 100))
                  (one_thread 42 None) s0 0 42 0%nat _ eq_refl eq_refl eq_refl eq_refl
                  (one_thread_allocated 42 None) Hrun) as (Ht & p' & Hp' & Hc);
      exists s0, p'
  end.
  split; [exact Hrun|]. split; [exact Ht|]. split; [exact Hp' | exact Hc].
Defined.

(** *** The pid of a thread, learnt from the event context *)

(** X6.  When the pid of a thread is not known and the event carries a [pid]
    in its stream context and none in its payload, different from the
    tid, the thread gets that pid and the thread table gets a fresh
    process under the pid, with the name of the thread and empty
    descriptor tables: a process already registered under the pid is
    replaced in the table, not reused. *)
Theorem fix_context_pid_replaces_process e t s p pid :
  ev_context e !! "pid" = Some (VInt pid) ->
  ev_payload e !! "pid" = None ->
  procs s !! t = Some p ->
  p_pid p = None ->
  p_tid p <> Some pid ->
  allocated s ->
  exists s',
    _fix_context_pid e t s = Ok (tt, s') /\
    tids s' = <[pid := next s]> (tids s) /\
    procs s' !! t = Some (set_p_pid (Some pid) p) /\
    procs s' !! next s
      = Some (set_p_comm (p_comm p)
                (set_p_pid (Some pid) (set_p_tid (Some pid) Process_new))).
Proof.
  intros Hctx Hpay Hp Hpid Htid Hal.
  assert (Hne : t <> next s) by (intros ->; rewrite Hal in Hp by done; discriminate).
  unfold _fix_context_pid. rewrite Hctx, Hpay.
  rewrite bool_decide_true by eauto. rewrite bool_decide_false by (by intros [? ?]).
  cbn [andb negb]. unfold ev_int, ev_item, ev_get. rewrite Hpay, Hctx.
  unfold alloc_proc, proc, upd_proc, as_int. unfold_M. rewrite Hp, Hpid.
  rewrite bool_decide_true by congruence.
  repeat (ssimpl; rewrite ?lookup_alter_eq, ?lookup_alter_ne, ?lookup_insert_eq,
            ?lookup_insert_ne, ?Hp by done; psimpl).
  eexists. split; [reflexivity|]. ssimpl. split; [reflexivity|].
  repeat (ssimpl; rewrite ?lookup_alter_eq, ?lookup_alter_ne, ?lookup_insert_eq,
            ?lookup_insert_ne, ?Hp by done; psimpl).
  done.
Qed.

Lemma thread_of_known_process_allocated : allocated thread_of_known_process.
Proof.
  intros a Ha. cbn [next thread_of_known_process] in Ha. cbn [procs thread_of_known_process].
  rewrite lookup_insert_ne by lia. apply lookup_singleton_ne. lia.
Qed.

(** Thread 43 makes a syscall; the context names process 42, which loses
    its descriptor 3. *)
Lemma fix_context_pid_replaces_witness :
  exists s',
    _fix_context_pid (snd (getpid_entry_of 42 10)) 1%nat thread_of_known_process
      = Ok (tt, s') /\
    descriptor thread_of_known_process 42 3 <> None /\
    (p_fds <$> process_of s' 42) = Some ∅.
Proof.
  destruct (fix_context_pid_replaces_process (snd (getpid_entry_of 42 10)) 1%nat
              thread_of_known_process _ 42 eq_refl eq_refl eq_refl eq_refl
              ltac:(discriminate) thread_of_known_process_allocated)
    as (s' & H & Htids & _ & Hnew).
  exists s'. split; [exact H|]. split; [discriminate|].
  unfold process_of. rewrite Htids, lookup_insert_eq. cbn [mbind option_bind].
  rewrite Hnew. reflexivity.
Defined.

(** *** The statedump of a process and of a new descriptor *)

(** X11.  A process-state record of the statedump whose pid equals its tid, for
    a thread the table knows, sets the pid and the name of the process and
    nothing else: no descriptor is moved. *)
Theorem process_state_of_process e s tid name a p :
  ev_get e "tid" = Some (VInt tid) ->
  ev_get e "pid" = Some (VInt tid) ->
  ev_get e "name" = Some (VStr name) ->
  tids s !! tid = Some a ->
  procs s !! a = Some p ->
  _process_lttng_statedump_process_state e s
  = Ok (tt, set_procs (<[a := set_p_comm name (set_p_pid (Some tid) p)]> (procs s)) s).
Proof.
  intros Htid Hpid Hname Ha Hp. unfold _process_lttng_statedump_process_state.
  unfold bind_M at 1. rewrite (ev_int_run _ _ _ _ Htid).
  unfold bind_M at 1. rewrite (ev_int_run _ _ _ _ Hpid).
  unfold bind_M at 1. rewrite (ev_str_run _ _ _ _ Hname).
  unfold upd_proc. unfold_M. rewrite Ha, Z.eqb_refl. ssimpl.
  rewrite (alter_Some _ _ _ _ Hp). rewrite alter_insert_eq. reflexivity.
Qed.

Lemma process_state_of_process_witness :
  (p_pid <$> process_of (one_thread 42 None) 42) = Some None /\
  exists s',
    _process_lttng_statedump_process_state (snd (process_state 42 42 "worker" 10))
      (one_thread 42 None) = Ok (tt, s') /\
    (p_pid <$> process_of s' 42) = Some (Some 42) /\
    (p_comm <$> process_of s' 42) = Some "worker".
Proof.
  split; [reflexivity|]. eexists. split.
  - exact (process_state_of_process (snd (process_state 42 42 "worker" 10))
             (one_thread 42 None) 42 "worker" 0%nat _ eq_refl eq_refl eq_refl eq_refl eq_refl).
  - split; reflexivity.
Defined.

Lemma cloexec_bit (flags : Z) :
  (Z.land flags O_CLOEXEC =? O_CLOEXEC) = Z.testbit flags 19.
Proof.
  change O_CLOEXEC with (2 ^ 19).
  destruct (Z.testbit flags 19) eqn:Hb.
  - apply Z.eqb_eq. apply Z.bits_inj'. intros n Hn. rewrite Z.land_spec.
    destruct (decide (n = 19)) as [->|Hne].
    + by rewrite Hb, Z.pow2_bits_true.
    + rewrite (Z.pow2_bits_false 19 n) by lia. apply andb_false_r.
  - apply Z.eqb_neq. intros H. apply (f_equal (fun z => Z.testbit z 19)) in H.
    rewrite Z.land_spec, Hb, Z.pow2_bits_true in H by lia. discriminate.
Qed.

(** X13.  A file-descriptor record of the statedump for a known process that
    has no descriptor under the fd number of the record creates the
    descriptor with the filename and the number of the record, and with
    the cloexec flag at 1 exactly when bit 19 of the flags ([O_CLOEXEC],
    0o2000000) is set, whatever the other bits. *)
Theorem statedump_fd_new_descriptor s e pid fd filename flags a p :
  ev_get e "pid" = Some (VInt pid) ->
  ev_get e "fd" = Some (VInt fd) ->
  ev_get e "filename" = Some (VStr filename) ->
  ev_get e "flags" = Some (VInt flags) ->
  tids s !! pid = Some a ->
  procs s !! a = Some p ->
  p_fds p !! fd = None ->
  exists s' p',
    _process_lttng_statedump_file_descriptor e s = Ok (tt, s') /\
    fdheap s' = <[next s := set_fd_cloexec (if Z.testbit flags 19 then 1 else 0)
                              (set_fd_fd fd (set_fd_filename filename FD_new))]> (fdheap s) /\
    procs s' !! a = Some p' /\
    p_fds p' = <[fd := next s]> (p_fds p) /\
    p_closed_fds p' = p_closed_fds p.
Proof.
  intros Hpid Hfd Hname Hflags Ha Hp Hnone.
  unfold _process_lttng_statedump_file_descriptor.
  unfold bind_M at 1. rewrite (ev_int_run _ _ _ _ Hpid).
  unfold bind_M at 1. rewrite (ev_int_run _ _ _ _ Hfd).
  unfold bind_M at 1. rewrite (ev_str_run _ _ _ _ Hname).
  unfold bind_M at 1. rewrite (ev_int_run _ _ _ _ Hflags).
  cbv zeta. rewrite cloexec_bit.
  unfold alloc_fd, fds_item, proc, the_fd, upd_fd, upd_proc. unfold_M.
  repeat (ssimpl; psimpl; rewrite ?Ha, ?Hp, ?Hnone, ?lookup_alter_eq, ?lookup_insert_eq).
  eexists. eexists. split; [reflexivity|]. ssimpl.
  rewrite !lookup_alter_eq, Hp. ssimpl. split; [by rewrite !alter_insert_eq|].
  split; [reflexivity|]. psimpl. done.
Qed.

Lemma statedump_fd_new_descriptor_witness :
  exists s' x,
    _process_lttng_statedump_file_descriptor
      (snd (file_descriptor 42 5 "/tmp/a" (O_CLOEXEC + 2) 10)) (one_thread 42 None)
      = Ok (tt, s') /\
    descriptor s' 42 5 = Some x /\ fd_filename x = "/tmp/a" /\ fd_cloexec x = 1.
Proof.
  destruct (statedump_fd_new_descriptor (one_thread 42 None)
              (snd (file_descriptor 42 5 "/tmp/a" (O_CLOEXEC + 2) 10)) 42 5 "/tmp/a"
              (O_CLOEXEC + 2) 0%nat _ eq_refl eq_refl eq_refl eq_refl eq_refl eq_refl eq_refl)
    as (s' & p' & H & Hheap & Hp' & Hfds & _).
  exists s'. eexists. split; [exact H|].
  assert (Ht : tids s' = tids (one_thread 42 None)).
  { revert H. vm_compute. by intros [= <-]. }
  unfold descriptor, process_of. rewrite Ht. cbn [tids one_thread].
  rewrite lookup_singleton_eq. cbn [mbind option_bind]. rewrite Hp'. cbn [mbind option_bind].
  rewrite Hfds, lookup_insert_eq. cbn [mbind option_bind].
  rewrite Hheap, lookup_insert_eq. split; [reflexivity|]. split; reflexivity.
Defined.

(** *** A syscall that fails *)

Global Instance same_bytes_refl : Reflexive same_bytes.
Proof. intros s. split; eauto. Qed.
Global Instance same_bytes_trans : Transitive same_bytes.
Proof.
  intros s1 s2 s3 (A1 & A2) (B1 & B2). split.
  - intros a x Hx. destruct (A1 a x Hx) as (x2 & Hx2 & E2).
    destruct (B1 a x2 Hx2) as (x3 & Hx3 & E3). exists x3. split; [done | congruence].
  - intros a p Hp. destruct (A2 a p Hp) as (p2 & Hp2 & E2).
    destruct (B2 a p2 Hp2) as (p3 & Hp3 & E3). exists p3. split; [done | congruence].
Qed.

Ltac bytes_leaf :=
  idtac;
  match goal with
  | |- same_bytes ?s _ =>
      split;
      [ let a := fresh "a" in let x := fresh "x" in let Hx := fresh "Hx" in
        intros a x Hx; cbn [fdheap procs fresh set_next set_procs set_fdheap set_rqheap
                            set_tids set_pending_syscalls];
        first
          [ solve [eauto]
          | rewrite lookup_alter; case_decide; [subst; rewrite Hx | solve [eauto]];
            cbn [fmap option_fmap option_map]; eexists; split; [reflexivity|];
            unfold fd_bytes; fsimpl; reflexivity ]
      | let a := fresh "a" in let p := fresh "p" in let Hp := fresh "Hp" in
        intros a p Hp; cbn [fdheap procs fresh set_next set_procs set_fdheap set_rqheap
                            set_tids set_pending_syscalls];
        first
          [ solve [eauto]
          | rewrite lookup_alter; case_decide; [subst; rewrite Hp | solve [eauto]];
            cbn [fmap option_fmap option_map]; eexists; split; [reflexivity|];
            unfold p_bytes; psimpl; reflexivity ] ]
  end.

Lemma track_rw_latency_same_bytes K name ret c ts e :
  preserves same_bytes (track_rw_latency K name ret c ts e).
Proof. unfold track_rw_latency. frame bytes_leaf. Qed.

Lemma exit_finish_same_bytes c : preserves same_bytes (exit_finish c).
Proof.
  unfold exit_finish. frame bytes_leaf.
  destruct (existsb _ _); [bytes_leaf | reflexivity].
Qed.

Lemma per_tid_syscall_exit_same_bytes name ret e c :
  preserves same_bytes (_per_tid_syscall_exit name ret e c).
Proof.
  unfold _per_tid_syscall_exit. frame fail.
  split; [eauto|]. intros b p Hp. cbn [procs set_procs].
  destruct (decide (a = b)) as [->|]; [|rewrite lookup_alter_ne by done; eauto].
  rewrite lookup_alter_eq, Hp. cbn [fmap option_fmap option_map].
  eexists. split; [reflexivity|]. by destruct (p_syscalls p !! name).
Qed.

Lemma track_read_write_return_failed K name ret c :
  ret < 0 -> preserves same_bytes (track_read_write_return K name ret c).
Proof.
  intros Hret. unfold track_read_write_return.
  destruct (Z.ltb_spec ret 0); [preserves_step | lia].
Qed.

#[local] Hint Resolve track_rw_latency_same_bytes exit_finish_same_bytes : frames.

Ltac peel_bytes :=
  peel_with same_bytes
    ltac:(idtac; frame ltac:(first [bytes_leaf | solve [eauto with frames]])).

(** X10.  The exit of a syscall that failed (negative return value), for a
    syscall that is not of the open family, changes no byte counter: of no
    descriptor and of no process. *)
Theorem failed_syscall_counts_no_bytes K s s' e cpu tid a p name ret :
  ev_get e "cpu_id" = Some (VInt cpu) ->
  ev_get e "ret" = Some (VInt ret) ->
  cpus s !! cpu = Some (mkCPU (Some tid)) ->
  tids s !! tid = Some a ->
  procs s !! a = Some p ->
  p_current_syscall p !! "name" = Some (VStr name) ->
  mem name (OPEN_SYSCALLS K) = false ->
  ret < 0 ->
  _process_syscall_exit K e s = Ok (tt, s') ->
  same_bytes s s'.
Proof.
  intros Hcpu Hret Hc Ha Hp Hname Hopen Hneg H.
  assert (Hne : p_current_syscall p <> ∅).
  { intros E. rewrite E in Hname. by rewrite lookup_empty in Hname. }
  unfold _process_syscall_exit in H.
  apply bind_Ok in H as (cpu' & s0 & H0 & H). apply ev_int_Ok in H0 as [H0 ->].
  assert (cpu' = cpu) as -> by congruence.
  unfold with_cpu in H. apply bind_Ok in H as (s0 & s1 & [= <- <-] & H).
  rewrite Hc in H. cbn [current_tid] in H.
  apply bind_Ok in H as (a' & s1 & H1 & H). unfold tids_item in H1.
  apply bind_Ok in H1 as (s2 & s3 & [= <- <-] & H1). apply item_Ok in H1 as [H1 ->].
  assert (a' = a) as -> by congruence.
  apply bind_Ok in H as (d & s1 & H2 & H). unfold cs, proc in H2.
  apply bind_Ok in H2 as (p' & s2 & H2 & [= <- <-]).
  apply bind_Ok in H2 as (s3 & s4 & [= <- <-] & H2). apply item_Ok in H2 as [H2 ->].
  assert (p' = p) as -> by congruence.
  unfold nonempty in H. rewrite bool_decide_false in H by done. cbn [negb] in H.
  apply bind_Ok in H as (namev & s1 & H3 & H). unfold cs_item, cs, proc in H3.
  apply bind_Ok in H3 as (d & s2 & H3 & H3').
  apply bind_Ok in H3 as (p' & s3 & H3 & [= <- <-]).
  apply bind_Ok in H3 as (s4 & s5 & [= <- <-] & H3). apply item_Ok in H3 as [H3 ->].
  assert (p' = p) as -> by congruence.
  apply item_Ok in H3' as [H3' ->]. assert (namev = VStr name) as -> by congruence.
  apply bind_Ok in H as (name' & s1 & [= <- <-] & H).
  apply bind_Ok in H as (ret' & s1 & H4 & H). apply ev_int_Ok in H4 as [H4 ->].
  assert (ret' = ret) as -> by congruence.
  apply bind_Ok in H as ([] & s1 & H5 & H).
  pose proof (per_tid_syscall_exit_same_bytes _ _ _ _ _ _ _ H5) as F. clear H5.
  destruct (mem name (IO_SYSCALLS K)); cbn [negb] in H; [|by injection H as <-].
  rewrite Hopen in H.
  do 3 peel_bytes.
  assert (Hfin : forall s2, same_bytes s s2 -> exit_finish (mkCPU (Some tid)) s2 = Ok (tt, s') ->
            same_bytes s s').
  { intros s2 F2 Hf. transitivity s2; [done|]. by eapply exit_finish_same_bytes. }
  destruct (mem name (READ_SYSCALLS K) || mem name (WRITE_SYSCALLS K)).
  - apply bind_Ok in H as ([] & s2 & H6 & H).
    apply (track_read_write_return_failed K name ret _ Hneg) in H6.
    match goal with
    | Fx : same_bytes s ?x |- _ => pose proof (transitivity Fx H6) as F'; clear Fx H6
    end.
    repeat peel_bytes. eauto.
  - destruct (mem name (SYNC_SYSCALLS K)); repeat peel_bytes; eauto.
Qed.

(** The read of thread 42 fails with -9. *)
Lemma failed_syscall_counts_no_bytes_witness :
  exists s s',
    run catalog [open_entry "/tmp/a" 100; syscall_exit 0 5 101; read_entry 5 110]
      (one_thread 42 None) = Ok (tt, s) /\
    _process_syscall_exit catalog (snd (syscall_exit 0 (-9) 115)) s = Ok (tt, s') /\
    same_bytes s s'.
Proof.
  eexists.
  assert (Hrun : run catalog [open_entry "/tmp/a" 100; syscall_exit 0 5 101; read_entry 5 110]
                   (one_thread 42 None) = Ok (tt, _)) by (vm_compute; reflexivity).
  match type of Hrun with
  | _ = Ok (_, ?s0) =>
      eexists;
      assert (Hexit : _process_syscall_exit catalog (snd (syscall_exit 0 (-9) 115)) s0
                      = Ok (tt, _)) by (vm_compute; reflexivity);
      assert (Hp : procs s0 !! 0%nat = Some _) by (vm_compute; reflexivity);
      split; [exact Hrun|]; split; [exact Hexit|];
      exact (failed_syscall_counts_no_bytes catalog s0 _ (snd (syscall_exit 0 (-9) 115))
               0 42 0%nat _ "sys_read" (-9) eq_refl eq_refl eq_refl eq_refl Hp eq_refl
               eq_refl ltac:(lia) Hexit)
  end.
Defined.

(** *** The descriptors of a thread move to its process *)

Lemma merge_fd_moves p parent fd s x y a c :
  p <> parent ->
  procs s !! p = Some x ->
  procs s !! parent = Some y ->
  p_fds x !! fd = Some a ->
  p_chrono_fds x !! fd = Some c ->
  p_fds y !! fd = None ->
  merge_fd p parent fd s
  = Ok (tt, set_procs
              (<[parent := set_p_chrono_fds (<[fd := c]> (p_chrono_fds y))
                             (set_p_fds (<[fd := a]> (p_fds y)) y)]> (procs s)) s).
Proof.
  intros Hne Hx Hy Ha Hc Hnone.
  unfold merge_fd, fds_item, proc, upd_proc. unfold_M.
  repeat (ssimpl; psimpl; rewrite ?Hx, ?Hy, ?Ha, ?Hc, ?Hnone, ?lookup_alter_ne by done).
  rewrite (alter_Some _ _ _ _ Hy). rewrite alter_insert_eq. reflexivity.
Qed.

Lemma merge_loop p parent x (l : list Z) :
  p <> parent ->
  NoDup l ->
  forall s y,
    procs s !! p = Some x ->
    procs s !! parent = Some y ->
    (forall fd, fd ∈ l ->
       is_Some (p_fds x !! fd) /\ is_Some (p_chrono_fds x !! fd) /\ p_fds y !! fd = None) ->
    exists s' y',
      for_M l (merge_fd p parent) s = Ok (tt, s') /\
      procs s' !! p = Some x /\
      procs s' !! parent = Some y' /\
      (forall fd, p_fds y' !! fd = if decide (fd ∈ l) then p_fds x !! fd else p_fds y !! fd) /\
      p_closed_fds y' = p_closed_fds y /\
      fdheap s' = fdheap s /\ tids s' = tids s.
Proof.
  intros Hne Hnd. induction Hnd as [|fd l Hnotin Hnd IH]; intros s y Hx Hy Hl.
  - exists s, y. split; [reflexivity|]. repeat split; done.
  - destruct (Hl fd) as ([a Ha] & [c Hc] & Hnone); [apply list_elem_of_here|].
    cbn [for_M]. unfold bind_M at 1.
    rewrite (merge_fd_moves p parent fd s x y a c Hne Hx Hy Ha Hc Hnone).
    set (y1 := set_p_chrono_fds (<[fd := c]> (p_chrono_fds y))
                 (set_p_fds (<[fd := a]> (p_fds y)) y)).
    set (s1 := set_procs (<[parent := y1]> (procs s)) s).
    destruct (IH s1 y1) as (s' & y' & Hrun & Hx' & Hy' & Hfds & Hcl & Hheap & Htids).
    + subst s1. ssimpl. by rewrite lookup_insert_ne.
    + subst s1. ssimpl. by rewrite lookup_insert_eq.
    + intros fd' Hin. destruct (Hl fd') as (H1 & H2 & H3); [by apply list_elem_of_further|].
      split; [done|]. split; [done|]. subst y1. psimpl.
      rewrite lookup_insert_ne; [done|]. intros <-. done.
    + exists s', y'. split; [exact Hrun|]. split; [done|]. split; [done|]. split.
      * intros fd'. rewrite Hfds. subst y1. psimpl.
        destruct (decide (fd' = fd)) as [->|Hfd].
        -- rewrite decide_False by done. rewrite lookup_insert_eq.
           rewrite decide_True by apply list_elem_of_here. done.
        -- rewrite lookup_insert_ne by done.
           destruct (decide (fd' ∈ l)) as [Hin|Hout].
           ++ rewrite decide_True by (by apply list_elem_of_further). done.
           ++ rewrite decide_False; [done|]. intros Hin.
              apply elem_of_cons in Hin as [?|?]; done.
      * split; [by rewrite Hcl|]. split; [by rewrite Hheap | by rewrite Htids].
Qed.

Lemma del_loop p (l : list Z) :
  NoDup l ->
  forall s x,
    procs s !! p = Some x ->
    (forall fd, fd ∈ l -> is_Some (p_fds x !! fd) /\ is_Some (p_chrono_fds x !! fd)) ->
    exists s' x',
      for_M l (fun fd => del_fds p fd >> del_chrono_fds p fd) s = Ok (tt, s') /\
      procs s' !! p = Some x' /\
      (forall fd, p_fds x' !! fd = if decide (fd ∈ l) then None else p_fds x !! fd) /\
      p_closed_fds x' = p_closed_fds x /\
      (forall b, b <> p -> procs s' !! b = procs s !! b) /\
      fdheap s' = fdheap s /\ tids s' = tids s.
Proof.
  intros Hnd. induction Hnd as [|fd l Hnotin Hnd IH]; intros s x Hx Hl.
  - exists s, x. split; [reflexivity|]. repeat split; done.
  - destruct (Hl fd) as ([a Ha] & [c Hc]); [apply list_elem_of_here|].
    cbn [for_M]. unfold bind_M at 1.
    set (x1 := set_p_chrono_fds (delete fd (p_chrono_fds x))
                 (set_p_fds (delete fd (p_fds x)) x)).
    set (s1 := set_procs (<[p := x1]> (procs s)) s).
    assert (Hstep : (del_fds p fd >> del_chrono_fds p fd) s = Ok (tt, s1)).
    { unfold del_fds, del_chrono_fds, proc, upd_proc. unfold_M.
      repeat (ssimpl; psimpl; rewrite ?Hx, ?Ha, ?Hc, ?lookup_alter_eq).
      subst s1 x1. rewrite (alter_Some _ _ _ _ Hx). by rewrite alter_insert_eq. }
    rewrite Hstep.
    destruct (IH s1 x1) as (s' & x' & Hrun & Hx' & Hfds & Hcl & Hother & Hheap & Htids).
    + subst s1. ssimpl. by rewrite lookup_insert_eq.
    + intros fd' Hin. destruct (Hl fd') as (H1 & H2); [by apply list_elem_of_further|].
      subst x1. psimpl. rewrite !lookup_delete_ne by (intros <-; done). done.
    + exists s', x'. split; [exact Hrun|]. split; [done|]. split.
      * intros fd'. rewrite Hfds. subst x1. psimpl.
        destruct (decide (fd' = fd)) as [->|Hfd].
        -- rewrite decide_False by done. rewrite lookup_delete_eq.
           rewrite decide_True by apply list_elem_of_here. done.
        -- rewrite lookup_delete_ne by done.
           destruct (decide (fd' ∈ l)) as [Hin|Hout].
           ++ rewrite decide_True by (by apply list_elem_of_further). done.
           ++ rewrite decide_False; [done|]. intros Hin.
              apply elem_of_cons in Hin as [?|?]; done.
      * split; [by rewrite Hcl|]. split.
        -- intros b Hb. rewrite Hother by done. subst s1. ssimpl.
           by rewrite lookup_insert_ne.
        -- split; [by rewrite Hheap | by rewrite Htids].
Qed.

(** [merge_fd_dict], for a thread whose closed table is empty and whose
    descriptor numbers are all free in the process: the descriptors of the
    thread move to the open table of the process, which keeps its own, and
    the open table of the thread is empty afterwards; the descriptors
    themselves and the closed table of the process are as before. *)
Lemma merge_fd_dict_moves p parent s x y :
  p <> parent ->
  procs s !! p = Some x ->
  procs s !! parent = Some y ->
  p_closed_fds x = ∅ ->
  (forall fd, is_Some (p_fds x !! fd) ->
     is_Some (p_chrono_fds x !! fd) /\ p_fds y !! fd = None) ->
  exists s' x' y',
    merge_fd_dict p parent s = Ok (tt, s') /\
    procs s' !! p = Some x' /\
    procs s' !! parent = Some y' /\
    p_fds x' = ∅ /\
    p_fds y' = p_fds x ∪ p_fds y /\
    p_closed_fds y' = p_closed_fds y /\
    fdheap s' = fdheap s /\ tids s' = tids s.
Proof.
  intros Hne Hx Hy Hcl Hfree. unfold merge_fd_dict.
  set (l := map fst (map_to_list (p_fds x))).
  assert (Hnd : NoDup l) by apply NoDup_fst_map_to_list.
  assert (Hin : forall fd, fd ∈ l <-> is_Some (p_fds x !! fd)).
  { intros fd. subst l. rewrite list_elem_of_fmap. split.
    - intros ([k v] & -> & Hkv). apply elem_of_map_to_list in Hkv. eauto.
    - intros [v Hv]. exists (fd, v). split; [done|]. by apply elem_of_map_to_list. }
  assert (Hloops : exists s2 x' y',
            (for_M l (merge_fd p parent) >>
             for_M l (fun fd => del_fds p fd >> del_chrono_fds p fd)) s = Ok (tt, s2) /\
            procs s2 !! p = Some x' /\ procs s2 !! parent = Some y' /\
            p_fds x' = ∅ /\ p_fds y' = p_fds x ∪ p_fds y /\
            p_closed_fds x' = ∅ /\ p_closed_fds y' = p_closed_fds y /\
            fdheap s2 = fdheap s /\ tids s2 = tids s).
  { destruct (merge_loop p parent x l Hne Hnd s y Hx Hy)
      as (s1 & y1 & Hrun1 & Hx1 & Hy1 & Hfds1 & Hcl1 & Hheap1 & Htids1).
    { intros fd Hfd. apply Hin in Hfd. destruct (Hfree fd Hfd). done. }
    destruct (del_loop p l Hnd s1 x Hx1)
      as (s2 & x2 & Hrun2 & Hx2 & Hfds2 & Hcl2 & Hother2 & Hheap2 & Htids2).
    { intros fd Hfd. apply Hin in Hfd. destruct (Hfree fd Hfd). done. }
    exists s2, x2, y1. split.
    { unfold bind_M. by rewrite Hrun1. }
    split; [done|]. split; [by rewrite Hother2|]. split.
    { apply map_eq. intros fd. rewrite Hfds2, lookup_empty.
      destruct (decide (fd ∈ l)) as [|Hout]; [done|].
      destruct (p_fds x !! fd) eqn:E; [|done]. exfalso. apply Hout, Hin. eauto. }
    split.
    { apply map_eq. intros fd. rewrite Hfds1, lookup_union.
      destruct (decide (fd ∈ l)) as [Hfd|Hout].
      - apply Hin in Hfd as [v Hv]. rewrite Hv. destruct (Hfree fd) as [_ ->]; eauto.
      - destruct (p_fds x !! fd) eqn:E; [exfalso; apply Hout, Hin; eauto|].
        by destruct (p_fds y !! fd). }
    split; [congruence|]. split; [done|]. split; congruence. }
  destruct Hloops as (s2 & x' & y' & Hrun & Hx' & Hy' & E1 & E2 & E3 & E4 & E5 & E6).
  assert (Hfirst : exists s1 x1 y1,
            (let* x0 := proc p in
             if negb (bool_decide (p_fds x0 = ∅)) then
               for_M (map fst (map_to_list (p_fds x0))) (merge_fd p parent) >>
               for_M (map fst (map_to_list (p_fds x0)))
                 (fun fd => del_fds p fd >> del_chrono_fds p fd)
             else unit_M tt) s = Ok (tt, s1) /\
            procs s1 !! p = Some x1 /\ procs s1 !! parent = Some y1 /\
            p_fds x1 = ∅ /\ p_fds y1 = p_fds x ∪ p_fds y /\
            p_closed_fds x1 = ∅ /\ p_closed_fds y1 = p_closed_fds y /\
            fdheap s1 = fdheap s /\ tids s1 = tids s).
  { unfold proc. unfold bind_M at 1 2, get_M at 1, item_M at 1. rewrite Hx.
    unfold unit_M at 1. case_bool_decide as Hempty; cbn [negb].
    - exists s, x, y. split; [reflexivity|]. repeat split; try done.
      rewrite Hempty. by rewrite (left_id_L ∅ (∪)).
    - exists s2, x', y'. fold l. done. }
  destruct Hfirst as (s1 & x1 & y1 & Hrun1 & Hx1 & Hy1 & F1 & F2 & F3 & F4 & F5 & F6).
  exists s1, x1, y1. split.
  { unfold bind_M at 1. rewrite Hrun1. unfold proc. unfold_M. rewrite Hx1, F3.
    rewrite map_to_list_empty. reflexivity. }
  done.
Qed.

(** X12.  A process-state record of the statedump for a thread (pid different
    from tid) of a known process, when the closed table of the thread is
    empty and its descriptor numbers are free in the process: the handler
    returns, the descriptors of the thread are in the open table of the
    process, next to its own, and the open table of the thread is empty. *)
Theorem process_state_moves_descriptors e s tid pid name p parent x y :
  ev_get e "tid" = Some (VInt tid) ->
  ev_get e "pid" = Some (VInt pid) ->
  ev_get e "name" = Some (VStr name) ->
  tids s !! tid = Some p ->
  tids s !! pid = Some parent ->
  p <> parent ->
  procs s !! p = Some x ->
  procs s !! parent = Some y ->
  p_closed_fds x = ∅ ->
  (forall fd, is_Some (p_fds x !! fd) ->
     is_Some (p_chrono_fds x !! fd) /\ p_fds y !! fd = None) ->
  exists s' x' y',
    _process_lttng_statedump_process_state e s = Ok (tt, s') /\
    procs s' !! p = Some x' /\
    procs s' !! parent = Some y' /\
    p_fds x' = ∅ /\
    p_fds y' = p_fds x ∪ p_fds y /\
    p_closed_fds y' = p_closed_fds y /\
    fdheap s' = fdheap s /\ tids s' = tids s.
Proof.
  intros Htid Hpid Hname Hp Hparent Hne Hx Hy Hcl Hfree.
  assert (Hneq : pid <> tid) by (intros ->; congruence).
  unfold _process_lttng_statedump_process_state.
  unfold bind_M at 1. rewrite (ev_int_run _ _ _ _ Htid).
  unfold bind_M at 1. rewrite (ev_int_run _ _ _ _ Hpid).
  unfold bind_M at 1. rewrite (ev_str_run _ _ _ _ Hname).
  unfold bind_M at 1, get_M at 1. rewrite Hp.
  unfold bind_M at 1, unit_M at 1.
  destruct (Z.eqb_spec pid tid) as [|_]; [done|]. cbn [negb].
  unfold upd_proc. unfold bind_M at 1, modify_M at 1. unfold bind_M at 1, modify_M at 1.
  unfold bind_M at 1, get_M at 1. cbn [tids set_procs]. rewrite Hparent.
  unfold bind_M at 1, unit_M at 1.
  match goal with
  | |- exists s' x' y', merge_fd_dict p parent ?s1 = _ /\ _ =>
      destruct (merge_fd_dict_moves p parent s1
                  (set_p_comm name (set_p_pid (Some pid) x)) y Hne)
        as (s' & x' & y' & Hrun & Hx' & Hy' & E1 & E2 & E3 & E4 & E5)
  end.
  - cbn [procs set_procs]. by rewrite !lookup_alter_eq, Hx.
  - cbn [procs set_procs]. by rewrite !lookup_alter_ne.
  - exact Hcl.
  - exact Hfree.
  - exists s', x', y'. split; [exact Hrun|]. split; [done|]. split; [done|].
    split; [done|]. split; [exact E2|]. split; [done|]. split; [exact E4 | exact E5].
Qed.

(** Process 42 is known; its thread 43 opens "/tmp/a" as descriptor 5;
    the statedump then reports thread 43. *)
Lemma process_state_moves_descriptors_witness :
  exists s s' x' y',
    run catalog [process_state 42 42 "worker" 90; open_entry "/tmp/a" 100;
                 syscall_exit 0 5 105] (one_thread 43 None) = Ok (tt, s) /\
    (fd_filename <$> descriptor s 43 5) = Some "/tmp/a" /\
    descriptor s 42 5 = None /\
    _process_lttng_statedump_process_state (snd (process_state 43 42 "worker" 120)) s
      = Ok (tt, s') /\
    procs s' !! 0%nat = Some x' /\ p_fds x' = ∅ /\
    procs s' !! 1%nat = Some y' /\ p_fds y' !! 5 = Some 3%nat.
Proof.
  eexists.
  assert (Hrun : run catalog [process_state 42 42 "worker" 90; open_entry "/tmp/a" 100;
                              syscall_exit 0 5 105] (one_thread 43 None) = Ok (tt, _))
    by (vm_compute; reflexivity).
  match type of Hrun with
  | _ = Ok (_, ?s0) =>
      assert (Hx : procs s0 !! 0%nat = Some _) by (vm_compute; reflexivity);
      assert (Hy : procs s0 !! 1%nat = Some _) by (vm_compute; reflexivity);
      match type of Hx with
      | _ = Some ?x0 =>
          assert (Hfds : p_fds x0 = {[ 5 := 3%nat ]}) by (vm_compute; reflexivity);
          match type of Hy with
          | _ = Some ?y0 =>
              destruct (process_state_moves_descriptors
                          (snd (process_state 43 42 "worker" 120)) s0 43 42 "worker"
                          0%nat 1%nat x0 y0 eq_refl eq_refl eq_refl eq_refl eq_refl
                          ltac:(discriminate) Hx Hy eq_refl)
                as (s' & x' & y' & Hrun' & Hx' & Hy' & E1 & E2 & _)
          end
      end
  end.
  { intros fd [v Hv]. rewrite Hfds in Hv. apply lookup_singleton_Some in Hv as [<- _].
    split; [vm_compute; eauto | vm_compute; reflexivity]. }
  exists s', x', y'. split; [exact Hrun|].
  split; [vm_compute; reflexivity|]. split; [vm_compute; reflexivity|].
  split; [exact Hrun'|]. split; [exact Hx'|]. split; [exact E1|]. split; [exact Hy'|].
  rewrite E2, Hfds. reflexivity.
Defined.

(** *** The entry timestamps of the in-flight records, over a trace *)

Global Instance keeps_starts_refl T : Reflexive (keeps_starts T).
Proof. intros s H. exact H. Qed.
Global Instance keeps_starts_trans T : Transitive (keeps_starts T).
Proof. intros s1 s2 s3 A B H. apply B, A, H. Qed.

Ltac psimpl_in H :=
  cbn [p_tid p_pid p_comm p_fds p_closed_fds p_chrono_fds p_current_syscall p_net_read
       p_net_write p_disk_read p_disk_write p_unk_read p_unk_write p_read p_write
       p_prev_tid p_syscalls p_total_syscalls p_iorequests
       set_p_tid set_p_pid set_p_comm set_p_fds set_p_closed_fds set_p_chrono_fds
       set_p_current_syscall set_p_net_read set_p_net_write set_p_disk_read
       set_p_disk_write set_p_unk_read set_p_unk_write set_p_read set_p_write
       set_p_prev_tid set_p_syscalls set_p_total_syscalls set_p_iorequests track_chrono_fd]
    in H.

Ltac starts_leaf :=
  idtac;
  match goal with
  | |- keeps_starts ?T ?s _ =>
      let Hinv := fresh "Hinv" in
      let b := fresh "b" in let q := fresh "q" in let st := fresh "st" in
      let Hq := fresh "Hq" in let Hst := fresh "Hst" in
      intros Hinv b q st Hq Hst;
      cbv beta iota zeta in Hq;
      cbn [procs fresh set_next set_procs set_fdheap set_rqheap set_tids set_cpus
           set_pending_syscalls set_syscalls set_syscalls_total set_disks
           set_diskheap] in Hq;
      first
        [ exact (Hinv b q st Hq Hst)
        | rewrite lookup_alter in Hq; case_decide;
          [ subst; destruct (procs s !! b) as [q0|] eqn:Eq0; [|discriminate Hq];
            cbn [fmap option_fmap option_map] in Hq; injection Hq as <-;
            psimpl_in Hst;
            first
              [ exact (Hinv b q0 st Eq0 Hst)
              | rewrite lookup_insert_ne in Hst by done; exact (Hinv b q0 st Eq0 Hst)
              | rewrite lookup_insert_eq in Hst; injection Hst as <-; assumption
              | rewrite lookup_empty in Hst; discriminate Hst ]
          | exact (Hinv b q st Hq Hst) ]
        | rewrite lookup_insert in Hq; case_decide;
          [ injection Hq as <-; cbn in Hst; rewrite lookup_empty in Hst; discriminate Hst
          | exact (Hinv b q st Hq Hst) ] ]
  end.

Lemma get_fd_keeps_starts T proc_ fd e : preserves (keeps_starts T) (get_fd proc_ fd e).
Proof. unfold get_fd. frame starts_leaf. Qed.

Lemma close_fd_keeps_starts T K proc_ fd : preserves (keeps_starts T) (close_fd K proc_ fd).
Proof. unfold close_fd. frame starts_leaf. Qed.

#[local] Hint Resolve get_fd_keeps_starts close_fd_keeps_starts : frames.

Ltac keeps_starts_frame :=
  frame ltac:(first [starts_leaf | solve [eauto with frames]]).

Lemma track_open_tail_keeps_starts T K name cur e :
  ev_timestamp e <= T -> preserves (keeps_starts T) (track_open_tail K name cur e).
Proof. intros HT. unfold track_open_tail. keeps_starts_frame. Qed.

Lemma copy_oldfd_keeps_starts T cur proc_ oldfd :
  preserves (keeps_starts T) (copy_oldfd cur proc_ oldfd).
Proof. unfold copy_oldfd. keeps_starts_frame. Qed.

#[local] Hint Resolve track_open_tail_keeps_starts copy_oldfd_keeps_starts : frames.

Lemma track_open_keeps_starts T K name proc_ e c :
  ev_timestamp e <= T -> preserves (keeps_starts T) (track_open K name proc_ e c).
Proof. intros HT. unfold track_open. keeps_starts_frame. Qed.

Lemma track_close_keeps_starts T K name proc_ e c :
  ev_timestamp e <= T -> preserves (keeps_starts T) (track_close K name proc_ e c).
Proof. intros HT. unfold track_close. keeps_starts_frame. Qed.

Lemma fix_context_pid_keeps_starts T e t : preserves (keeps_starts T) (_fix_context_pid e t).
Proof. unfold _fix_context_pid. keeps_starts_frame. Qed.

#[local] Hint Resolve track_open_keeps_starts track_close_keeps_starts
  fix_context_pid_keeps_starts : frames.


Lemma track_two_fds_keeps_starts T t cur e f_in f_out f_count :
  preserves (keeps_starts T) (track_two_fds t cur e f_in f_out f_count).
Proof. unfold track_two_fds. keeps_starts_frame. Qed.

#[local] Hint Resolve track_two_fds_keeps_starts : frames.



Lemma override_name_keeps_starts T name e : preserves (keeps_starts T) (override_name name e).
Proof.
  intros s n s' H. apply override_name_state in H as ->. reflexivity.
Qed.

Lemma global_syscall_entry_keeps_starts T name :
  preserves (keeps_starts T) (global_syscall_entry name).
Proof. unfold global_syscall_entry. keeps_starts_frame. Qed.

#[local] Hint Resolve override_name_keeps_starts global_syscall_entry_keeps_starts : frames.



Lemma add_tid_fd_keeps_starts T K e c : preserves (keeps_starts T) (add_tid_fd K e c).
Proof. unfold add_tid_fd. keeps_starts_frame. Qed.

Lemma track_read_write_return_keeps_starts T K name ret c :
  preserves (keeps_starts T) (track_read_write_return K name ret c).
Proof. unfold track_read_write_return, read_append, write_append. keeps_starts_frame. Qed.

Lemma track_rw_latency_keeps_starts T K name ret c ts e :
  preserves (keeps_starts T) (track_rw_latency K name ret c ts e).
Proof. unfold track_rw_latency. keeps_starts_frame. Qed.

Lemma per_tid_syscall_exit_keeps_starts T name ret e c :
  preserves (keeps_starts T) (_per_tid_syscall_exit name ret e c).
Proof.
  intros s x s' H Hinv a p st Hp Hst.
  unfold _per_tid_syscall_exit in H.
  apply bind_Ok in H as (t & s1 & H1 & H).
  assert (s1 = s) as ->.
  { revert H1. unfold tids_item. unfold_M. destruct (current_tid c); [|done].
    destruct (tids s !! _); [|done]. by intros [= _ <-]. }
  apply bind_Ok in H as (p0 & s1 & H2 & H).
  unfold proc in H2. apply bind_Ok in H2 as (? & ? & [= <- <-] & H2).
  apply item_Ok in H2 as [Hp0 ->].
  destruct (p_syscalls p0 !! name) as [sc|] eqn:Esc.
  - apply bind_Ok in H as (v & s1 & H3 & H).
    apply bind_Ok in H as (ts & s2 & H4 & H).
    assert (s2 = s /\ s1 = s) as [-> ->].
    { unfold cs_item, cs, proc in H3. revert H3. unfold_M.
      destruct (procs s !! t) as [p1|]; [|done].
      destruct (p_current_syscall p1 !! "start") as [v'|]; [|done].
      cbv beta. intros [= <- <-]. revert H4. unfold as_int.
      destruct v'; unfold_M; try done. by intros [= _ <-]. }
    unfold upd_proc, modify_M in H. injection H as _ <-.
    cbn [procs set_procs] in Hp. rewrite lookup_alter in Hp. case_decide.
    + subst. rewrite Hp0 in Hp. cbn in Hp. rewrite Esc in Hp. injection Hp as <-.
      psimpl_in Hst. exact (Hinv _ _ _ Hp0 Hst).
    + exact (Hinv _ _ _ Hp Hst).
  - injection H as _ <-. exact (Hinv _ _ _ Hp Hst).
Qed.

Lemma exit_finish_keeps_starts T c : preserves (keeps_starts T) (exit_finish c).
Proof.
  unfold exit_finish. frame starts_leaf.
  intros Hinv b q st Hq Hst. destruct (existsb _ _); exact (Hinv b q st Hq Hst).
Qed.

#[local] Hint Resolve add_tid_fd_keeps_starts track_read_write_return_keeps_starts
  track_rw_latency_keeps_starts per_tid_syscall_exit_keeps_starts
  exit_finish_keeps_starts : frames.





Lemma merge_fd_keeps_starts T p parent fd : preserves (keeps_starts T) (merge_fd p parent fd).
Proof. unfold merge_fd, last_ts. keeps_starts_frame. Qed.

Lemma merge_closed_fd_keeps_starts T p parent fd :
  preserves (keeps_starts T) (merge_closed_fd p parent fd).
Proof. unfold merge_closed_fd, getattr_name. keeps_starts_frame. Qed.

Lemma del_fds_keeps_starts T p fd : preserves (keeps_starts T) (del_fds p fd).
Proof. unfold del_fds. keeps_starts_frame. Qed.

Lemma del_chrono_fds_keeps_starts T p fd : preserves (keeps_starts T) (del_chrono_fds p fd).
Proof. unfold del_chrono_fds. keeps_starts_frame. Qed.

Lemma del_closed_fds_keeps_starts T p fd : preserves (keeps_starts T) (del_closed_fds p fd).
Proof. unfold del_closed_fds. keeps_starts_frame. Qed.

#[local] Hint Resolve merge_fd_keeps_starts merge_closed_fd_keeps_starts del_fds_keeps_starts
  del_chrono_fds_keeps_starts del_closed_fds_keeps_starts : frames.

Lemma merge_fd_dict_keeps_starts T p parent :
  preserves (keeps_starts T) (merge_fd_dict p parent).
Proof.
  unfold merge_fd_dict.
  apply preserves_bind; [typeclasses eauto.. | |].
  - apply preserves_bind; [typeclasses eauto.. | unfold proc; keeps_starts_frame |].
    intros x. destruct (negb _); [|apply preserves_unit; typeclasses eauto].
    apply preserves_bind; [typeclasses eauto.. | |].
    + apply preserves_for_M; [typeclasses eauto..|]. intros fd. apply merge_fd_keeps_starts.
    + intros _. apply preserves_for_M; [typeclasses eauto..|]. intros fd.
      keeps_starts_frame.
  - intros _. keeps_starts_frame.
Qed.

#[local] Hint Resolve merge_fd_dict_keeps_starts : frames.











End AutomatonProps.
